(** * go-wati: request executor, error taxonomy and webhook core

    A shallow embedding of the request pipeline of the SDK
    ([client.go], the error types of package [wati]) and of the webhook
    core ([webhooks/types.go]), with the properties its specification
    states about them, followed by the construction of the client, the
    dispatch of received webhooks and the checks and loops of the
    message, contact, media and chatbot services that call the
    pipeline.

    Go's [int] is modelled by [Z], a Go [string] and a [[]byte] by
    [string] (a sequence of bytes), [error] values by an inductive type
    per call site. *)

From Stdlib Require Import ZArith List String Ascii Bool Lia Sorted Permutation.
From Stdlib Require DecimalString.
Import ListNotations.
Set Warnings "-register-all".
Local Open Scope string_scope.
Local Open Scope list_scope.
Local Open Scope Z_scope.

(** ** Error taxonomy (package wati, errors) *)

Module Errors.

(** [type WATIError struct { Code int; Message string; Type string }] *)
Record WATIError := mkWATIError {
  Code : Z;
  Message : string;
  Type_ : string
}.

(** The [net/http] status constants used by the switch. *)
Definition StatusBadRequest : Z := 400.
Definition StatusUnauthorized : Z := 401.
Definition StatusForbidden : Z := 403.
Definition StatusNotFound : Z := 404.
Definition StatusMethodNotAllowed : Z := 405.
Definition StatusTooManyRequests : Z := 429.
Definition StatusInternalServerError : Z := 500.

(** The [switch statusCode] of [NewWATIError]: the cases are tried in
    order, the [default] branch starts from ["unknown"]. *)
Definition errorTypeOf (statusCode : Z) : string :=
  if statusCode =? StatusBadRequest then "bad_request"
  else if statusCode =? StatusUnauthorized then "authentication"
  else if statusCode =? StatusForbidden then "authorization"
  else if statusCode =? StatusNotFound then "not_found"
  else if statusCode =? StatusMethodNotAllowed then "method_not_allowed"
  else if statusCode =? StatusTooManyRequests then "rate_limit"
  else if statusCode =? StatusInternalServerError then "server_error"
  else if statusCode >=? 500 then "server_error"
  else if statusCode >=? 400 then "client_error"
  else "unknown".

Definition NewWATIError (statusCode : Z) (message : string) : WATIError :=
  {| Code := statusCode; Message := message; Type_ := errorTypeOf statusCode |}.

(** [func (e *WATIError) IsRetryable() bool] *)
Definition IsRetryable (e : WATIError) : bool :=
  (Code e >=? 500) || (Code e =? 429).

Definition IsAuthenticationError (e : WATIError) : bool := Code e =? 401.
Definition IsAuthorizationError (e : WATIError) : bool := Code e =? 403.
Definition IsNotFoundError (e : WATIError) : bool := Code e =? 404.
Definition IsRateLimitError (e : WATIError) : bool := Code e =? 429.
Definition IsServerError (e : WATIError) : bool := Code e >=? 500.

(** [type NetworkError struct { Operation string; Err error }]; the
    transport error is kept as its text, [None] is a nil error. *)
Record NetworkError := mkNetworkError {
  Operation : string;
  Err : option string
}.

Definition NetworkError_IsRetryable (_ : NetworkError) : bool := true.

End Errors.

(** ** Byte strings *)

Module Bytes.

(** A byte is a [Z] in [0, 256). *)
Definition byte_of_ascii (c : ascii) : Z := Z.of_N (N_of_ascii c).
Definition ascii_of_byte (b : Z) : ascii := ascii_of_N (Z.to_N b).

(** [[]byte(s)] *)
Definition bytes_of_string (s : string) : list Z :=
  map byte_of_ascii (list_ascii_of_string s).

Definition is_byte (b : Z) : Prop := 0 <= b < 256.

(** [string(bs)] *)
Definition string_of_bytes (bs : list Z) : string :=
  string_of_list_ascii (map ascii_of_byte bs).

End Bytes.

(** ** crypto/sha256, crypto/hmac, encoding/hex, crypto/subtle

    The library functions [ValidateSignature] calls, written out over
    32-bit words held in [Z] (FIPS 180-4, RFC 2104). *)

Module Crypto.
Import Bytes.

Definition w32 (x : Z) : Z := x mod 2 ^ 32.
Definition add32 (a b : Z) : Z := w32 (a + b).
Definition rotr (n x : Z) : Z :=
  Z.lor (Z.shiftr x n) (w32 (Z.shiftl x (32 - n))).
Definition not32 (x : Z) : Z := Z.lxor x (2 ^ 32 - 1).

Definition Ch (x y z : Z) : Z := Z.lxor (Z.land x y) (Z.land (not32 x) z).
Definition Maj (x y z : Z) : Z :=
  Z.lxor (Z.lxor (Z.land x y) (Z.land x z)) (Z.land y z).
Definition bsig0 (x : Z) : Z := Z.lxor (Z.lxor (rotr 2 x) (rotr 13 x)) (rotr 22 x).
Definition bsig1 (x : Z) : Z := Z.lxor (Z.lxor (rotr 6 x) (rotr 11 x)) (rotr 25 x).
Definition ssig0 (x : Z) : Z := Z.lxor (Z.lxor (rotr 7 x) (rotr 18 x)) (Z.shiftr x 3).
Definition ssig1 (x : Z) : Z := Z.lxor (Z.lxor (rotr 17 x) (rotr 19 x)) (Z.shiftr x 10).

(** The round constants and the initial hash value are the first 32
    bits of the fractional parts of the cube roots of the first 64
    primes and of the square roots of the first 8. *)
Definition is_prime (p : Z) : bool :=
  (1 <? p) && forallb (fun d => negb (p mod Z.of_nat d =? 0)) (seq 2 (Z.to_nat p - 2)).

Definition primes64 : list Z :=
  filter is_prime (map Z.of_nat (seq 2 310)).

(** The integer part of the [k]-th root of [n], bit by bit from
    [2 ^ (bits - 1)] down. *)
Fixpoint iroot (bits : nat) (k n r : Z) : Z :=
  match bits with
  | O => r
  | S b =>
      let c := r + 2 ^ Z.of_nat b in
      iroot b k n (if c ^ k <=? n then c else r)
  end.

Definition K256 : list Z :=
  map (fun p => w32 (iroot 48 3 (p * 2 ^ 96) 0)) primes64.

Definition H256 : list Z :=
  map (fun p => w32 (iroot 48 2 (p * 2 ^ 64) 0)) (firstn 8 primes64).

(** Big-endian encoding of [x] on [n] bytes. *)
Fixpoint be_bytes (n : nat) (x : Z) : list Z :=
  match n with
  | O => []
  | S k => Z.shiftr x (8 * Z.of_nat k) mod 256 :: be_bytes k x
  end.

Definition be_word (bs : list Z) : Z :=
  fold_left (fun acc b => acc * 256 + b) bs 0.

(** Padding: a [0x80] byte, zeros up to 56 mod 64, the bit length on
    eight bytes. *)
Definition pad (msg : list Z) : list Z :=
  let len := Z.of_nat (List.length msg) in
  let zeros := Z.to_nat ((55 - len) mod 64) in
  msg ++ [128] ++ repeat 0 zeros ++ be_bytes 8 (8 * len).

Fixpoint chunks (fuel : nat) (n : nat) (bs : list Z) : list (list Z) :=
  match fuel, bs with
  | _, [] => []
  | O, _ => []
  | S f, _ => firstn n bs :: chunks f n (skipn n bs)
  end.

(** The message schedule: the window holds the last sixteen words,
    oldest first. *)
Fixpoint schedule (n : nat) (win : list Z) : list Z :=
  match n with
  | O => []
  | S k =>
      let w := add32 (add32 (add32 (ssig1 (nth 14 win 0)) (nth 9 win 0))
                            (ssig0 (nth 1 win 0))) (nth 0 win 0) in
      w :: schedule k (tl win ++ [w])
  end.

Definition round (st : list Z) (kw : Z * Z) : list Z :=
  match st with
  | [a; b; c; d; e; f; g; h] =>
      let t1 := add32 (add32 (add32 (add32 h (bsig1 e)) (Ch e f g)) (fst kw)) (snd kw) in
      let t2 := add32 (bsig0 a) (Maj a b c) in
      [add32 t1 t2; a; b; c; add32 d t1; e; f; g]
  | _ => st
  end.

Fixpoint add_state (xs ys : list Z) : list Z :=
  match xs, ys with
  | x :: xs', y :: ys' => add32 x y :: add_state xs' ys'
  | _, _ => []
  end.

Definition compress (st : list Z) (block : list Z) : list Z :=
  let w16 := map be_word (chunks 16 4 block) in
  let w := w16 ++ schedule 48 w16 in
  add_state st (fold_left round (combine K256 w) st).

(** [sha256.Sum256] *)
Definition sha256 (msg : list Z) : list Z :=
  let padded := pad msg in
  let blocks := chunks (List.length padded) 64 padded in
  flat_map (be_bytes 4) (fold_left compress blocks H256).

(** [hmac.New(sha256.New, key)], [Write(msg)], [Sum(nil)] *)
Definition hmac_sha256 (key msg : list Z) : list Z :=
  let k0 := if (64 <? Z.of_nat (List.length key)) then sha256 key else key in
  let k := k0 ++ repeat 0 (64 - List.length k0) in
  let ipad := map (Z.lxor 0x36) k in
  let opad := map (Z.lxor 0x5c) k in
  sha256 (opad ++ sha256 (ipad ++ msg)).

(** [hex.EncodeToString] *)
Definition hexdigit (n : Z) : ascii :=
  ascii_of_byte (if n <? 10 then 48 + n else 87 + n).

Fixpoint hex_encode (bs : list Z) : string :=
  match bs with
  | [] => EmptyString
  | b :: r => String (hexdigit (b / 16)) (String (hexdigit (b mod 16)) (hex_encode r))
  end.

(** [subtle.ConstantTimeByteEq]: [int((uint32(x^y) - 1) >> 31)] *)
Definition ConstantTimeByteEq (x y : Z) : Z :=
  Z.shiftr (w32 (Z.lxor x y - 1)) 31.

(** [subtle.ConstantTimeCompare]: zero on different lengths, else the
    bytewise xor of the two slices is or-ed into [v]. *)
Definition ConstantTimeCompare (x y : list Z) : Z :=
  if negb (Nat.eqb (List.length x) (List.length y)) then 0
  else
    let v := fold_left (fun v xy => Z.lor v (Z.lxor (fst xy) (snd xy)))
                       (combine x y) 0 in
    ConstantTimeByteEq v 0.

(** [hmac.Equal] *)
Definition hmac_Equal (mac1 mac2 : list Z) : bool :=
  ConstantTimeCompare mac1 mac2 =? 1.

End Crypto.

(** ** Signature validation (webhooks/types.go) *)

Module Signature.
Import Bytes Crypto.

(** [hex.EncodeToString(mac.Sum(nil))] for the key [secret]. *)
Definition expectedSignature (payload : string) (secret : string) : string :=
  hex_encode (hmac_sha256 (bytes_of_string secret) (bytes_of_string payload)).

(** [func ValidateSignature(payload []byte, signature string, secret string) bool] *)
Definition ValidateSignature (payload : string) (signature secret : string) : bool :=
  if String.eqb secret "" then true
  else hmac_Equal (bytes_of_string signature)
                  (bytes_of_string (expectedSignature payload secret)).

End Signature.


(** ** encoding/json

    JSON documents are handled as syntax trees: the text layer of
    [encoding/json] (scanner, string escapes, printer) is not part of
    the model.  A payload is an [option json], [None] standing for
    bytes that are not a well-formed JSON text.  The string of a tree
    is the decoded text of a JSON string. *)

Module Json.

(** *** Numbers *)

(** A [float64].  An integer-valued finite double is held as that
    integer, any other finite double by its IEEE-754 bit pattern
    (never interpreted). *)
Inductive float64 :=
| FInt (z : Z)
| FFrac (bits : Z)
| FNaN
| FInf (neg : bool).

(** The double nearest to the integer [z], ties to the even mantissa
    (53 bits of precision). *)
Definition round53 (z : Z) : Z :=
  let a := Z.abs z in
  if a <? 2 ^ 53 then z
  else
    let k := Z.log2 a - 52 in
    let q := a / 2 ^ k in
    let r := a mod 2 ^ k in
    let half := 2 ^ (k - 1) in
    let q' := if (half <? r) || ((half =? r) && Z.odd q) then q + 1 else q in
    Z.sgn z * (q' * 2 ^ k).

(** A number literal of a JSON text.  [LInt z] is a literal without
    fraction and exponent; a literal with one of them is identified
    with the double [strconv.ParseFloat] reads from it ([FInf] when it
    is out of range). *)
Inductive number :=
| LInt (z : Z)
| LReal (f : float64).

(** [strconv.ParseFloat(s, 64)], [None] for a range error. *)
Definition ParseFloat (n : number) : option float64 :=
  match n with
  | LInt z =>
      let r := round53 z in
      if Z.abs r <? 2 ^ 1024 then Some (FInt r) else None
  | LReal (FInt z) => Some (FInt z)
  | LReal (FFrac b) => Some (FFrac b)
  | LReal FNaN => None
  | LReal (FInf _) => None
  end.

(** [strconv.ParseInt(s, 10, 64)] on a literal, [None] on a syntax or
    range error. *)
Definition ParseInt64 (n : number) : option Z :=
  match n with
  | LInt z => if (- 2 ^ 63 <=? z) && (z <? 2 ^ 63) then Some z else None
  | LReal _ => None
  end.

(** The shortest decimal that reads back as the double [z]: the
    multiple of the largest power of ten, among the two around [z],
    that [round53] sends to [z]. *)
Fixpoint shortest_from (t : nat) (z : Z) : Z :=
  match t with
  | O => z
  | S t' =>
      let p := 10 ^ Z.of_nat t in
      let lo := z - z mod p in
      let hi := lo + p in
      let oklo := round53 lo =? z in
      let okhi := round53 hi =? z in
      if oklo && okhi then (if z - lo <=? hi - z then lo else hi)
      else if oklo then lo
      else if okhi then hi
      else shortest_from t' z
  end.

Definition shortest (z : Z) : Z := shortest_from 21 z.

(** The number [encoding/json] writes for a double: format ['f'] with
    the shortest digits below [1e21], format ['e'] from there on, an
    [UnsupportedValueError] for NaN and the infinities. *)
Definition FormatFloat (f : float64) : option number :=
  match f with
  | FInt z => Some (if Z.abs z <? 10 ^ 21 then LInt (shortest z) else LReal (FInt z))
  | FFrac b => Some (LReal (FFrac b))
  | FNaN => None
  | FInf _ => None
  end.

(** *** Documents and generic values *)

Inductive json :=
| JNull
| JBool (b : bool)
| JNum (n : number)
| JStr (s : string)
| JArr (l : list json)
| JObj (m : list (string * json)).

(** What [Unmarshal] stores in an [interface{}]: [nil], [bool],
    [float64], [string], [[]interface{}], [map[string]interface{}].
    A map is kept as its entries in increasing key order, the order
    in which [Marshal] writes them. *)
Inductive generic :=
| GNil
| GBool (b : bool)
| GFloat (f : float64)
| GString (s : string)
| GSlice (l : list generic)
| GMap (m : list (string * generic)).

(** [m[k] = v] on a map kept in key order. *)
Fixpoint map_insert {A : Type} (k : string) (v : A) (m : list (string * A))
  : list (string * A) :=
  match m with
  | [] => [(k, v)]
  | (k', v') :: r =>
      match String.compare k k' with
      | Eq => (k, v) :: r
      | Lt => (k, v) :: (k', v') :: r
      | Gt => (k', v') :: map_insert k v r
      end
  end.

Definition bind {A B : Type} (o : option A) (f : A -> option B) : option B :=
  match o with
  | Some a => f a
  | None => None
  end.

Notation "x <- e1 ;; e2" := (bind e1 (fun x => e2))
  (at level 61, e1 at next level, right associativity).

(** *** Strings

    A Go string is any sequence of bytes; the encoder writes it as
    UTF-8. *)

(** The rest of a string whose first byte lies between [lo] and
    [hi]. *)
Definition accept (lo hi : N) (s : string) : option string :=
  match s with
  | String c r =>
      let b := N_of_ascii c in
      if ((lo <=? b) && (b <=? hi))%N then Some r else None
  | EmptyString => None
  end.

(** [utf8.DecodeRuneInString]: the size of the encoding the string
    starts with; [None] where Go returns [RuneError] with size 1 (or
    0 for the empty string), for a first byte that starts no
    encoding and for an encoding that is cut short, overlong or a
    surrogate. *)
Definition rune_size (s : string) : option nat :=
  match s with
  | EmptyString => None
  | String c r =>
      let s0 := N_of_ascii c in
      if (s0 <? 128)%N then Some 1%nat
      else if (s0 <? 194)%N then None
      else if (s0 <? 224)%N then
        r1 <- accept 128 191 r ;; Some 2%nat
      else if (s0 <? 240)%N then
        r1 <- accept (if (s0 =? 224)%N then 160 else 128)
                     (if (s0 =? 237)%N then 159 else 191) r ;;
        r2 <- accept 128 191 r1 ;; Some 3%nat
      else if (s0 <? 245)%N then
        r1 <- accept (if (s0 =? 240)%N then 144 else 128)
                     (if (s0 =? 244)%N then 143 else 191) r ;;
        r2 <- accept 128 191 r1 ;;
        r3 <- accept 128 191 r2 ;; Some 4%nat
      else None
  end.

(** [utf8.ValidString]; [pending] counts the bytes left of the
    encoding being read. *)
Fixpoint valid_from (pending : nat) (s : string) : bool :=
  match s with
  | EmptyString => true
  | String c r =>
      match pending with
      | S k => valid_from k r
      | O =>
          match rune_size s with
          | Some size => valid_from (Nat.pred size) r
          | None => false
          end
      end
  end.

Definition ValidString (s : string) : bool := valid_from 0 s.

(** The text a decoder reads from what the encoder writes for a
    string ([appendString]): the string itself, with every byte that
    starts no valid encoding written as U+FFFD. *)
Fixpoint written_from (pending : nat) (s : string) : string :=
  match s with
  | EmptyString => EmptyString
  | String c r =>
      match pending with
      | S k => String c (written_from k r)
      | O =>
          match rune_size s with
          | Some size => String c (written_from (Nat.pred size) r)
          | None => String "239" (String "191" (String "189" (written_from 0 r)))
          end
      end
  end.

Definition written (s : string) : string := written_from 0 s.

(** [Unmarshal] into an [interface{}]: every number becomes a
    [float64], an object a fresh map filled member by member. *)
Fixpoint decode_generic (j : json) : option generic :=
  match j with
  | JNull => Some GNil
  | JBool b => Some (GBool b)
  | JNum n => f <- ParseFloat n ;; Some (GFloat f)
  | JStr s => Some (GString s)
  | JArr l =>
      l' <- (fix elems (js : list json) : option (list generic) :=
               match js with
               | [] => Some []
               | x :: r => g <- decode_generic x ;; gs <- elems r ;; Some (g :: gs)
               end) l ;;
      Some (GSlice l')
  | JObj m =>
      m' <- (fix members (kvs : list (string * json)) (acc : list (string * generic))
               : option (list (string * generic)) :=
               match kvs with
               | [] => Some acc
               | (k, x) :: r => g <- decode_generic x ;; members r (map_insert k g acc)
               end) m [] ;;
      Some (GMap m')
  end.

(** [Marshal] of a generic value; the members of a map are written
    in the order of its keys. *)
Fixpoint marshal_generic (g : generic) : option json :=
  match g with
  | GNil => Some JNull
  | GBool b => Some (JBool b)
  | GFloat f => n <- FormatFloat f ;; Some (JNum n)
  | GString s => Some (JStr (written s))
  | GSlice l =>
      l' <- (fix elems (gs : list generic) : option (list json) :=
               match gs with
               | [] => Some []
               | x :: r => j <- marshal_generic x ;; js <- elems r ;; Some (j :: js)
               end) l ;;
      Some (JArr l')
  | GMap m =>
      m' <- (fix members (kvs : list (string * generic)) : option (list (string * json)) :=
               match kvs with
               | [] => Some []
               | (k, x) :: r =>
                   j <- marshal_generic x ;; js <- members r ;; Some ((written k, j) :: js)
               end) m ;;
      Some (JObj m')
  end.

(** *** Go types with their struct tags

    The types [Marshal] and [Unmarshal] meet in this code base, as the
    reflection of [encoding/json] sees them: a struct is the list of
    its fields, each with the name and the [omitempty] option of its
    [json] tag. *)

Inductive ty :=
| TString
| TBool
| TInt64
| TFloat64
| TTime                      (* time.Time *)
| TAny                       (* interface{} *)
| TMapAny                    (* map[string]interface{} *)
| TSlice (t : ty)
| TPtr (t : ty)
| TStruct (fs : fields)
with fields :=
| FNil
| FCons (name : string) (omitempty : bool) (t : ty) (rest : fields).

(** The Go values of a type.  A slice and a map are [None] when they
    are nil; a [time.Time] is held as its RFC 3339 text. *)
Fixpoint den (t : ty) : Type :=
  match t with
  | TString => string
  | TBool => bool
  | TInt64 => Z
  | TFloat64 => float64
  | TTime => string
  | TAny => generic
  | TMapAny => option (list (string * generic))
  | TSlice t' => option (list (den t'))
  | TPtr t' => option (den t')
  | TStruct fs => den_fields fs
  end
with den_fields (fs : fields) : Type :=
  match fs with
  | FNil => unit
  | FCons _ _ t r => (den t * den_fields r)%type
  end.

(** The zero value of a type. *)
Fixpoint zero (t : ty) : den t :=
  match t return den t with
  | TString => ""
  | TBool => false
  | TInt64 => 0
  | TFloat64 => FInt 0
  | TTime => "0001-01-01T00:00:00Z"
  | TAny => GNil
  | TMapAny => None
  | TSlice _ => None
  | TPtr _ => None
  | TStruct fs => zero_fields fs
  end
with zero_fields (fs : fields) : den_fields fs :=
  match fs return den_fields fs with
  | FNil => tt
  | FCons _ _ t r => (zero t, zero_fields r)
  end.

(** [isEmptyValue] of the encoder, the test behind [omitempty]: a
    slice or a map is empty when its length is 0, nil or not. *)
Definition is_empty (t : ty) : den t -> bool :=
  match t return den t -> bool with
  | TString => fun s => String.eqb s ""
  | TBool => fun b => negb b
  | TInt64 => fun z => z =? 0
  | TFloat64 => fun f => match f with FInt 0 => true | _ => false end
  | TTime => fun _ => false
  | TAny => fun g => match g with GNil => true | _ => false end
  | TMapAny => fun m => match m with None | Some [] => true | _ => false end
  | TSlice _ => fun l => match l with None | Some [] => true | _ => false end
  | TPtr _ => fun p => match p with None => true | _ => false end
  | TStruct _ => fun _ => false
  end.

(** [Marshal]: the members of a struct in field order, without the
    empty [omitempty] fields; [null] for a nil slice, map, pointer or
    interface, an array or an object for a slice or a map that is not
    nil. *)
Fixpoint marshal (t : ty) : den t -> option json :=
  match t return den t -> option json with
  | TString => fun s => Some (JStr (written s))
  | TBool => fun b => Some (JBool b)
  | TInt64 => fun z => Some (JNum (LInt z))
  | TFloat64 => fun f => n <- FormatFloat f ;; Some (JNum n)
  | TTime => fun s => Some (JStr s)
  | TAny => fun g => marshal_generic g
  | TMapAny => fun m =>
      match m with
      | None => Some JNull
      | Some entries => marshal_generic (GMap entries)
      end
  | TSlice t' => fun l =>
      match l with
      | None => Some JNull
      | Some vs =>
          l' <- (fix elems (vs : list (den t')) : option (list json) :=
                   match vs with
                   | [] => Some []
                   | x :: r => j <- marshal t' x ;; js <- elems r ;; Some (j :: js)
                   end) vs ;;
          Some (JArr l')
      end
  | TPtr t' => fun p =>
      match p with
      | None => Some JNull
      | Some v => marshal t' v
      end
  | TStruct fs => fun v => m <- marshal_fields fs v ;; Some (JObj m)
  end
with marshal_fields (fs : fields) : den_fields fs -> option (list (string * json)) :=
  match fs return den_fields fs -> option (list (string * json)) with
  | FNil => fun _ => Some []
  | FCons name omit t r => fun v =>
      ms <- marshal_fields r (snd v) ;;
      if omit && is_empty t (fst v) then Some ms
      else j <- marshal t (fst v) ;; Some ((name, j) :: ms)
  end.

(** Field lookup of the decoder: the field whose name is the key, or
    else the first field whose name equals it up to the case of ASCII
    letters. *)
Definition lower (c : ascii) : ascii :=
  let n := N_of_ascii c in
  if (N.leb 65 n && N.leb n 90)%bool then ascii_of_N (n + 32) else c.

Fixpoint fold_name (s : string) : string :=
  match s with
  | EmptyString => EmptyString
  | String c r => String (lower c) (fold_name r)
  end.

Fixpoint field_names (fs : fields) : list string :=
  match fs with
  | FNil => []
  | FCons name _ _ r => name :: field_names r
  end.

Fixpoint index_of (p : string -> bool) (names : list string) : option nat :=
  match names with
  | [] => None
  | n :: r => if p n then Some O else option_map S (index_of p r)
  end.

Definition find_field (fs : fields) (key : string) : option nat :=
  match index_of (String.eqb key) (field_names fs) with
  | Some i => Some i
  | None => index_of (fun n => String.eqb (fold_name key) (fold_name n)) (field_names fs)
  end.

(** [time.Time.UnmarshalJSON]: the text has to be a strict RFC 3339
    date and time. *)
Definition digit (c : ascii) : option Z :=
  let n := Z.of_N (N_of_ascii c) in
  if (48 <=? n) && (n <=? 57) then Some (n - 48) else None.

Fixpoint digits (n : nat) (s : string) : option (Z * string) :=
  match n with
  | O => Some (0, s)
  | S k =>
      match s with
      | String c r =>
          d <- digit c ;;
          x <- digits k r ;;
          Some (d * 10 ^ Z.of_nat k + fst x, snd x)
      | EmptyString => None
      end
  end.

Definition expect (c : ascii) (s : string) : option string :=
  match s with
  | String c' r => if Ascii.eqb c c' then Some r else None
  | EmptyString => None
  end.

Fixpoint skip_digits (s : string) : string :=
  match s with
  | String c r => match digit c with Some _ => skip_digits r | None => s end
  | EmptyString => s
  end.

Definition days_in (year month : Z) : Z :=
  if month =? 2 then
    (if ((year mod 4 =? 0) && negb (year mod 100 =? 0)) || (year mod 400 =? 0)
     then 29 else 28)
  else if (month =? 4) || (month =? 6) || (month =? 9) || (month =? 11) then 30
  else 31.

Definition rfc3339 (s : string) : bool :=
  match
    (y <- digits 4 s ;; s1 <- expect "-" (snd y) ;;
     mo <- digits 2 s1 ;; s2 <- expect "-" (snd mo) ;;
     d <- digits 2 s2 ;; s3 <- expect "T" (snd d) ;;
     h <- digits 2 s3 ;; s4 <- expect ":" (snd h) ;;
     mi <- digits 2 s4 ;; s5 <- expect ":" (snd mi) ;;
     se <- digits 2 s5 ;;
     let s6 := match snd se with
               | String "." (String c r) =>
                   match digit c with Some _ => skip_digits r | None => snd se end
               | rest => rest
               end in
     if (1 <=? fst mo) && (fst mo <=? 12) && (1 <=? fst d)
        && (fst d <=? days_in (fst y) (fst mo))
        && (fst h <=? 23) && (fst mi <=? 59) && (fst se <=? 59)
     then
       match s6 with
       | "Z" => Some tt
       | String sign r =>
           if Ascii.eqb sign "+" || Ascii.eqb sign "-" then
             zh <- digits 2 r ;; s7 <- expect ":" (snd zh) ;;
             zm <- digits 2 s7 ;;
             match snd zm with
             | EmptyString =>
                 if (fst zh <=? 23) && (fst zm <=? 59) then Some tt else None
             | _ => None
             end
           else None
       | EmptyString => None
       end
     else None)
  with
  | Some _ => true
  | None => false
  end.

(** [Unmarshal] into a value of type [t] that currently holds [cur]:
    [null] resets a slice, map, pointer or interface to nil and
    leaves any other value as it is; a member of an object is decoded
    into the field [find_field] gives for its key, on top of what that
    field holds; an object is decoded into the map the value holds, a
    new one when it is nil; an array gives a slice that is not nil,
    each element being decoded into the element the slice has at that
    index, if any; a value of the wrong kind is an error. *)
Fixpoint unmarshal (t : ty) : den t -> json -> option (den t) :=
  match t return den t -> json -> option (den t) with
  | TString => fun cur j =>
      match j with
      | JNull => Some cur
      | JStr s => Some s
      | _ => None
      end
  | TBool => fun cur j =>
      match j with
      | JNull => Some cur
      | JBool b => Some b
      | _ => None
      end
  | TInt64 => fun cur j =>
      match j with
      | JNull => Some cur
      | JNum n => ParseInt64 n
      | _ => None
      end
  | TFloat64 => fun cur j =>
      match j with
      | JNull => Some cur
      | JNum n => ParseFloat n
      | _ => None
      end
  | TTime => fun cur j =>
      match j with
      | JNull => Some cur
      | JStr s => if rfc3339 s then Some s else None
      | _ => None
      end
  | TAny => fun _ j => decode_generic j
  | TMapAny => fun cur j =>
      match j with
      | JNull => Some None
      | JObj m =>
          entries <-
            (fix members (kvs : list (string * json)) (acc : list (string * generic))
               : option (list (string * generic)) :=
               match kvs with
               | [] => Some acc
               | (k, x) :: r => g <- decode_generic x ;; members r (map_insert k g acc)
               end) m (match cur with Some entries => entries | None => [] end) ;;
          Some (Some entries)
      | _ => None
      end
  | TSlice t' => fun cur j =>
      match j with
      | JNull => Some None
      | JArr l =>
          vs <-
            (fix elems (old : list (den t')) (js : list json) : option (list (den t')) :=
               match js with
               | [] => Some []
               | x :: r =>
                   v <- unmarshal t' (hd (zero t') old) x ;;
                   vs <- elems (tl old) r ;;
                   Some (v :: vs)
               end) (match cur with Some old => old | None => [] end) l ;;
          Some (Some vs)
      | _ => None
      end
  | TPtr t' => fun cur j =>
      match j with
      | JNull => Some None
      | _ =>
          v <- unmarshal t' (match cur with Some v => v | None => zero t' end) j ;;
          Some (Some v)
      end
  | TStruct fs => fun cur j =>
      match j with
      | JNull => Some cur
      | JObj m =>
          fold_left
            (fun acc kv =>
               c <- acc ;;
               match find_field fs (fst kv) with
               | Some i => unmarshal_field fs i c (snd kv)
               | None => Some c
               end)
            m (Some cur)
      | _ => None
      end
  end
with unmarshal_field (fs : fields) : nat -> den_fields fs -> json -> option (den_fields fs) :=
  match fs return nat -> den_fields fs -> json -> option (den_fields fs) with
  | FNil => fun _ cur _ => Some cur
  | FCons _ _ t r => fun i cur j =>
      match i with
      | O => v <- unmarshal t (fst cur) j ;; Some (v, snd cur)
      | S i' => vs <- unmarshal_field r i' (snd cur) j ;; Some (fst cur, vs)
      end
  end.

(** [json.Unmarshal(data, &v)] for a fresh variable [v]. *)
Definition Unmarshal (t : ty) (payload : option json) : option (den t) :=
  j <- payload ;; unmarshal t (zero t) j.

(** *** The loops of the codec by name *)

Definition decode_elems : list json -> option (list generic) :=
  fix elems (js : list json) : option (list generic) :=
    match js with
    | [] => Some []
    | x :: r => g <- decode_generic x ;; gs <- elems r ;; Some (g :: gs)
    end.

Definition decode_members
  : list (string * json) -> list (string * generic) -> option (list (string * generic)) :=
  fix members (kvs : list (string * json)) (acc : list (string * generic))
    : option (list (string * generic)) :=
    match kvs with
    | [] => Some acc
    | (k, x) :: r => g <- decode_generic x ;; members r (map_insert k g acc)
    end.

Definition marshal_elems : list generic -> option (list json) :=
  fix elems (gs : list generic) : option (list json) :=
    match gs with
    | [] => Some []
    | x :: r => j <- marshal_generic x ;; js <- elems r ;; Some (j :: js)
    end.

Definition marshal_members : list (string * generic) -> option (list (string * json)) :=
  fix members (kvs : list (string * generic)) : option (list (string * json)) :=
    match kvs with
    | [] => Some []
    | (k, x) :: r =>
        j <- marshal_generic x ;; js <- members r ;; Some ((written k, j) :: js)
    end.

Definition marshal_slice (t : ty) : list (den t) -> option (list json) :=
  fix elems (vs : list (den t)) : option (list json) :=
    match vs with
    | [] => Some []
    | x :: r => j <- marshal t x ;; js <- elems r ;; Some (j :: js)
    end.

Definition unmarshal_slice (t : ty) : list (den t) -> list json -> option (list (den t)) :=
  fix elems (old : list (den t)) (js : list json) : option (list (den t)) :=
    match js with
    | [] => Some []
    | x :: r =>
        v <- unmarshal t (hd (zero t) old) x ;;
        vs <- elems (tl old) r ;;
        Some (v :: vs)
    end.

(** The members of an object decoded into a struct, one after the
    other. *)
Definition unmarshal_members (fs : fields) (m : list (string * json))
    (cur : den_fields fs) : option (den_fields fs) :=
  fold_left
    (fun acc kv =>
       c <- acc ;;
       match find_field fs (fst kv) with
       | Some i => unmarshal_field fs i c (snd kv)
       | None => Some c
       end)
    m (Some cur).

(** A document read into an [interface{}] and written again: what
    [parseEventData] hands to the second [Unmarshal]. *)
Definition through_generic (j : json) : option json :=
  g <- decode_generic j ;; marshal_generic g.

(** *** Values that survive the codec *)

(** The integers every [float64] step keeps. *)
Definition exact_int (z : Z) : Prop := - 2 ^ 53 < z < 2 ^ 53.

(** A finite double, an integer-valued one being held as an integer
    that is a double. *)
Definition wf_float (f : float64) : Prop :=
  match f with
  | FInt z => round53 z = z /\ Z.abs z < 2 ^ 1024
  | FFrac _ => True
  | FNaN => False
  | FInf _ => False
  end.

Definition key_lt (a b : string) : Prop := String.compare a b = Lt.

(** A generic value with finite numbers, strings and keys in UTF-8
    and maps in key order. *)
Fixpoint wf_generic (g : generic) : Prop :=
  match g with
  | GNil => True
  | GBool _ => True
  | GFloat f => wf_float f
  | GString s => ValidString s = true
  | GSlice l =>
      (fix all (gs : list generic) : Prop :=
         match gs with
         | [] => True
         | x :: r => wf_generic x /\ all r
         end) l
  | GMap m =>
      StronglySorted key_lt (map fst m) /\
      (fix all (kvs : list (string * generic)) : Prop :=
         match kvs with
         | [] => True
         | (k, x) :: r => ValidString k = true /\ wf_generic x /\ all r
         end) m
  end.

(** The values of a type the codec is about: strings in UTF-8,
    integers below [2 ^ 53] in absolute value, finite doubles,
    well-formed generic values, times in RFC 3339, and no [omitempty]
    field that is empty without being the zero value (a slice or a
    map of length 0 that is not nil). *)
Fixpoint wf_value (t : ty) : den t -> Prop :=
  match t return den t -> Prop with
  | TString => fun s => ValidString s = true
  | TBool => fun _ => True
  | TInt64 => fun z => exact_int z
  | TFloat64 => fun f => wf_float f
  | TTime => fun s => rfc3339 s = true
  | TAny => fun g => wf_generic g
  | TMapAny => fun m =>
      match m with
      | Some entries => wf_generic (GMap entries)
      | None => True
      end
  | TSlice t' => fun l =>
      match l with
      | Some vs =>
          (fix all (vs : list (den t')) : Prop :=
             match vs with
             | [] => True
             | x :: r => wf_value t' x /\ all r
             end) vs
      | None => True
      end
  | TPtr t' => fun p =>
      match p with
      | Some v => wf_value t' v
      | None => True
      end
  | TStruct fs => fun v => wf_fields_value fs v
  end
with wf_fields_value (fs : fields) : den_fields fs -> Prop :=
  match fs return den_fields fs -> Prop with
  | FNil => fun _ => True
  | FCons _ omit t r => fun v =>
      wf_value t (fst v) /\
      (omit = true -> is_empty t (fst v) = true -> fst v = zero t) /\
      wf_fields_value r (snd v)
  end.

Fixpoint distinct (names : list string) : bool :=
  match names with
  | [] => true
  | n :: r => negb (existsb (String.eqb n) r) && distinct r
  end.

Definition is_struct (t : ty) : bool :=
  match t with
  | TStruct _ => true
  | _ => false
  end.

(** The types the codec is about: the fields of a struct have distinct
    names in UTF-8, a pointer points to a struct. *)
Fixpoint wf_ty (t : ty) : bool :=
  match t with
  | TSlice t' => wf_ty t'
  | TPtr t' => is_struct t' && wf_ty t'
  | TStruct fs =>
      distinct (field_names fs) && forallb ValidString (field_names fs) && wf_fields fs
  | _ => true
  end
with wf_fields (fs : fields) : bool :=
  match fs with
  | FNil => true
  | FCons _ _ t r => wf_ty t && wf_fields r
  end.

(** The member of an object under a key. *)
Fixpoint assoc {A : Type} (k : string) (m : list (string * A)) : option A :=
  match m with
  | [] => None
  | (k', v) :: r => if String.eqb k k' then Some v else assoc k r
  end.

(** A struct decoded field by field, each field from the member under
    its name. *)
Fixpoint unmarshal_by_name (fs : fields) (m : list (string * json))
    : den_fields fs -> option (den_fields fs) :=
  match fs return den_fields fs -> option (den_fields fs) with
  | FNil => fun cur => Some cur
  | FCons name _ t r => fun cur =>
      v <- match assoc name m with
           | Some j => unmarshal t (fst cur) j
           | None => Some (fst cur)
           end ;;
      vs <- unmarshal_by_name r m (snd cur) ;;
      Some (v, vs)
  end.

(** The members of an object passed through [through_generic], in
    place. *)
Fixpoint members_through_generic (m : list (string * json))
    : option (list (string * json)) :=
  match m with
  | [] => Some []
  | (k, j) :: r =>
      j' <- through_generic j ;;
      r' <- members_through_generic r ;;
      Some ((k, j') :: r')
  end.

(** What the round trip of a value gives: the document written, the
    document after the pass through [interface{}], and the value read
    back from it into a zero value. *)
Definition round_trips (t : ty) (v : den t) : Prop :=
  exists j j',
    marshal t v = Some j /\
    through_generic j = Some j' /\
    unmarshal t (zero t) j' = Some v /\
    (is_struct t = true -> exists m, j' = JObj m).

Definition fields_round_trip (fs : fields) (v : den_fields fs) : Prop :=
  exists ms ms',
    marshal_fields fs v = Some ms /\
    members_through_generic ms = Some ms' /\
    map fst ms' = map fst ms /\
    (forall k, In k (map fst ms) -> In k (field_names fs)) /\
    NoDup (map fst ms) /\
    unmarshal_by_name fs ms' (zero_fields fs) = Some v.

End Json.

(** Induction on a type together with the fields of its structs. *)
Scheme ty_fields_ind := Induction for Json.ty Sort Prop
  with fields_ty_ind := Induction for Json.fields Sort Prop.
Combined Scheme ty_mutual_ind from ty_fields_ind, fields_ty_ind.


(** ** Results *)

Inductive Result (A E : Type) :=
| Ok (a : A)
| Failed (e : E).
Arguments Ok {A E} a.
Arguments Failed {A E} e.

(** ** Webhook event model (webhooks/types.go) *)

Module Webhooks.
Import Json.

(** [type WebhookEventType string] and its thirteen constants. *)
Definition WebhookEventType := string.

Definition MessageReceived : WebhookEventType := "message_received".
Definition NewContactMessage : WebhookEventType := "new_contact_message".
Definition SessionMessageSent : WebhookEventType := "session_message_sent".
Definition TemplateMessageSent : WebhookEventType := "template_message_sent".
Definition MessageDelivered : WebhookEventType := "message_delivered".
Definition MessageRead : WebhookEventType := "message_read".
Definition MessageReplied : WebhookEventType := "message_replied".
Definition TemplateMessageFailed : WebhookEventType := "template_message_failed".
Definition ContactCreated : WebhookEventType := "contact_created".
Definition ContactUpdated : WebhookEventType := "contact_updated".
Definition ChatbotStarted : WebhookEventType := "chatbot_started".
Definition ChatbotStopped : WebhookEventType := "chatbot_stopped".
Definition ChatStatusChanged : WebhookEventType := "chat_status_changed".

Definition knownEvents : list WebhookEventType :=
  [ MessageReceived; NewContactMessage; SessionMessageSent; TemplateMessageSent;
    MessageDelivered; MessageRead; MessageReplied; TemplateMessageFailed;
    ContactCreated; ContactUpdated; ChatbotStarted; ChatbotStopped;
    ChatStatusChanged ].

(** *** The payload structs, field by field with their tags *)

Fixpoint mk_fields (l : list (string * bool * ty)) : fields :=
  match l with
  | [] => FNil
  | (name, omit, t) :: r => FCons name omit t (mk_fields r)
  end.

Definition Struct (l : list (string * bool * ty)) : ty := TStruct (mk_fields l).
Definition req (name : string) (t : ty) : string * bool * ty := (name, false, t).
Definition opt (name : string) (t : ty) : string * bool * ty := (name, true, t).

Definition WebhookContactProfile : ty :=
  Struct [ req "name" TString; opt "avatar" TString ].

Definition WebhookMediaInfo : ty :=
  Struct [ req "id" TString; req "fileName" TString; req "mimeType" TString;
           req "size" TInt64; req "url" TString; opt "caption" TString ].

Definition WebhookLocationInfo : ty :=
  Struct [ req "latitude" TFloat64; req "longitude" TFloat64;
           opt "name" TString; opt "address" TString ].

Definition WebhookPhoneNumber : ty :=
  Struct [ req "phone" TString; opt "type" TString ].

Definition WebhookEmail : ty :=
  Struct [ req "email" TString; opt "type" TString ].

Definition WebhookURL : ty :=
  Struct [ req "url" TString; opt "type" TString ].

Definition WebhookAddress : ty :=
  Struct [ opt "street" TString; opt "city" TString; opt "state" TString;
           opt "zip" TString; opt "country" TString; opt "countryCode" TString;
           opt "type" TString ].

Definition WebhookContactInfo : ty :=
  Struct [ req "name" TString;
           opt "phoneNumbers" (TSlice WebhookPhoneNumber);
           opt "emails" (TSlice WebhookEmail);
           opt "urls" (TSlice WebhookURL);
           opt "addresses" (TSlice WebhookAddress);
           opt "organization" TString; opt "birthday" TString ].

Definition WebhookButtonReply : ty :=
  Struct [ req "id" TString; req "title" TString ].

Definition WebhookListReply : ty :=
  Struct [ req "id" TString; req "title" TString; opt "description" TString ].

Definition WebhookInteractiveInfo : ty :=
  Struct [ req "type" TString;
           opt "buttonReply" (TPtr WebhookButtonReply);
           opt "listReply" (TPtr WebhookListReply) ].

Definition WebhookCustomParam : ty :=
  Struct [ req "name" TString; req "value" TString ].

Definition MessageReceivedData : ty :=
  Struct [ req "messageId" TString; req "from" TString; req "to" TString;
           req "messageType" TString; opt "text" TString;
           opt "media" (TPtr WebhookMediaInfo);
           opt "location" (TPtr WebhookLocationInfo);
           opt "contact" (TPtr WebhookContactInfo);
           opt "interactive" (TPtr WebhookInteractiveInfo);
           req "timestamp" TString;
           opt "contactProfile" (TPtr WebhookContactProfile) ].

Definition MessageSentData : ty :=
  Struct [ req "messageId" TString; req "from" TString; req "to" TString;
           req "messageType" TString; opt "templateName" TString;
           req "status" TString; req "timestamp" TString;
           opt "errorCode" TString; opt "errorMessage" TString;
           opt "contactProfile" (TPtr WebhookContactProfile) ].

Definition MessageStatusData : ty :=
  Struct [ req "messageId" TString; req "from" TString; req "to" TString;
           req "status" TString; req "timestamp" TString;
           opt "errorCode" TString; opt "errorMessage" TString ].

Definition ContactEventData : ty :=
  Struct [ req "contactId" TString; req "whatsappNumber" TString;
           req "firstName" TString; opt "lastName" TString;
           req "fullName" TString; opt "email" TString;
           opt "tags" (TSlice TString);
           opt "customParams" (TSlice WebhookCustomParam);
           opt "source" TString; req "timestamp" TString;
           opt "changes" TMapAny ].

Definition ChatbotEventData : ty :=
  Struct [ req "chatbotId" TString; req "chatbotName" TString;
           req "whatsappNumber" TString; opt "sessionId" TString;
           req "status" TString; req "timestamp" TString; opt "reason" TString ].

Definition ChatStatusEventData : ty :=
  Struct [ req "whatsappNumber" TString; req "oldStatus" TString;
           req "newStatus" TString; opt "assignedTo" TString;
           opt "assignedBy" TString; opt "tags" (TSlice TString);
           opt "notes" TString; req "timestamp" TString ].

(** The six payload shapes. *)
Inductive Shape :=
| SReceived | SSent | SStatus | SContact | SChatbot | SChatStatus.

Definition shape_ty (s : Shape) : ty :=
  match s with
  | SReceived => MessageReceivedData
  | SSent => MessageSentData
  | SStatus => MessageStatusData
  | SContact => ContactEventData
  | SChatbot => ChatbotEventData
  | SChatStatus => ChatStatusEventData
  end.

(** What the [Data interface{}] field of an event holds: a generic
    value ([GNil] is the nil interface) or one of the payload
    structs. *)
Inductive EventData :=
| Untyped (g : generic)
| Typed (s : Shape) (d : den (shape_ty s)).

(** [type WebhookEvent struct] *)
Record WebhookEvent := mkEvent {
  ID : string;
  Type_ : WebhookEventType;
  Timestamp : string;
  Data : EventData;
  Source : string;
  Version : string
}.

(** The struct as the decoder sees it. *)
Definition WebhookEventT : ty :=
  Struct [ req "id" TString; req "type" TString; req "timestamp" TString;
           req "data" TAny; opt "source" TString; opt "version" TString ].

Definition event_of (v : den WebhookEventT) : WebhookEvent :=
  let '(id, (type, (timestamp, (data, (source, (version, _)))))) := v in
  mkEvent id type timestamp (Untyped data) source version.

(** [json.Marshal(event.Data)] *)
Definition marshal_data (d : EventData) : option json :=
  match d with
  | Untyped g => marshal_generic g
  | Typed s v => marshal (shape_ty s) v
  end.

(** [json.Marshal(event)] *)
Definition marshal_event (e : WebhookEvent) : option json :=
  d <- marshal_data (Data e) ;;
  Some (JObj ([("id", JStr (written (ID e))); ("type", JStr (written (Type_ e)));
               ("timestamp", JStr (written (Timestamp e))); ("data", d)]
              ++ (if String.eqb (Source e) "" then []
                  else [("source", JStr (written (Source e)))])
              ++ (if String.eqb (Version e) "" then []
                  else [("version", JStr (written (Version e)))]))).

(** The selection made by the [switch event.Type] of [parseEventData]. *)
Definition shape_of (t : WebhookEventType) : option Shape :=
  if String.eqb t MessageReceived || String.eqb t NewContactMessage then Some SReceived
  else if String.eqb t SessionMessageSent || String.eqb t TemplateMessageSent
          || String.eqb t TemplateMessageFailed then Some SSent
  else if String.eqb t MessageDelivered || String.eqb t MessageRead
          || String.eqb t MessageReplied then Some SStatus
  else if String.eqb t ContactCreated || String.eqb t ContactUpdated then Some SContact
  else if String.eqb t ChatbotStarted || String.eqb t ChatbotStopped then Some SChatbot
  else if String.eqb t ChatStatusChanged then Some SChatStatus
  else None.

Definition set_Data (e : WebhookEvent) (d : EventData) : WebhookEvent :=
  mkEvent (ID e) (Type_ e) (Timestamp e) d (Source e) (Version e).

(** [func parseEventData(event *WebhookEvent) error]: the event after
    the call, or the error. *)
Definition parseEventData (event : WebhookEvent) : Result WebhookEvent string :=
  match Data event with
  | Untyped GNil => Ok event
  | _ =>
      match marshal_data (Data event) with
      | None => Failed "json: unsupported value"
      | Some dataBytes =>
          match shape_of (Type_ event) with
          | Some s =>
              match Unmarshal (shape_ty s) (Some dataBytes) with
              | None => Failed "json: cannot unmarshal"
              | Some data => Ok (set_Data event (Typed s data))
              end
          | None => Ok event
          end
      end
  end.

Inductive ParseError :=
| ErrParsingEvent   (* "error parsing webhook event: ..." *)
| ErrParsingData.   (* "error parsing event data: ..." *)

(** [func ParseWebhookEvent(payload []byte)]: the decoded event, or the
    error returned with a nil event. *)
Definition ParseWebhookEvent (payload : option json) : Result WebhookEvent ParseError :=
  match Unmarshal WebhookEventT payload with
  | None => Failed ErrParsingEvent
  | Some v =>
      match parseEventData (event_of v) with
      | Failed _ => Failed ErrParsingData
      | Ok event => Ok event
      end
  end.

End Webhooks.

(** ** Webhook registration and the local receiver (webhooks service) *)

Module WebhookService.
Import Webhooks.

(** [type WebhookRegistration struct] *)
Record WebhookRegistration := mkRegistration {
  URL : string;
  Events : list WebhookEventType;
  RegSecret : string;
  Description : string
}.

(** The [validEvents] map literal of [Validate]: [validEvents[event]]
    is [true] for the thirteen keys, [false] for any other. *)
Definition validEvents (event : WebhookEventType) : bool :=
  existsb (String.eqb event) knownEvents.

(** The [for _, event := range r.Events] loop: the first invalid event. *)
Fixpoint first_invalid (events : list WebhookEventType) : option WebhookEventType :=
  match events with
  | [] => None
  | event :: r => if negb (validEvents event) then Some event else first_invalid r
  end.

(** [func (r *WebhookRegistration) Validate() error], [None] for [nil]. *)
Definition Validate (r : WebhookRegistration) : option string :=
  if String.eqb (URL r) "" then Some "webhook URL is required"
  else if Nat.eqb (List.length (Events r)) 0 then
    Some "at least one event type is required"
  else
    match first_invalid (Events r) with
    | Some event => Some (String.append "invalid event type: " event)
    | None => None
    end.

(** A configuration that fails validation: nil, or with an empty URL,
    or without events, or with an event outside the thirteen. *)
Definition invalid_registration (config : option WebhookRegistration) : Prop :=
  match config with
  | None => True
  | Some cfg =>
      URL cfg = "" \/
      Events cfg = [] \/
      exists e, In e (Events cfg) /\ ~ In e knownEvents
  end.

(** One call of the [HTTPClient] interface. *)
Record Call := mkCall {
  call_method : string;
  call_endpoint : string;
  call_body : option WebhookRegistration
}.

Section Registration.
(** The [HTTPClient] the service was built with: what its
    [DoRequest] returns ([None] for a nil error). *)
Variable ClientError : Type.
Variable DoRequest : Call -> option ClientError.

Inductive RegisterError :=
| ErrConfigRequired                 (* "webhook configuration is required" *)
| ErrValidation (msg : string)      (* "validation error: ..." *)
| ErrRegistering (e : ClientError). (* "error registering webhook: ..." *)

(** [func (s *Service) RegisterWebhookWithConfig(ctx, config)]: the
    error returned and the calls made to the client, in order. *)
Definition RegisterWebhookWithConfig (config : option WebhookRegistration)
  : option RegisterError * list Call :=
  match config with
  | None => (Some ErrConfigRequired, [])
  | Some cfg =>
      match Validate cfg with
      | Some msg => (Some (ErrValidation msg), [])
      | None =>
          let call := mkCall "POST" "/api/v1/webhooks" (Some cfg) in
          match DoRequest call with
          | Some e => (Some (ErrRegistering e), [call])
          | None => (None, [call])
          end
      end
  end.

(** [func (s *Service) RegisterWebhook(ctx, url, events)] *)
Definition RegisterWebhook (url : string) (events : list WebhookEventType)
  : option RegisterError * list Call :=
  RegisterWebhookWithConfig (Some (mkRegistration url events "" "")).
End Registration.

(** [type WebhookHandler func(event *WebhookEvent) error]: a function
    value, [None] for the nil function. *)
Definition WebhookHandler := option (WebhookEvent -> option string).

(** [map[WebhookEventType]WebhookHandler] *)
Definition HandlerMap := list (WebhookEventType * WebhookHandler).

Fixpoint lookup (m : HandlerMap) (k : WebhookEventType) : option WebhookHandler :=
  match m with
  | [] => None
  | (k', h) :: r => if String.eqb k k' then Some h else lookup r k
  end.

Fixpoint delete (m : HandlerMap) (k : WebhookEventType) : HandlerMap :=
  match m with
  | [] => []
  | (k', h) :: r => if String.eqb k k' then delete r k else (k', h) :: delete r k
  end.

Definition insert (m : HandlerMap) (k : WebhookEventType) (h : WebhookHandler)
  : HandlerMap := (k, h) :: delete m k.

(** The [http.Server] built by [StartWebhookServer]; durations in
    seconds, [Addr] is [":" + strconv.Itoa(port)]. *)
Record HTTPServer := mkHTTPServer {
  AddrPort : Z;
  ReadTimeout : Z;
  WriteTimeout : Z;
  IdleTimeout : Z
}.

(** [type WebhookServer struct] *)
Record WebhookServer := mkServer {
  Port : Z;
  Handlers : HandlerMap;
  Secret : string;
  server : option HTTPServer;
  IsRunning : bool
}.

(** [NewService]: the server the service starts with. *)
Definition NewService : WebhookServer :=
  mkServer 0 [] "" None false.

(** [func (s *Service) StartWebhookServer(port, handlers)]; a nil map
    is [None].  The listener runs in its own goroutine, its outcome
    is only logged. *)
Definition StartWebhookServer (s : WebhookServer) (port : Z)
    (handlers : option HandlerMap) : option string * WebhookServer :=
  if IsRunning s then (Some "webhook server is already running", s)
  else
    let hs := match handlers with Some h => h | None => Handlers s end in
    (None, mkServer port hs (Secret s) (Some (mkHTTPServer port 30 30 60)) true).

(** [func (s *Service) StopWebhookServer() error]; [shutdown] is what
    [http.Server.Shutdown] returns under the 30 second deadline. *)
Definition StopWebhookServer (s : WebhookServer) (shutdown : option string)
    : option string * WebhookServer :=
  if negb (IsRunning s) then (Some "webhook server is not running", s)
  else
    match shutdown with
    | Some e => (Some (String.append "error stopping webhook server: " e), s)
    | None =>
        (None, mkServer (Port s) (Handlers s) (Secret s) (server s) false)
    end.

Definition RegisterHandler (s : WebhookServer) (eventType : WebhookEventType)
    (handler : WebhookHandler) : WebhookServer :=
  mkServer (Port s) (insert (Handlers s) eventType handler) (Secret s) (server s)
           (IsRunning s).

Definition UnregisterHandler (s : WebhookServer) (eventType : WebhookEventType)
    : WebhookServer :=
  mkServer (Port s) (delete (Handlers s) eventType) (Secret s) (server s) (IsRunning s).

Definition SetSecret (s : WebhookServer) (secret : string) : WebhookServer :=
  mkServer (Port s) (Handlers s) secret (server s) (IsRunning s).

Definition GetServerStatus (s : WebhookServer) : bool := IsRunning s.
Definition GetServerPort (s : WebhookServer) : Z := Port s.

(** The operations a caller can apply to a service, with what the
    environment answers to them. *)
Inductive Op :=
| OpStart (port : Z) (handlers : option HandlerMap)
| OpStop (shutdown : option string)
| OpRegisterHandler (eventType : WebhookEventType) (handler : WebhookHandler)
| OpUnregisterHandler (eventType : WebhookEventType)
| OpSetSecret (secret : string).

Definition step (s : WebhookServer) (op : Op) : WebhookServer :=
  match op with
  | OpStart port handlers => snd (StartWebhookServer s port handlers)
  | OpStop shutdown => snd (StopWebhookServer s shutdown)
  | OpRegisterHandler t h => RegisterHandler s t h
  | OpUnregisterHandler t => UnregisterHandler s t
  | OpSetSecret secret => SetSecret s secret
  end.

Definition run (ops : list Op) : WebhookServer := fold_left step ops NewService.

End WebhookService.

(** ** The request executor (client.go) *)

Module Client.
Import Json Errors.

(** [type RateLimitConfig struct] and [type Config struct]; the
    timeout in seconds. *)
Record RateLimitConfig := mkRateLimit {
  RequestsPerSecond : Z;
  BurstSize : Z
}.

Record Config := mkConfig {
  APIEndpoint : string;
  Token : string;
  Timeout : Z;
  RetryCount : Z;
  RateLimit : RateLimitConfig;
  Debug : bool
}.

Definition DefaultConfig : Config :=
  mkConfig "" "" 30 3 (mkRateLimit 10 20) false.

Definition set_Token (c : Config) (token : string) : Config :=
  mkConfig (APIEndpoint c) token (Timeout c) (RetryCount c) (RateLimit c) (Debug c).

(** *** The world outside the process *)

(** The bytes of a body with the syntax tree [encoding/json] reads
    from them ([None]: not a JSON text). *)
Record Text := mkText {
  raw : string;
  tree : option json
}.

(** [resp.Body]: [http.NoBody] for a response without content, else a
    stream that delivers [content] unless reading it fails. *)
Inductive Body :=
| NoBody
| Stream (content : Text) (readErr : option string).

Record Response := mkResponse {
  StatusCode : Z;
  RespBody : Body
}.

(** What [httpClient.Do] returns: an error with a nil response, or a
    response. *)
Inductive Attempt :=
| TransportError (e : string)
| Received (r : Response).

Record Request := mkRequest {
  Method : string;
  URL : string;
  Header : list (string * string);
  ReqBody : option json
}.

(** The answers of the environment during one [DoRequest]. *)
Record Env := mkEnv {
  limiterWait : option string;      (* error of rateLimiter.Wait(ctx), None for nil *)
  newRequest : option string;       (* error of http.NewRequestWithContext *)
  ctxDone : Z -> bool;              (* ctx.Done() wins the select before this attempt *)
  ctxErr : string;                  (* ctx.Err() *)
  httpDo : Z -> Request -> Attempt  (* httpClient.Do(req) at this attempt *)
}.

(** What the executor does, in order. *)
Inductive Event :=
| EvLimiterWait             (* rateLimiter.Wait(ctx) *)
| EvSleep (seconds : Z)     (* time.After(attempt * time.Second) fired *)
| EvDo (attempt : Z)        (* httpClient.Do(req) *)
| EvClose (attempt : Z)     (* resp.Body.Close() inside the loop *)
| EvReadAll.                (* io.ReadAll(resp.Body) *)

Inductive DoError :=
| ErrRateLimiter (e : string)       (* "rate limiter error: ..." *)
| ErrMarshalBody                    (* "error marshaling request body: ..." *)
| ErrCreatingRequest (e : string)   (* "error creating request: ..." *)
| ErrContext (e : string)           (* ctx.Err() *)
| ErrNetwork (e : NetworkError)
| ErrReadingBody (e : string)       (* "error reading response body: ..." *)
| ErrAPI (e : WATIError)
| ErrUnmarshalResponse.             (* "error unmarshaling response: ..." *)

(** *** The retry loop *)

(** How the [for] loop is left: by a [return], or by [break] or its
    condition with the variables [resp] and [lastErr]; the flag tells
    whether the body of [resp] was closed inside the loop. *)
Inductive LoopOutcome :=
| LoopReturn (e : DoError)
| LoopDone (resp : option (Response * bool)) (lastErr : option string).

Definition operation (method endpoint : string) : string :=
  String.append method (String.append " " endpoint).

Definition retryable_status (code : Z) : bool :=
  negb ((code <? 500) && negb (code =? 429)).

(** [for attempt := 0; attempt <= c.config.RetryCount; attempt++]; the
    fuel bounds the number of iterations. *)
Fixpoint retry_loop (fuel : nat) (cfg : Config) (env : Env) (req : Request)
    (op : string) (attempt : Z) (resp : option (Response * bool))
    (lastErr : option string) : LoopOutcome * list Event :=
  match fuel with
  | O => (LoopDone resp lastErr, [])
  | S fuel' =>
      if negb (attempt <=? RetryCount cfg) then (LoopDone resp lastErr, [])
      else if (0 <? attempt) && ctxDone env attempt then
        (LoopReturn (ErrContext (ctxErr env)), [])
      else
        let wait := if 0 <? attempt then [EvSleep attempt] else [] in
        match httpDo env attempt req with
        | TransportError e =>
            if attempt =? RetryCount cfg then
              (LoopReturn (ErrNetwork (mkNetworkError op (Some e))),
               wait ++ [EvDo attempt])
            else
              let (out, tr) :=
                retry_loop fuel' cfg env req op (attempt + 1) None (Some e) in
              (out, wait ++ EvDo attempt :: tr)
        | Received r =>
            if (StatusCode r <? 500) && negb (StatusCode r =? 429) then
              (LoopDone (Some (r, false)) None, wait ++ [EvDo attempt])
            else if attempt =? RetryCount cfg then
              (LoopDone (Some (r, true)) None,
               wait ++ [EvDo attempt; EvClose attempt])
            else
              let (out, tr) :=
                retry_loop fuel' cfg env req op (attempt + 1) (Some (r, true)) None in
              (out, wait ++ EvDo attempt :: EvClose attempt :: tr)
        end
  end.

(** *** After the loop *)

(** [io.ReadAll(resp.Body)]: a stream that was closed refuses the
    read, [http.NoBody] reads as empty whether closed or not. *)
Definition ReadAll (b : Body) (closed : bool) : Result Text string :=
  match b with
  | NoBody => Ok (mkText "" None)
  | Stream content readErr =>
      if closed then Failed "http: read on closed response body"
      else
        match readErr with
        | Some e => Failed e
        | None => Ok content
        end
  end.

(** [var apiError struct { Error string; Message string }] *)
Definition apiErrorT : ty :=
  TStruct (FCons "error" false TString (FCons "message" false TString FNil)).

Definition apiError_Error (v : den apiErrorT) : string := fst v.
Definition apiError_Message (v : den apiErrorT) : string := fst (snd v).

(** The status check and the decoding of the body, [result] being
    the value the caller's pointer refers to ([None] for a nil
    [result]). *)
Definition handle_response (t : ty) (result : option (den t)) (code : Z)
    (respBody : Text) : Result (option (den t)) DoError :=
  if code >=? 400 then
    let first := Unmarshal apiErrorT (tree respBody) in
    match first with
    | Some v1 =>
        if negb (String.eqb (apiError_Error v1) "") then
          Failed (ErrAPI (NewWATIError code (apiError_Error v1)))
        else
          match (j <- tree respBody ;; unmarshal apiErrorT v1 j) with
          | Some v2 =>
              if negb (String.eqb (apiError_Message v2) "") then
                Failed (ErrAPI (NewWATIError code (apiError_Message v2)))
              else Failed (ErrAPI (NewWATIError code (raw respBody)))
          | None => Failed (ErrAPI (NewWATIError code (raw respBody)))
          end
    | None => Failed (ErrAPI (NewWATIError code (raw respBody)))
    end
  else
    match result with
    | Some cur =>
        match (j <- tree respBody ;; unmarshal t cur j) with
        | Some v => Ok (Some v)
        | None => Failed ErrUnmarshalResponse
        end
    | None => Ok None
    end.

(** The code after the loop, for the response [resp] it was left
    with: the body is read, then the status is checked. *)
Definition after_loop (t : ty) (result : option (den t)) (resp : Response)
    (closed : bool) : Result (option (den t)) DoError :=
  match ReadAll (RespBody resp) closed with
  | Failed e => Failed (ErrReadingBody e)
  | Ok respBody => handle_response t result (StatusCode resp) respBody
  end.

Definition headers (cfg : Config) : list (string * string) :=
  [ ("Authorization", String.append "Bearer " (Token cfg));
    ("Content-Type", "application/json");
    ("Accept", "application/json");
    ("User-Agent", "go-wati/1.0.0") ].

(** [json.Marshal(body)] when [body] is not nil: the reader of the
    request, [None] when marshaling fails. *)
Definition encode_body (tb : ty) (body : option (den tb)) : option (option json) :=
  match body with
  | Some b => j <- marshal tb b ;; Some (Some j)
  | None => Some None
  end.

Definition build_request (cfg : Config) (method endpoint : string)
    (reader : option json) : Request :=
  mkRequest method (String.append (APIEndpoint cfg) endpoint) (headers cfg) reader.

(** [func (c *Client) DoRequest(ctx, method, endpoint, body, result)]:
    the error or the decoded result, and what was done on the way. *)
Definition DoRequest (cfg : Config) (env : Env) (method endpoint : string)
    (tb : ty) (body : option (den tb)) (t : ty) (result : option (den t))
    : Result (option (den t)) DoError * list Event :=
  match limiterWait env with
  | Some e => (Failed (ErrRateLimiter e), [EvLimiterWait])
  | None =>
      match encode_body tb body with
      | None => (Failed ErrMarshalBody, [EvLimiterWait])
      | Some reader =>
          match newRequest env with
          | Some e => (Failed (ErrCreatingRequest e), [EvLimiterWait])
          | None =>
              let req := build_request cfg method endpoint reader in
              let op := operation method endpoint in
              let (out, tr) :=
                retry_loop (Z.to_nat (RetryCount cfg + 1)) cfg env req op 0 None None in
              match out with
              | LoopReturn e => (Failed e, EvLimiterWait :: tr)
              | LoopDone None lastErr =>
                  (Failed (ErrNetwork (mkNetworkError op lastErr)), EvLimiterWait :: tr)
              | LoopDone (Some (resp, closed)) _ =>
                  (after_loop t result resp closed, EvLimiterWait :: tr ++ [EvReadAll])
              end
          end
      end
  end.

(** *** Token rotation *)

(** [type TokenResponse struct { BaseResponse; Token; ExpiresAt }],
    the embedded fields promoted. *)
Definition TokenResponseT : ty :=
  TStruct (FCons "result" false TBool (FCons "message" true TString
          (FCons "error" true TString (FCons "token" false TString
          (FCons "expiresAt" false TTime FNil))))).

Definition TokenResponse_Token (r : den TokenResponseT) : string :=
  fst (snd (snd (snd r))).

(** [func (c *Client) RotateToken()]: what is returned, and the
    configuration of the client after the call. *)
Definition RotateToken (cfg : Config) (env : Env)
    : Result (den TokenResponseT) DoError * Config :=
  match fst (DoRequest cfg env "POST" "/api/v1/rotateToken" TString None
                       TokenResponseT (Some (zero TokenResponseT))) with
  | Failed e => (Failed e, cfg)
  | Ok out =>
      let result := match out with Some v => v | None => zero TokenResponseT end in
      (Ok result, set_Token cfg (TokenResponse_Token result))
  end.

End Client.

(** ** Vocabulary for the runs of the executor *)

Module Runs.
Import Client.

(** The attempts of a run, in order. *)
Fixpoint attempts (tr : list Event) : list Z :=
  match tr with
  | [] => []
  | EvDo k :: r => k :: attempts r
  | _ :: r => attempts r
  end.

Fixpoint count_waits (tr : list Event) : nat :=
  match tr with
  | [] => O
  | EvLimiterWait :: r => S (count_waits r)
  | _ :: r => count_waits r
  end.

(** The sleeps and the requests of a run. *)
Fixpoint network_events (tr : list Event) : list Event :=
  match tr with
  | [] => []
  | EvSleep s :: r => EvSleep s :: network_events r
  | EvDo k :: r => EvDo k :: network_events r
  | _ :: r => network_events r
  end.

(** [cnt] consecutive attempt numbers from [a]. *)
Fixpoint zrange (a : Z) (cnt : nat) : list Z :=
  match cnt with
  | O => []
  | S c => a :: zrange (a + 1) c
  end.

(** Linear backoff: attempt [j] is sent after a sleep of [j] seconds,
    the first attempt at once. *)
Definition backoff (j : Z) : list Event :=
  if 0 <? j then [EvSleep j; EvDo j] else [EvDo j].

(** The cancellation signal fires during the wait before attempt [j]. *)
Definition cancelled (env : Env) (j : Z) : bool := (0 <? j) && ctxDone env j.

(** Attempt [j] ends in a transport error or in a 5xx or 429 response. *)
Definition transient (env : Env) (req : Request) (j : Z) : bool :=
  match httpDo env j req with
  | TransportError _ => true
  | Received r => retryable_status (StatusCode r)
  end.

(** What one iteration of the loop does at attempt [j]. *)
Definition iteration (env : Env) (req : Request) (j : Z) : list Event :=
  (if 0 <? j then [EvSleep j] else [])
    ++ [EvDo j]
    ++ match httpDo env j req with
       | Received r => if retryable_status (StatusCode r) then [EvClose j] else []
       | TransportError _ => []
       end.

(** The retry policy on one run [(res, tr)] of the executor for the
    request [req]: the attempts are numbered from 0 and there are at
    most [RetryCount + 1] of them; each one but the first comes after
    a sleep of as many seconds as its number; every attempt before the
    last one made, [k], was transient and not cancelled; the run ends
    at [k] with the cancellation error when the signal fires during
    the wait, with a [NetworkError] carrying the transport error of
    attempt [k] when that attempt fails and is the last one permitted,
    and otherwise with what the code after the loop makes of the
    response of attempt [k], which is retried unless [k] is the last
    attempt permitted, and whose body is open when it is not
    retryable. *)
Definition RetryRun (cfg : Config) (env : Env) (req : Request) (op : string)
    (t : Json.ty) (result : option (Json.den t))
    (res : Result (option (Json.den t)) DoError) (tr : list Event) : Prop :=
  exists (k : Z) (cnt : nat),
    0 <= k <= RetryCount cfg /\
    (cnt <= Z.to_nat (RetryCount cfg + 1))%nat /\
    attempts tr = zrange 0 cnt /\
    network_events tr = flat_map backoff (zrange 0 cnt) /\
    (forall j, 0 <= j < k -> cancelled env j = false /\ transient env req j = true) /\
    ((cancelled env k = true /\ cnt = Z.to_nat k /\
      res = Failed (ErrContext (ctxErr env)))
     \/
     (cancelled env k = false /\ cnt = Z.to_nat (k + 1) /\
      ((exists e, httpDo env k req = TransportError e /\ k = RetryCount cfg /\
                  res = Failed (ErrNetwork (Errors.mkNetworkError op (Some e))))
       \/
       (exists r closed,
           httpDo env k req = Received r /\
           (retryable_status (StatusCode r) = true -> k = RetryCount cfg) /\
           (retryable_status (StatusCode r) = false -> closed = false) /\
           res = Client.after_loop t result r closed)))).

End Runs.

(** ** Sample configurations, backends and documents *)

Module Samples.
Import Json Client.

Definition quoted (s : string) : string :=
  String "034" (String.append s (String "034" EmptyString)).

Definition config (retries : Z) : Config :=
  mkConfig "https://live-server.example" "test-token" 30 retries (mkRateLimit 10 20) false.

(** A backend given by what it answers at each attempt; the limiter
    grants its token and the context is never cancelled. *)
Definition backend (answers : Z -> Attempt) : Env :=
  mkEnv None None (fun _ => false) "context canceled" (fun k _ => answers k).

(** The body [{"result":false,"error":"invalid request"}]. *)
Definition invalid_request_body : Text :=
  mkText (String.append "{" (String.append (quoted "result") (String.append ":false,"
           (String.append (quoted "error") (String.append ":"
           (String.append (quoted "invalid request") "}"))))))
         (Some (JObj [("result", JBool false); ("error", JStr "invalid request")])).

(** The body [{"result":true,"message":"success"}]. *)
Definition success_body : Text :=
  mkText (String.append "{" (String.append (quoted "result") (String.append ":true,"
           (String.append (quoted "message") (String.append ":"
           (String.append (quoted "success") "}"))))))
         (Some (JObj [("result", JBool true); ("message", JStr "success")])).

(** The body [{"error":"overloaded"}]. *)
Definition overloaded_body : Text :=
  mkText (String.append "{" (String.append (quoted "error") (String.append ":"
           (String.append (quoted "overloaded") "}"))))
         (Some (JObj [("error", JStr "overloaded")])).

(** [struct { Result bool; Message string }], the target of the tests. *)
Definition TestResponseT : ty :=
  TStruct (FCons "result" false TBool (FCons "message" false TString FNil)).

(** Status 500 without content at the first attempt, then the
    connection breaks. *)
Definition error_then_reset (k : Z) : Attempt :=
  if k =? 0 then Received (mkResponse 500 NoBody)
  else TransportError "connection reset by peer".

(** Status 500 without content twice, then 200 with [{"result":true,...}]. *)
Definition fails_twice (k : Z) : Attempt :=
  if k <? 2 then Received (mkResponse 500 NoBody)
  else Received (mkResponse 200 (Stream success_body None)).

(** Status 500 with [{"error":"overloaded"}], always. *)
Definition always_overloaded (_ : Z) : Attempt :=
  Received (mkResponse 500 (Stream overloaded_body None)).

(** Status 400 with [{"result":false,"error":"invalid request"}]. *)
Definition always_invalid (_ : Z) : Attempt :=
  Received (mkResponse 400 (Stream invalid_request_body None)).

(** The body [{"result":true,"token":"tok-2","expiresAt":"2025-01-01T00:00:00Z"}]. *)
Definition rotated_body : Text :=
  mkText (String.append "{" (String.append (quoted "result")
           (String.append ":true," (String.append (quoted "token")
           (String.append ":" (String.append (quoted "tok-2")
           (String.append "," (String.append (quoted "expiresAt")
           (String.append ":" (String.append (quoted "2025-01-01T00:00:00Z")
           "}"))))))))))
         (Some (JObj [("result", JBool true); ("token", JStr "tok-2");
                      ("expiresAt", JStr "2025-01-01T00:00:00Z")])).

(** Status 200 with that body, always. *)
Definition rotates (_ : Z) : Attempt :=
  Received (mkResponse 200 (Stream rotated_body None)).


End Samples.

(** ** Vocabulary for the webhook decoder *)

Module Decoding.
Import Json Webhooks.

(** The generic value an envelope was decoded with. *)
Definition envelope_data (v : den WebhookEventT) : generic :=
  fst (snd (snd (snd v))).

(** The size of the media of a received message, when the event
    carries one. *)
Definition media_size (e : WebhookEvent) : option Z :=
  match Data e with
  | Untyped _ => None
  | Typed s d =>
      match s return den (shape_ty s) -> option Z with
      | SReceived => fun d =>
          match fst (snd (snd (snd (snd (snd d))))) with
          | Some media => Some (fst (snd (snd (snd media))))
          | None => None
          end
      | _ => fun _ => None
      end d
  end.

(** A received image whose file has [size] bytes. *)
Definition image_message (size : Z) : den MessageReceivedData :=
  ("wamid.1", ("5491100000000", ("5491111111111", ("image", ("",
   (Some ("media-1", ("photo.png", ("image/png", (size, ("https://cdn.example/photo.png",
          ("", tt)))))),
    (None, (None, (None, ("2024-01-01T00:00:00Z", (None, tt))))))))))).

Definition image_event (size : Z) : WebhookEvent :=
  mkEvent "evt-1" MessageReceived "2024-01-01T00:00:00Z"
          (Typed SReceived (image_message size)) "wati" "1.0".

(** A change of chat status with the given tags, and its event. *)
Definition status_change (tags : option (list string)) : den ChatStatusEventData :=
  ("5491100000000", ("open", ("solved", ("", ("", (tags,
   ("", ("2024-01-01T00:00:00Z", tt)))))))).

Definition status_event (id : string) (tags : option (list string)) : WebhookEvent :=
  mkEvent id ChatStatusChanged "2024-01-01T00:00:00Z"
          (Typed SChatStatus (status_change tags)) "wati" "1.0".

End Decoding.

(** ** Token check and construction of the client (client.go, config.go) *)

Module ClientSetup.
Import Json Errors Client.

(** [strings.HasSuffix] and [strings.TrimSuffix] *)
Definition HasSuffix (s suffix : string) : bool :=
  (String.length suffix <=? String.length s)%nat
  && String.eqb (substring (String.length s - String.length suffix)%nat
                           (String.length suffix) s) suffix.

Definition TrimSuffix (s suffix : string) : string :=
  if HasSuffix s suffix
  then substring 0 (String.length s - String.length suffix)%nat s
  else s.

(** [type ClientOption], a function on the configuration, and the
    four options of config.go; a timeout in seconds. *)
Definition ClientOption := Config -> Config.

Definition WithTimeout (timeout : Z) : ClientOption :=
  fun c => mkConfig (APIEndpoint c) (Token c) timeout (RetryCount c) (RateLimit c) (Debug c).

Definition WithRetryCount (count : Z) : ClientOption :=
  fun c => mkConfig (APIEndpoint c) (Token c) (Timeout c) count (RateLimit c) (Debug c).

Definition WithRateLimit (requestsPerSecond burstSize : Z) : ClientOption :=
  fun c => mkConfig (APIEndpoint c) (Token c) (Timeout c) (RetryCount c)
                    (mkRateLimit requestsPerSecond burstSize) (Debug c).

Definition WithDebug (debug : bool) : ClientOption :=
  fun c => mkConfig (APIEndpoint c) (Token c) (Timeout c) (RetryCount c) (RateLimit c) debug.

(** The options a caller gets from config.go. *)
Inductive provided : ClientOption -> Prop :=
| provided_timeout (timeout : Z) : provided (WithTimeout timeout)
| provided_retry (count : Z) : provided (WithRetryCount count)
| provided_rate (requestsPerSecond burstSize : Z) :
    provided (WithRateLimit requestsPerSecond burstSize)
| provided_debug (debug : bool) : provided (WithDebug debug).

(** [func NewClient(apiEndpoint, token string, options ...ClientOption)]:
    the configuration of the client it returns. *)
Definition NewClient (apiEndpoint token : string) (options : list ClientOption) : Config :=
  let config :=
    mkConfig (TrimSuffix apiEndpoint "/") token (Timeout DefaultConfig)
             (RetryCount DefaultConfig) (RateLimit DefaultConfig) (Debug DefaultConfig) in
  fold_left (fun config option => option config) options config.

(** [SetAPIEndpoint(endpoint string)] of the client *)
Definition SetAPIEndpoint (c : Config) (endpoint : string) : Config :=
  mkConfig (TrimSuffix endpoint "/") (Token c) (Timeout c) (RetryCount c) (RateLimit c)
           (Debug c).

(** [var ErrInvalidToken = &WATIError{...}] *)
Definition ErrInvalidToken : WATIError :=
  mkWATIError 401 "Invalid API token" "authentication".

(** [type BaseResponse struct { Result; Message; Error }] *)
Definition BaseResponseT : ty :=
  TStruct (FCons "result" false TBool (FCons "message" true TString
          (FCons "error" true TString FNil))).

(** [ValidateToken() error] of the client: the error returned
    ([None] for nil) and what the executor did. *)
Definition ValidateToken (cfg : Config) (env : Env) : option DoError * list Event :=
  let (res, tr) :=
    DoRequest cfg env "GET" "/api/v1/chatbots" TString None
              BaseResponseT (Some (zero BaseResponseT)) in
  match res with
  | Failed err =>
      match err with
      | ErrAPI watiErr =>
          if IsAuthenticationError watiErr then (Some (ErrAPI ErrInvalidToken), tr)
          else (Some err, tr)
      | _ => (Some err, tr)
      end
  | Ok _ => (None, tr)
  end.

(** The seconds a run has slept between attempts. *)
Fixpoint total_sleep (tr : list Event) : Z :=
  match tr with
  | [] => 0
  | EvSleep seconds :: r => seconds + total_sleep r
  | _ :: r => total_sleep r
  end.

End ClientSetup.

(** ** Helpers of the webhook payloads (webhooks/types.go) *)

Module Payloads.
Import Json Webhooks.

(** The fields of [MessageReceivedData] read by its methods. *)
Definition MessageType (d : den MessageReceivedData) : string :=
  fst (snd (snd (snd d))).
Definition Text (d : den MessageReceivedData) : string :=
  fst (snd (snd (snd (snd d)))).
Definition Media (d : den MessageReceivedData) : option (den WebhookMediaInfo) :=
  fst (snd (snd (snd (snd (snd d))))).
Definition Location (d : den MessageReceivedData) : option (den WebhookLocationInfo) :=
  fst (snd (snd (snd (snd (snd (snd d)))))).
Definition Contact (d : den MessageReceivedData) : option (den WebhookContactInfo) :=
  fst (snd (snd (snd (snd (snd (snd (snd d))))))).
Definition Interactive (d : den MessageReceivedData)
  : option (den WebhookInteractiveInfo) :=
  fst (snd (snd (snd (snd (snd (snd (snd (snd d)))))))).
Definition ContactProfile (d : den MessageReceivedData)
  : option (den WebhookContactProfile) :=
  fst (snd (snd (snd (snd (snd (snd (snd (snd (snd (snd d)))))))))).

Definition ButtonReply (i : den WebhookInteractiveInfo)
  : option (den WebhookButtonReply) := fst (snd i).
Definition ListReply (i : den WebhookInteractiveInfo)
  : option (den WebhookListReply) := fst (snd (snd i)).
Definition ButtonReply_Title (b : den WebhookButtonReply) : string := fst (snd b).
Definition ListReply_Title (l : den WebhookListReply) : string := fst (snd l).
Definition ContactProfile_Name (p : den WebhookContactProfile) : string := fst p.

(** [func (d *MessageReceivedData) GetMessageText() string] *)
Definition GetMessageText (d : den MessageReceivedData) : string :=
  if String.eqb (MessageType d) "text" then Text d
  else if String.eqb (MessageType d) "interactive" then
    match Interactive d with
    | Some i =>
        match ButtonReply i with
        | Some b => ButtonReply_Title b
        | None =>
            match ListReply i with
            | Some l => ListReply_Title l
            | None => ""
            end
        end
    | None => ""
    end
  else "".

Definition IsTextMessage (d : den MessageReceivedData) : bool :=
  String.eqb (MessageType d) "text".

Definition IsMediaMessage (d : den MessageReceivedData) : bool :=
  match Media d with Some _ => true | None => false end.

Definition IsLocationMessage (d : den MessageReceivedData) : bool :=
  match Location d with Some _ => true | None => false end.

Definition IsContactMessage (d : den MessageReceivedData) : bool :=
  match Contact d with Some _ => true | None => false end.

Definition IsInteractiveMessage (d : den MessageReceivedData) : bool :=
  match Interactive d with Some _ => true | None => false end.

Definition IsButtonReply (d : den MessageReceivedData) : bool :=
  match Interactive d with
  | Some i => match ButtonReply i with Some _ => true | None => false end
  | None => false
  end.

Definition IsListReply (d : den MessageReceivedData) : bool :=
  match Interactive d with
  | Some i => match ListReply i with Some _ => true | None => false end
  | None => false
  end.

Definition GetContactName (d : den MessageReceivedData) : string :=
  match ContactProfile d with
  | Some p => ContactProfile_Name p
  | None => ""
  end.

(** The fields of [MessageSentData] read by its methods. *)
Definition Status (d : den MessageSentData) : string :=
  fst (snd (snd (snd (snd (snd d))))).
Definition ErrorCode (d : den MessageSentData) : string :=
  fst (snd (snd (snd (snd (snd (snd (snd d))))))).
Definition ErrorMessage (d : den MessageSentData) : string :=
  fst (snd (snd (snd (snd (snd (snd (snd (snd d)))))))).

Definition IsDelivered (d : den MessageSentData) : bool := String.eqb (Status d) "delivered".
Definition IsRead (d : den MessageSentData) : bool := String.eqb (Status d) "read".
Definition IsFailed (d : den MessageSentData) : bool := String.eqb (Status d) "failed".

Definition HasError (d : den MessageSentData) : bool :=
  negb (String.eqb (ErrorCode d) "") || negb (String.eqb (ErrorMessage d) "").

(** [func (d *MessageSentData) GetErrorInfo() string] *)
Definition GetErrorInfo (d : den MessageSentData) : string :=
  if negb (String.eqb (ErrorMessage d) "") then ErrorMessage d
  else if negb (String.eqb (ErrorCode d) "") then
    String.append "Error code: " (ErrorCode d)
  else "".

End Payloads.

(** ** Dispatch of received webhooks (webhooks service) *)

Module WebhookDispatch.
Import Json Webhooks WebhookService.

Inductive HandleError :=
| ErrParsingWebhook (e : ParseError)   (* "error parsing webhook event: ..." *)
| ErrInvalidSignature                  (* "invalid webhook signature" *)
| ErrExecutingHandler (e : string).    (* "error executing webhook handler: ..." *)

(** What [HandleWebhook] returns, the event ([None] for nil) and the
    error, with the handler calls it made: the key the handler was
    stored under and the event it was given. *)
Record Handled := mkHandled {
  handled_event : option WebhookEvent;
  handled_error : option HandleError;
  handler_calls : list (WebhookEventType * WebhookEvent)
}.

(** [func (s *Service) HandleWebhook(payload []byte, signature string)];
    a handler is called when the map has an entry for the type of the
    event and that entry is not the nil function; handlers read the
    event they are given. *)
Definition HandleWebhook (s : WebhookServer) (payload : Client.Text)
    (signature : string) : Handled :=
  match ParseWebhookEvent (Client.tree payload) with
  | Failed e => mkHandled None (Some (ErrParsingWebhook e)) []
  | Ok event =>
      let secret := Secret s in
      if negb (Signature.ValidateSignature (Client.raw payload) signature secret) then
        mkHandled None (Some ErrInvalidSignature) []
      else
        match lookup (Handlers s) (Type_ event) with
        | Some (Some handler) =>
            match handler event with
            | Some e =>
                mkHandled (Some event) (Some (ErrExecutingHandler e))
                          [(Type_ event, event)]
            | None => mkHandled (Some event) None [(Type_ event, event)]
            end
        | Some None => mkHandled (Some event) None []
        | None => mkHandled (Some event) None []
        end
  end.

(** [func (s *Service) ValidateWebhookSignature(payload, signature)] *)
Definition ValidateWebhookSignature (s : WebhookServer) (payload signature : string)
  : bool :=
  Signature.ValidateSignature payload signature (Secret s).

(** The request as the receiver reads it: the method, what
    [io.ReadAll(r.Body)] gives and [r.Header.Get]. *)
Record HTTPRequest := mkHTTPRequest {
  ReqMethod : string;
  ReqBody : Result Client.Text string;
  HeaderGet : string -> string
}.

(** What the receiver writes: [http.Error(w, msg, code)], or the
    JSON of the response map under a status code; [ReplyPanic] is a
    nil event dereferenced. *)
Inductive Reply :=
| ReplyError (msg : string) (code : Z)
| ReplyJSON (code : Z) (response : list (string * generic))
| ReplyPanic.

(** The signature the receiver takes from the headers: that of
    [X-Webhook-Signature], and when it is empty that of
    [X-Hub-Signature-256]. *)
Definition request_signature (r : HTTPRequest) : string :=
  let signature := HeaderGet r "X-Webhook-Signature" in
  if String.eqb signature "" then HeaderGet r "X-Hub-Signature-256" else signature.

(** [func (s *Service) handleWebhookRequest(w, r)]; [now] is
    [time.Now().UTC().Format(time.RFC3339)]. *)
Definition handleWebhookRequest (s : WebhookServer) (now : string) (r : HTTPRequest)
  : Reply * list (WebhookEventType * WebhookEvent) :=
  if negb (String.eqb (ReqMethod r) "POST") then
    (ReplyError "Method not allowed" 405, [])
  else
    match ReqBody r with
    | Failed _ => (ReplyError "Error reading request body" 400, [])
    | Ok body =>
        let signature := request_signature r in
        let h := HandleWebhook s body signature in
        match handled_error h with
        | Some _ => (ReplyError "Error processing webhook" 400, handler_calls h)
        | None =>
            match handled_event h with
            | Some event =>
                (ReplyJSON 200 [("status", GString "success");
                                ("eventId", GString (ID event));
                                ("eventType", GString (Type_ event));
                                ("timestamp", GString now)],
                 handler_calls h)
            | None => (ReplyPanic, handler_calls h)
            end
        end
    end.

(** The typed handlers: the type assertion on [event.Data] succeeds
    for the payload struct of the handler alone. *)
Definition CreateMessageHandler (handler : den MessageReceivedData -> option string)
  : WebhookHandler :=
  Some (fun event =>
    match Data event with
    | Untyped _ => Some "invalid data type for message event"
    | Typed s d =>
        match s return den (shape_ty s) -> option string with
        | SReceived => fun data => handler data
        | _ => fun _ => Some "invalid data type for message event"
        end d
    end).

Definition CreateMessageStatusHandler (handler : den MessageStatusData -> option string)
  : WebhookHandler :=
  Some (fun event =>
    match Data event with
    | Untyped _ => Some "invalid data type for message status event"
    | Typed s d =>
        match s return den (shape_ty s) -> option string with
        | SStatus => fun data => handler data
        | _ => fun _ => Some "invalid data type for message status event"
        end d
    end).

Definition CreateContactHandler (handler : den ContactEventData -> option string)
  : WebhookHandler :=
  Some (fun event =>
    match Data event with
    | Untyped _ => Some "invalid data type for contact event"
    | Typed s d =>
        match s return den (shape_ty s) -> option string with
        | SContact => fun data => handler data
        | _ => fun _ => Some "invalid data type for contact event"
        end d
    end).

Definition CreateChatbotHandler (handler : den ChatbotEventData -> option string)
  : WebhookHandler :=
  Some (fun event =>
    match Data event with
    | Untyped _ => Some "invalid data type for chatbot event"
    | Typed s d =>
        match s return den (shape_ty s) -> option string with
        | SChatbot => fun data => handler data
        | _ => fun _ => Some "invalid data type for chatbot event"
        end d
    end).

Definition CreateChatStatusHandler (handler : den ChatStatusEventData -> option string)
  : WebhookHandler :=
  Some (fun event =>
    match Data event with
    | Untyped _ => Some "invalid data type for chat status event"
    | Typed s d =>
        match s return den (shape_ty s) -> option string with
        | SChatStatus => fun data => handler data
        | _ => fun _ => Some "invalid data type for chat status event"
        end d
    end).

(** [func (s *Service) RegisterMessageHandlers(...)], [None] for a
    nil function. *)
Definition RegisterMessageHandlers (s : WebhookServer)
    (onMessageReceived : option (den MessageReceivedData -> option string))
    (onMessageDelivered onMessageRead : option (den MessageStatusData -> option string))
  : WebhookServer :=
  let s1 :=
    match onMessageReceived with
    | Some h =>
        RegisterHandler
          (RegisterHandler s MessageReceived (CreateMessageHandler h))
          NewContactMessage (CreateMessageHandler h)
    | None => s
    end in
  let s2 :=
    match onMessageDelivered with
    | Some h => RegisterHandler s1 MessageDelivered (CreateMessageStatusHandler h)
    | None => s1
    end in
  match onMessageRead with
  | Some h => RegisterHandler s2 MessageRead (CreateMessageStatusHandler h)
  | None => s2
  end.

(** [func (s *Service) RegisterAllEventHandlers(handler)] *)
Definition RegisterAllEventHandlers (s : WebhookServer) (handler : WebhookHandler)
  : WebhookServer :=
  let events :=
    [ MessageReceived; NewContactMessage; SessionMessageSent; TemplateMessageSent;
      MessageDelivered; MessageRead; MessageReplied; TemplateMessageFailed;
      ContactCreated; ContactUpdated; ChatbotStarted; ChatbotStopped;
      ChatStatusChanged ] in
  fold_left (fun s eventType => RegisterHandler s eventType handler) events s.

End WebhookDispatch.

(** ** Text of integers and joined strings *)

Module Strconv.

(** [strconv.Itoa], and the verb [%d] of [fmt]. *)
Definition Itoa (z : Z) : string :=
  DecimalString.NilZero.string_of_int (Z.to_int z).

(** [strings.Join] *)
Fixpoint Join (elems : list string) (sep : string) : string :=
  match elems with
  | [] => ""
  | e :: rest =>
      match rest with
      | [] => e
      | _ => String.append e (String.append sep (Join rest sep))
      end
  end.

End Strconv.

(** ** Sending messages (messages/types.go, messages/service.go) *)

Module Messages.
Import Strconv.

Record Parameter_ := mkParameter {
  ParameterName : string;
  ParameterValue : string
}.

(** [type TemplateMessageRecipient struct] *)
Record TemplateMessageRecipient := mkRecipient {
  RecipientWhatsappNumber : string;
  RecipientParameters : list Parameter_
}.

(** [type SendTemplateMessagesRequest struct] *)
Record SendTemplateMessagesRequest := mkSendTemplateMessages {
  TemplateName : string;
  BroadcastName : string;
  Recipients : list TemplateMessageRecipient
}.

Record InteractiveButtonReply := mkReply {
  ReplyID : string;
  ReplyTitle : string
}.

Record InteractiveButton := mkButton {
  ButtonType : string;
  Reply : InteractiveButtonReply
}.

Record InteractiveHeader := mkHeader {
  HeaderType : string;
  HeaderText : string
}.

(** [type InteractiveButtonMessageRequest struct]; [BodyText] is
    [Body.Text], [Footer] the text behind the pointer, [Buttons] is
    [Action.Buttons]. *)
Record InteractiveButtonMessageRequest := mkButtonMessage {
  WhatsappNumber : string;
  Header : option InteractiveHeader;
  BodyText : string;
  Footer : option string;
  Buttons : list InteractiveButton
}.

(** The loop over the recipients, from index [i]. *)
Fixpoint check_recipients (i : Z) (recipients : list TemplateMessageRecipient)
  : option string :=
  match recipients with
  | [] => None
  | recipient :: rest =>
      if String.eqb (RecipientWhatsappNumber recipient) "" then
        Some (String.append "whatsappNumber is required for recipient " (Itoa i))
      else if (String.length (RecipientWhatsappNumber recipient) <? 10)%nat then
        Some (String.append "whatsappNumber must be at least 10 digits for recipient "
                            (Itoa i))
      else check_recipients (i + 1) rest
  end.

(** [func (r *SendTemplateMessagesRequest) Validate() error] *)
Definition SendTemplateMessagesRequest_Validate (r : SendTemplateMessagesRequest)
  : option string :=
  if String.eqb (TemplateName r) "" then Some "template_name is required"
  else if String.eqb (BroadcastName r) "" then Some "broadcast_name is required"
  else if Nat.eqb (List.length (Recipients r)) 0 then
    Some "at least one recipient is required"
  else if (100 <? List.length (Recipients r))%nat then
    Some (String.append "maximum 100 recipients allowed per request, got "
                        (Itoa (Z.of_nat (List.length (Recipients r)))))
  else check_recipients 0 (Recipients r).

(** The loop over the buttons, from index [i]. *)
Fixpoint check_buttons (i : Z) (buttons : list InteractiveButton) : option string :=
  match buttons with
  | [] => None
  | button :: rest =>
      if String.eqb (ReplyID (Reply button)) "" then
        Some (String.append "button ID is required for button " (Itoa i))
      else if String.eqb (ReplyTitle (Reply button)) "" then
        Some (String.append "button title is required for button " (Itoa i))
      else check_buttons (i + 1) rest
  end.

(** [func (r *InteractiveButtonMessageRequest) Validate() error] *)
Definition InteractiveButtonMessageRequest_Validate (r : InteractiveButtonMessageRequest)
  : option string :=
  if String.eqb (WhatsappNumber r) "" then Some "whatsappNumber is required"
  else if (String.length (WhatsappNumber r) <? 10)%nat then
    Some "whatsappNumber must be at least 10 digits"
  else if String.eqb (BodyText r) "" then Some "body text is required"
  else if Nat.eqb (List.length (Buttons r)) 0 then Some "at least one button is required"
  else if (3 <? List.length (Buttons r))%nat then
    Some (String.append "maximum 3 buttons allowed, got "
                        (Itoa (Z.of_nat (List.length (Buttons r)))))
  else check_buttons 0 (Buttons r).

(** A request the bulk validation lets through. *)
Definition deliverable (r : SendTemplateMessagesRequest) : Prop :=
  TemplateName r <> "" /\ BroadcastName r <> "" /\
  (1 <= List.length (Recipients r) <= 100)%nat /\
  Forall (fun recipient =>
            (10 <= String.length (RecipientWhatsappNumber recipient))%nat)
         (Recipients r).

(** Arguments of [SendQuickReplyButtons] that make a request the
    button validation lets through. *)
Definition quick_reply_ok (phone bodyText : string) (buttonTitles : list string) : Prop :=
  (1 <= List.length buttonTitles <= 3)%nat /\
  (10 <= String.length phone)%nat /\
  bodyText <> "" /\
  Forall (fun title => title <> "") buttonTitles.

(** The body of a call to the client. *)
Inductive Body :=
| BodyTemplateMessages (r : SendTemplateMessagesRequest)
| BodyButtonMessage (r : InteractiveButtonMessageRequest).

Record Call := mkCall {
  call_method : string;
  call_endpoint : string;
  call_body : Body
}.

Section Service.
(** The client of the service: what its [DoRequest] returns for a
    call whose result is a [MessageResponse], and for one whose
    result is a [BulkMessageResponse]. *)
Variables MessageResponse BulkMessageResponse ClientError : Type.
Variable DoMessage : Call -> Result MessageResponse ClientError.
Variable DoBulk : Call -> Result BulkMessageResponse ClientError.

Inductive SendError :=
| ErrRequestRequired             (* "request is required" *)
| ErrValidation (msg : string)   (* "validation error: ..." *)
| ErrButtonTitles (count : Z)    (* "must provide 1-3 button titles, got ..." *)
| ErrSending (e : ClientError).  (* "error sending ...: ..." *)

(** [func (s *Service) SendTemplateMessages(ctx, req)]: what is
    returned and the calls made to the client. *)
Definition SendTemplateMessages (req : option SendTemplateMessagesRequest)
  : Result BulkMessageResponse SendError * list Call :=
  match req with
  | None => (Failed ErrRequestRequired, [])
  | Some r =>
      match SendTemplateMessagesRequest_Validate r with
      | Some msg => (Failed (ErrValidation msg), [])
      | None =>
          let call := mkCall "POST" "/api/v1/sendTemplateMessages"
                             (BodyTemplateMessages r) in
          match DoBulk call with
          | Failed e => (Failed (ErrSending e), [call])
          | Ok response => (Ok response, [call])
          end
      end
  end.

(** [func (s *Service) SendInteractiveButtonMessage(ctx, req)] *)
Definition SendInteractiveButtonMessage (req : option InteractiveButtonMessageRequest)
  : Result MessageResponse SendError * list Call :=
  match req with
  | None => (Failed ErrRequestRequired, [])
  | Some r =>
      match InteractiveButtonMessageRequest_Validate r with
      | Some msg => (Failed (ErrValidation msg), [])
      | None =>
          let call := mkCall "POST" "/api/v1/sendInteractiveButtonMessage"
                             (BodyButtonMessage r) in
          match DoMessage call with
          | Failed e => (Failed (ErrSending e), [call])
          | Ok response => (Ok response, [call])
          end
      end
  end.

(** [func (s *Service) CreateSimpleButtonMessage(phone, bodyText, buttons)] *)
Definition CreateSimpleButtonMessage (phone bodyText : string)
    (buttons : list InteractiveButton) : InteractiveButtonMessageRequest :=
  mkButtonMessage phone None bodyText None buttons.

(** The loop of [SendQuickReplyButtons] over the titles, from index [i]. *)
Fixpoint quick_reply_buttons (i : Z) (buttonTitles : list string)
  : list InteractiveButton :=
  match buttonTitles with
  | [] => []
  | title :: rest =>
      mkButton "reply" (mkReply (String.append "btn_" (Itoa (i + 1))) title)
        :: quick_reply_buttons (i + 1) rest
  end.

(** [func (s *Service) SendQuickReplyButtons(ctx, phone, bodyText, buttonTitles)] *)
Definition SendQuickReplyButtons (phone bodyText : string) (buttonTitles : list string)
  : Result MessageResponse SendError * list Call :=
  if Nat.eqb (List.length buttonTitles) 0 || (3 <? List.length buttonTitles)%nat then
    (Failed (ErrButtonTitles (Z.of_nat (List.length buttonTitles))), [])
  else
    let buttons := quick_reply_buttons 0 buttonTitles in
    let req := CreateSimpleButtonMessage phone bodyText buttons in
    SendInteractiveButtonMessage (Some req).

End Service.
End Messages.

(** ** Contacts (contacts/service.go and its types) *)

Module Contacts.
Import Strconv.

Record CustomParam := mkCustomParam {
  CustomParamName : string;
  CustomParamValue : string
}.

(** [type CreateContactRequest struct] *)
Record CreateContactRequest := mkCreateContact {
  FirstName : string;
  LastName : string;
  Phone : string;
  Email : string;
  CustomParams : list CustomParam;
  Tags : list string;
  AllowBroadcast : bool;
  AllowSMS : bool
}.

(** [func (c *CreateContactRequest) Validate() error] *)
Definition CreateContactRequest_Validate (c : CreateContactRequest) : option string :=
  if String.eqb (FirstName c) "" then Some "firstName is required"
  else if String.eqb (Phone c) "" then Some "phone is required"
  else if (String.length (Phone c) <? 10)%nat then
    Some "phone number must be at least 10 digits"
  else None.

(** A contact the validation lets through. *)
Definition acceptable (c : CreateContactRequest) : Prop :=
  FirstName c <> "" /\ (10 <= String.length (Phone c))%nat.

(** [type GetContactsParams struct] *)
Record GetContactsParams := mkParams {
  PageSize : Z;
  PageNumber : Z;
  Name : string;
  Attribute : string;
  CreatedDate : string
}.

(** [func (p *GetContactsParams) SetDefaults()]: the parameters after
    the call. *)
Definition SetDefaults (p : GetContactsParams) : GetContactsParams :=
  mkParams (if PageSize p <=? 0 then 20 else PageSize p)
           (if PageNumber p <=? 0 then 1 else PageNumber p)
           (Name p) (Attribute p) (CreatedDate p).

(** [func (p *GetContactsParams) ToMap() map[string]string]: the
    entries of the map, in the order of the assignments. *)
Definition ToMap (p : GetContactsParams) : list (string * string) :=
  (if 0 <? PageSize p then [("pageSize", Itoa (PageSize p))] else [])
    ++ (if 0 <? PageNumber p then [("pageNumber", Itoa (PageNumber p))] else [])
    ++ (if negb (String.eqb (Name p) "") then [("name", Name p)] else [])
    ++ (if negb (String.eqb (Attribute p) "") then [("attribute", Attribute p)] else [])
    ++ (if negb (String.eqb (CreatedDate p) "") then [("createdDate", CreatedDate p)]
        else []).

Record BaseResponse := mkBaseResponse {
  Result_ : bool;
  Message : string;
  Error : string
}.

(** The loop of [AddContacts] over the contacts, from index [i]: the
    first contact that fails validation, with its error. *)
Fixpoint validate_contacts (i : Z) (contacts : list CreateContactRequest)
  : option (Z * string) :=
  match contacts with
  | [] => None
  | contact :: rest =>
      match CreateContactRequest_Validate contact with
      | Some err => Some (i, err)
      | None => validate_contacts (i + 1) rest
      end
  end.

Inductive AddError (ClientError : Type) :=
| ErrNoContacts                               (* "at least one contact is required" *)
| ErrContactValidation (i : Z) (msg : string) (* "validation error for contact i: ..." *)
| ErrTooManyContacts (count : Z)              (* "maximum 100 contacts allowed ..." *)
| ErrAdding (e : ClientError).                (* "error adding contacts: ..." *)
Arguments ErrNoContacts {ClientError}.
Arguments ErrContactValidation {ClientError} i msg.
Arguments ErrTooManyContacts {ClientError} count.
Arguments ErrAdding {ClientError} e.

Section Bulk.
(** The client of the service for [AddContacts]: what its [DoRequest]
    returns for the body [struct { Contacts }]; the requests of the
    slice are not nil. *)
Variables BulkContactResponse ClientError : Type.
Variable DoRequest :
  string -> string -> list CreateContactRequest -> Result BulkContactResponse ClientError.

(** [func (s *Service) AddContacts(ctx, contacts)]: what is returned,
    and the bodies posted. *)
Definition AddContacts (contacts : list CreateContactRequest)
  : Result BulkContactResponse (AddError ClientError) * list (list CreateContactRequest) :=
  if Nat.eqb (List.length contacts) 0 then (Failed ErrNoContacts, [])
  else
    match validate_contacts 0 contacts with
    | Some (i, err) => (Failed (ErrContactValidation i err), [])
    | None =>
        if (100 <? List.length contacts)%nat then
          (Failed (ErrTooManyContacts (Z.of_nat (List.length contacts))), [])
        else
          match DoRequest "POST" "/api/v1/addContacts" contacts with
          | Failed e => (Failed (ErrAdding e), [contacts])
          | Ok response => (Ok response, [contacts])
          end
    end.
End Bulk.

Inductive ListError (ClientError : Type) :=
| ErrGettingContacts (e : ClientError)                 (* "error getting contacts: ..." *)
| ErrGettingPage (page : Z) (e : ListError ClientError).
                                        (* "error getting contacts page n: ..." *)
Arguments ErrGettingContacts {ClientError} e.
Arguments ErrGettingPage {ClientError} page e.

(** [type ContactsResponse struct]: the base response, the
    pagination and the contacts. *)
Record ContactsResponse (Contact : Type) := mkContactsResponse {
  Base : BaseResponse;
  Page : Z;
  RespPageSize : Z;
  TotalPages : Z;
  TotalCount : Z;
  Contacts : list Contact
}.
Arguments mkContactsResponse {Contact}.
Arguments Base {Contact}.
Arguments Page {Contact}.
Arguments RespPageSize {Contact}.
Arguments TotalPages {Contact}.
Arguments TotalCount {Contact}.
Arguments Contacts {Contact}.

Section Listing.
(** The contacts as the client decodes them, the order in which
    [range] visits the entries of the parameter map, and what the
    client returns for a GET of an endpoint. *)
Variables Contact ClientError : Type.
Variable visit : list (string * string) -> list (string * string).
Variable DoRequest : string -> string -> Result (ContactsResponse Contact) ClientError.

(** The endpoint with its query, as [GetContacts] builds it. *)
Definition with_query (endpoint : string) (queryParams : list (string * string)) : string :=
  if (0 <? List.length queryParams)%nat then
    String.append endpoint
      (String.append "?"
         (Join (map (fun kv => String.append (fst kv) (String.append "=" (snd kv)))
                    (visit queryParams)) "&"))
  else endpoint.

(** [func (s *Service) GetContacts(ctx, params)]: what is returned
    and the endpoints requested. *)
Definition GetContacts (params : option GetContactsParams)
  : Result (ContactsResponse Contact) (ListError ClientError) * list string :=
  let params := match params with Some p => p | None => mkParams 0 0 "" "" "" end in
  let params := SetDefaults params in
  let endpoint := with_query "/api/v1/getContacts" (ToMap params) in
  match DoRequest "GET" endpoint with
  | Failed e => (Failed (ErrGettingContacts e), [endpoint])
  | Ok response => (Ok response, [endpoint])
  end.

(** [func (s *Service) GetContactsByPage(ctx, page, pageSize)] *)
Definition GetContactsByPage (page pageSize : Z)
  : Result (ContactsResponse Contact) (ListError ClientError) * list string :=
  GetContacts (Some (mkParams pageSize page "" "" "")).

(** The endpoint of a page of fifty contacts. *)
Definition page_endpoint (page : Z) : string :=
  with_query "/api/v1/getContacts" [("pageSize", Itoa 50); ("pageNumber", Itoa page)].

(** The [for] loop of [GetAllContacts] from [page] with the contacts
    gathered so far; the fuel bounds the number of iterations, [None]
    is a loop that has not returned within it. *)
Fixpoint all_contacts_loop (fuel : nat) (page : Z) (allContacts : list Contact)
  : option (Result (list Contact) (ListError ClientError)) * list string :=
  match fuel with
  | O => (None, [])
  | S fuel' =>
      match GetContactsByPage page 50 with
      | (Failed e, calls) => (Some (Failed (ErrGettingPage page e)), calls)
      | (Ok response, calls) =>
          let allContacts := allContacts ++ Contacts response in
          if (page >=? TotalPages response)
             || Nat.eqb (List.length (Contacts response)) 0
          then (Some (Ok allContacts), calls)
          else
            let (res, calls') := all_contacts_loop fuel' (page + 1) allContacts in
            (res, calls ++ calls')
      end
  end.

(** [func (s *Service) GetAllContacts(ctx)] *)
Definition GetAllContacts (fuel : nat)
  : option (Result (list Contact) (ListError ClientError)) * list string :=
  all_contacts_loop fuel 1 [].

End Listing.

(** The pages [a], [a + 1], ... of a run, [cnt] of them. *)
Fixpoint pages (a : Z) (cnt : nat) : list Z :=
  match cnt with
  | O => []
  | S c => a :: pages (a + 1) c
  end.

End Contacts.

(** ** Media files (media/service.go and its types) *)

Module Media.
Import Strconv.

Definition MediaType := string.

Definition MediaTypeImage : MediaType := "image".
Definition MediaTypeVideo : MediaType := "video".
Definition MediaTypeAudio : MediaType := "audio".
Definition MediaTypeDocument : MediaType := "document".
Definition MediaTypeSticker : MediaType := "sticker".

Definition MediaStatusUploading : string := "uploading".
Definition MediaStatusProcessing : string := "processing".
Definition MediaStatusReady : string := "ready".
Definition MediaStatusFailed : string := "failed".
Definition MediaStatusDeleted : string := "deleted".

(** [var SupportedMimeTypes = map[MediaType][]string{...}]: the
    entries of the literal. *)
Definition SupportedMimeTypes : list (MediaType * list string) :=
  [ (MediaTypeImage, ["image/jpeg"; "image/png"; "image/webp"; "image/gif"]);
    (MediaTypeVideo, ["video/mp4"; "video/3gpp"; "video/quicktime"; "video/avi";
                      "video/mkv"]);
    (MediaTypeAudio, ["audio/aac"; "audio/mp4"; "audio/mpeg"; "audio/amr"; "audio/ogg";
                      "audio/opus"]);
    (MediaTypeDocument,
     ["application/pdf"; "application/vnd.ms-powerpoint"; "application/msword";
      "application/vnd.ms-excel";
      "application/vnd.openxmlformats-officedocument.wordprocessingml.document";
      "application/vnd.openxmlformats-officedocument.presentationml.presentation";
      "application/vnd.openxmlformats-officedocument.spreadsheetml.sheet";
      "text/plain"; "text/csv"]) ].

(** [var MaxFileSizes = map[MediaType]int64{...}] *)
Definition MaxFileSizes : list (MediaType * Z) :=
  [ (MediaTypeImage, 5 * 1024 * 1024);
    (MediaTypeVideo, 16 * 1024 * 1024);
    (MediaTypeAudio, 16 * 1024 * 1024);
    (MediaTypeDocument, 100 * 1024 * 1024);
    (MediaTypeSticker, 500 * 1024) ].

(** [func IsValidMediaType(mediaType MediaType) bool] *)
Definition IsValidMediaType (mediaType : MediaType) : bool :=
  match Json.assoc mediaType SupportedMimeTypes with
  | Some _ => true
  | None => false
  end.

(** [func IsSupportedMimeType(mediaType MediaType, mimeType string) bool] *)
Definition IsSupportedMimeType (mediaType : MediaType) (mimeType : string) : bool :=
  match Json.assoc mediaType SupportedMimeTypes with
  | None => false
  | Some supportedTypes =>
      existsb (fun supportedType => String.eqb supportedType mimeType) supportedTypes
  end.

(** [func GetMaxFileSize(mediaType MediaType) int64] *)
Definition GetMaxFileSize (mediaType : MediaType) : Z :=
  match Json.assoc mediaType MaxFileSizes with
  | Some maxSize => maxSize
  | None => 5 * 1024 * 1024
  end.

(** [func ValidateFileSize(mediaType MediaType, size int64) error] *)
Definition ValidateFileSize (mediaType : MediaType) (size : Z) : option string :=
  let maxSize := GetMaxFileSize mediaType in
  if maxSize <? size then
    Some (String.append "file size "
            (String.append (Itoa size)
               (String.append " bytes exceeds maximum allowed size "
                  (String.append (Itoa maxSize)
                     (String.append " bytes for media type " mediaType)))))
  else None.

(** The two nested loops of [GetMediaTypeFromMimeType] over the
    entries of the map in the order [visited]: the first media type
    whose list holds the MIME type. *)
Fixpoint first_holder (visited : list (MediaType * list string)) (mimeType : string)
  : option MediaType :=
  match visited with
  | [] => None
  | (mediaType, supportedTypes) :: rest =>
      if existsb (fun supportedType => String.eqb supportedType mimeType) supportedTypes
      then Some mediaType
      else first_holder rest mimeType
  end.

(** [func GetMediaTypeFromMimeType(mimeType string) MediaType], for
    the order [visited] in which [range] goes through the map. *)
Definition GetMediaTypeFromMimeType (visited : list (MediaType * list string))
    (mimeType : string) : MediaType :=
  match first_holder visited mimeType with
  | Some mediaType => mediaType
  | None => MediaTypeDocument
  end.

(** [type UploadRequest struct]; the reader is held as the bytes it
    delivers, [None] is a nil reader. *)
Record UploadRequest := mkUploadRequest {
  File : option string;
  FileName : string;
  UploadMediaType : string;
  Caption : string;
  Description : string
}.

(** [func (r *UploadRequest) Validate() error] *)
Definition UploadRequest_Validate (r : UploadRequest) : option string :=
  match File r with
  | None => Some "file is required"
  | Some _ =>
      if String.eqb (FileName r) "" then Some "fileName is required"
      else if String.eqb (UploadMediaType r) "" then Some "mediaType is required"
      else if negb (IsValidMediaType (UploadMediaType r)) then
        Some (String.append "unsupported media type: " (UploadMediaType r))
      else None
  end.

(** [func (s *Service) ValidateUpload(fileName, size, mimeType) error] *)
Definition ValidateUpload (visited : list (MediaType * list string))
    (fileName : string) (size : Z) (mimeType : string) : option string :=
  if String.eqb fileName "" then Some "fileName is required"
  else
    let mediaType := GetMediaTypeFromMimeType visited mimeType in
    if negb (IsSupportedMimeType mediaType mimeType) then
      Some (String.append "unsupported MIME type: " mimeType)
    else
      match ValidateFileSize mediaType size with
      | Some err => Some err
      | None => None
      end.

Section Extensions.
(** [strings.ToLower] *)
Variable ToLower : string -> string.

(** The [mimeTypes] map literal of [GetMimeTypeFromExtension]. *)
Definition mimeTypes : list (string * string) :=
  [ (".jpg", "image/jpeg"); (".jpeg", "image/jpeg"); (".png", "image/png");
    (".gif", "image/gif"); (".webp", "image/webp"); (".mp4", "video/mp4");
    (".mov", "video/quicktime"); (".avi", "video/avi"); (".mkv", "video/mkv");
    (".mp3", "audio/mpeg"); (".aac", "audio/aac"); (".ogg", "audio/ogg");
    (".opus", "audio/opus"); (".pdf", "application/pdf"); (".doc", "application/msword");
    (".docx", "application/vnd.openxmlformats-officedocument.wordprocessingml.document");
    (".xls", "application/vnd.ms-excel");
    (".xlsx", "application/vnd.openxmlformats-officedocument.spreadsheetml.sheet");
    (".ppt", "application/vnd.ms-powerpoint");
    (".pptx", "application/vnd.openxmlformats-officedocument.presentationml.presentation");
    (".txt", "text/plain"); (".csv", "text/csv") ].

(** [func GetMimeTypeFromExtension(extension string) string] *)
Definition GetMimeTypeFromExtension (extension : string) : string :=
  let extension := ToLower extension in
  match Json.assoc extension mimeTypes with
  | Some mimeType => mimeType
  | None => "application/octet-stream"
  end.
End Extensions.

(** [type MediaFile struct]; the times as their text. *)
Record MediaFile := mkMediaFile {
  ID : string;
  MediaFileName : string;
  OriginalName : string;
  MimeType : string;
  Size : Z;
  URL : string;
  ThumbnailURL : string;
  Duration : Z;
  Width : Z;
  Height : Z;
  MediaCaption : string;
  CreatedAt : string;
  UpdatedAt : string;
  Status : string;
  UploadedBy : string
}.

(** [func (m *MediaFile) IsReady() bool] *)
Definition IsReady (m : MediaFile) : bool := String.eqb (Status m) MediaStatusReady.

(** [func (m *MediaFile) IsProcessing() bool] *)
Definition IsProcessing (m : MediaFile) : bool :=
  String.eqb (Status m) MediaStatusProcessing || String.eqb (Status m) MediaStatusUploading.

Inductive WaitError (ClientError : Type) :=
| ErrMediaInfo (e : ClientError)   (* the error of GetMediaInfo *)
| ErrProcessingFailed              (* "media processing failed for file: ..." *)
| ErrCancelled (e : string)        (* ctx.Err() *)
| ErrTimeout.                      (* "timeout waiting for media to be ready: ..." *)
Arguments ErrMediaInfo {ClientError} e.
Arguments ErrProcessingFailed {ClientError}.
Arguments ErrCancelled {ClientError} e.
Arguments ErrTimeout {ClientError}.

(** What the wait does: it asks for the file, and it lets a second
    pass. *)
Inductive WaitEvent :=
| EvPoll (i : Z)
| EvSecond.

Section Waiting.
(** What [GetMediaInfo] returns at the poll of iteration [i], whether
    the cancellation wins the [select] of that iteration, and
    [ctx.Err()]. *)
Variable ClientError : Type.
Variable GetMediaInfo : Z -> Result MediaFile ClientError.
Variable ctxDone : Z -> bool.
Variable ctxErr : string.

(** [for i := 0; i < maxWaitSeconds; i++], with [remaining]
    iterations to go from [i]. *)
Fixpoint wait_loop (remaining : nat) (i : Z)
  : Result MediaFile (WaitError ClientError) * list WaitEvent :=
  match remaining with
  | O => (Failed ErrTimeout, [])
  | S remaining' =>
      match GetMediaInfo i with
      | Failed e => (Failed (ErrMediaInfo e), [EvPoll i])
      | Ok media =>
          if IsReady media then (Ok media, [EvPoll i])
          else if String.eqb (Status media) MediaStatusFailed then
            (Failed ErrProcessingFailed, [EvPoll i])
          else if ctxDone i then (Failed (ErrCancelled ctxErr), [EvPoll i])
          else
            let (res, tr) := wait_loop remaining' (i + 1) in
            (res, EvPoll i :: EvSecond :: tr)
      end
  end.

(** [func (s *Service) WaitForMediaReady(ctx, fileName, maxWaitSeconds)] *)
Definition WaitForMediaReady (maxWaitSeconds : Z)
  : Result MediaFile (WaitError ClientError) * list WaitEvent :=
  wait_loop (Z.to_nat maxWaitSeconds) 0.
End Waiting.

Fixpoint polls (tr : list WaitEvent) : Z :=
  match tr with
  | [] => 0
  | EvPoll _ :: r => 1 + polls r
  | EvSecond :: r => polls r
  end.

Fixpoint seconds (tr : list WaitEvent) : Z :=
  match tr with
  | [] => 0
  | EvPoll _ :: r => seconds r
  | EvSecond :: r => 1 + seconds r
  end.

End Media.

(** ** Keywords of a chatbot (chatbots/service.go) *)

Module Chatbots.

(** The methods below read and write the [Keywords] slice of the
    chatbot and nothing else; they are given on that slice. *)

(** [func (c *Chatbot) HasKeyword(keyword string) bool] *)
Fixpoint HasKeyword (Keywords : list string) (keyword : string) : bool :=
  match Keywords with
  | [] => false
  | k :: rest => if String.eqb k keyword then true else HasKeyword rest keyword
  end.

(** [func (c *Chatbot) AddKeyword(keyword string)]: the slice after
    the call. *)
Definition AddKeyword (Keywords : list string) (keyword : string) : list string :=
  if negb (HasKeyword Keywords keyword) then Keywords ++ [keyword] else Keywords.

(** [func (c *Chatbot) RemoveKeyword(keyword string)]: the slice
    without the first element equal to the keyword. *)
Fixpoint RemoveKeyword (Keywords : list string) (keyword : string) : list string :=
  match Keywords with
  | [] => []
  | k :: rest => if String.eqb k keyword then rest else k :: RemoveKeyword rest keyword
  end.

End Chatbots.

(** ** Validation errors (package wati, errors) *)

Module Validation.
Import Strconv.

(** [type ValidationError struct { Field string; Message string }] *)
Record ValidationError := mkValidationError {
  Field : string;
  Message : string
}.

(** [func (e *ValidationError) Error() string] *)
Definition ValidationError_Error (e : ValidationError) : string :=
  String.append "Validation error for field '"
    (String.append (Field e) (String.append "': " (Message e))).

(** [type MultiValidationError struct { Errors []ValidationError }] *)
Record MultiValidationError := mkMultiValidationError {
  Errors : list ValidationError
}.

(** [func (e *MultiValidationError) Error() string]: the message of
    [e.Errors[0]] when the length is 1. *)
Definition MultiValidationError_Error (e : MultiValidationError) : string :=
  match Errors e with
  | [first] => ValidationError_Error first
  | _ =>
      String.append "Multiple validation errors: "
        (String.append (Itoa (Z.of_nat (List.length (Errors e)))) " errors")
  end.

(** [func (e *MultiValidationError) Add(field, message string)]: the
    collection after the call. *)
Definition Add (e : MultiValidationError) (field message : string) : MultiValidationError :=
  mkMultiValidationError (Errors e ++ [mkValidationError field message]).

(** [func (e *MultiValidationError) HasErrors() bool] *)
Definition HasErrors (e : MultiValidationError) : bool :=
  (0 <? List.length (Errors e))%nat.

(** The collection after a series of [Add] calls on an empty one. *)
Definition collect (adds : list (string * string)) : MultiValidationError :=
  fold_left (fun e fm => Add e (fst fm) (snd fm)) adds (mkMultiValidationError []).

End Validation.
(** * Properties *)

(** ** Test vectors of the hash functions *)

Example sha256_abc :
  Crypto.hex_encode (Crypto.sha256 (Bytes.bytes_of_string "abc"))
  = "ba7816bf8f01cfea414140de5dae2223b00361a396177a9cb410ff61f20015ad".
Proof. vm_compute. reflexivity. Qed.

Example hmac_fox :
  Signature.expectedSignature "The quick brown fox jumps over the lazy dog" "key"
  = "f7bc83f430538424b13298e6aa6fb143ef4d59a14946175997479dbc2d1a3cd8".
Proof. vm_compute. reflexivity. Qed.

(** ** Error classification *)

Section Classification.
Import Errors.

Lemma errorTypeOf_server (c : Z) : c >= 500 -> errorTypeOf c = "server_error".
Proof.
  intros H. unfold errorTypeOf, StatusBadRequest, StatusUnauthorized,
    StatusForbidden, StatusNotFound, StatusMethodNotAllowed,
    StatusTooManyRequests, StatusInternalServerError.
  repeat match goal with
         | |- context [?a =? ?b] => destruct (Z.eqb_spec a b); try lia; try reflexivity
         end.
  destruct (Z.geb_spec c 500); [reflexivity | lia].
Qed.

Lemma errorTypeOf_client (c : Z) :
  400 <= c < 500 ->
  c <> 400 -> c <> 401 -> c <> 403 -> c <> 404 -> c <> 405 -> c <> 429 ->
  errorTypeOf c = "client_error".
Proof.
  intros H H0 H1 H3 H4 H5 H29.
  unfold errorTypeOf, StatusBadRequest, StatusUnauthorized,
    StatusForbidden, StatusNotFound, StatusMethodNotAllowed,
    StatusTooManyRequests, StatusInternalServerError.
  repeat match goal with
         | |- context [?a =? ?b] => destruct (Z.eqb_spec a b); try lia
         end.
  destruct (Z.geb_spec c 500); [lia |].
  destruct (Z.geb_spec c 400); [reflexivity | lia].
Qed.

Lemma IsRetryable_iff (e : WATIError) :
  IsRetryable e = true <-> Code e = 429 \/ Code e >= 500.
Proof.
  unfold IsRetryable. rewrite orb_true_iff, Z.eqb_eq, Z.geb_le. lia.
Qed.
End Classification.

(** C1: the category of a classified error is the entry of the fixed
    table for its status code (400 bad_request, 401 authentication,
    403 authorization, 404 not_found, 405 method_not_allowed,
    429 rate_limit, 500 and every other code from 500 on server_error,
    every other code from 400 on client_error), it depends on the
    status code only, and the error is retryable exactly when the code
    is 429 or at least 500. *)
Theorem C1_classification (c : Z) (m : string) :
  Errors.Code (Errors.NewWATIError c m) = c /\
  Errors.Type_ (Errors.NewWATIError c m) = Errors.errorTypeOf c /\
  (c = 400 -> Errors.errorTypeOf c = "bad_request") /\
  (c = 401 -> Errors.errorTypeOf c = "authentication") /\
  (c = 403 -> Errors.errorTypeOf c = "authorization") /\
  (c = 404 -> Errors.errorTypeOf c = "not_found") /\
  (c = 405 -> Errors.errorTypeOf c = "method_not_allowed") /\
  (c = 429 -> Errors.errorTypeOf c = "rate_limit") /\
  (c >= 500 -> Errors.errorTypeOf c = "server_error") /\
  (400 <= c < 500 -> c <> 400 -> c <> 401 -> c <> 403 -> c <> 404 ->
   c <> 405 -> c <> 429 -> Errors.errorTypeOf c = "client_error") /\
  (Errors.IsRetryable (Errors.NewWATIError c m) = true <-> c = 429 \/ c >= 500).
Proof.
  repeat split; try (intros ->; reflexivity).
  - apply errorTypeOf_server.
  - apply errorTypeOf_client.
  - intros H. apply IsRetryable_iff in H. exact H.
  - intros H. apply IsRetryable_iff. exact H.
Qed.

Lemma C1_classification_witness :
  Errors.Type_ (Errors.NewWATIError 503 "unavailable") = "server_error" /\
  Errors.Type_ (Errors.NewWATIError 418 "teapot") = "client_error" /\
  Errors.IsRetryable (Errors.NewWATIError 429 "slow down") = true.
Proof.
  split; [| split].
  - destruct (C1_classification 503 "unavailable") as (_ & -> & _ & _ & _ & _ & _ & _ & H & _).
    apply H. lia.
  - destruct (C1_classification 418 "teapot") as (_ & -> & _ & _ & _ & _ & _ & _ & _ & H & _).
    apply H; lia.
  - destruct (C1_classification 429 "slow down") as (_ & _ & _ & _ & _ & _ & _ & _ & _ & _ & H).
    apply H. left. reflexivity.
Defined.

(** ** Registration of a webhook *)

Section RegistrationFacts.
Import Webhooks WebhookService.

Lemma validEvents_In (e : WebhookEventType) :
  validEvents e = true <-> In e knownEvents.
Proof.
  unfold validEvents. rewrite existsb_exists. split.
  - intros (x & Hx & He). apply String.eqb_eq in He. subst. exact Hx.
  - intros H. exists e. split; [exact H | apply String.eqb_refl].
Qed.

Lemma first_invalid_None (l : list WebhookEventType) :
  first_invalid l = None <-> Forall (fun e => In e knownEvents) l.
Proof.
  induction l as [| e l IH]; simpl.
  - split; [constructor | reflexivity].
  - destruct (validEvents e) eqn:He; simpl.
    + rewrite IH. split.
      * intros H. constructor; [apply validEvents_In; exact He | exact H].
      * intros H. inversion H; assumption.
    + split; [discriminate |].
      intros H. inversion H as [| ? ? Hin _]; subst.
      apply validEvents_In in Hin. congruence.
Qed.

(** A registration passes [Validate] exactly when its URL is not
    empty, it names at least one event, and all its events are among
    the thirteen. *)
Lemma Validate_None (r : WebhookRegistration) :
  Validate r = None <->
  URL r <> "" /\ Events r <> [] /\ Forall (fun e => In e knownEvents) (Events r).
Proof.
  unfold Validate.
  destruct (String.eqb_spec (URL r) "") as [Hu | Hu].
  { split; [discriminate | intros (H & _); contradiction]. }
  destruct (Events r) as [| e l] eqn:Hev; cbn [List.length Nat.eqb].
  { split; [discriminate | intros (_ & H & _); contradiction]. }
  destruct (first_invalid (e :: l)) eqn:Hf.
  - split; [discriminate |]. intros (_ & _ & H).
    apply first_invalid_None in H. congruence.
  - split; [| reflexivity]. intros _. repeat split; try assumption; try discriminate.
    apply first_invalid_None. exact Hf.
Qed.
End RegistrationFacts.

(** C9: registering a webhook whose configuration fails validation (nil
    configuration, empty URL, no event, or an event type outside the
    thirteen known kinds) returns the configuration or validation error
    and makes no call to the request executor. *)
Theorem C9_validation_before_network
    (ClientError : Type) (DoRequest : WebhookService.Call -> option ClientError)
    (config : option WebhookService.WebhookRegistration) :
  WebhookService.invalid_registration config ->
  snd (WebhookService.RegisterWebhookWithConfig ClientError DoRequest config) = [] /\
  (fst (WebhookService.RegisterWebhookWithConfig ClientError DoRequest config)
     = Some (WebhookService.ErrConfigRequired ClientError) \/
   exists msg,
     fst (WebhookService.RegisterWebhookWithConfig ClientError DoRequest config)
     = Some (WebhookService.ErrValidation ClientError msg)).
Proof.
  intros Hinv. unfold WebhookService.RegisterWebhookWithConfig.
  destruct config as [cfg |]; simpl in *.
  - destruct (WebhookService.Validate cfg) as [msg |] eqn:Hv; simpl.
    + split; [reflexivity | right; exists msg; reflexivity].
    + exfalso. apply Validate_None in Hv. destruct Hv as (Hu & He & Hall).
      destruct Hinv as [H | [H | (e & Hin & Hn)]]; try contradiction.
      rewrite Forall_forall in Hall. apply Hn, Hall, Hin.
  - split; [reflexivity | left; reflexivity].
Qed.

Lemma C9_validation_before_network_witness :
  snd (WebhookService.RegisterWebhookWithConfig unit (fun _ => None)
         (Some (WebhookService.mkRegistration "https://example.org/hook"
                  ["message_received"; "message_seen"] "" ""))) = [].
Proof.
  apply (C9_validation_before_network unit (fun _ => None)
           (Some (WebhookService.mkRegistration "https://example.org/hook"
                    ["message_received"; "message_seen"] "" ""))).
  simpl. right. right. exists "message_seen". split.
  - right. left. reflexivity.
  - intros H. cbv in H. intuition discriminate.
Defined.

(** A valid registration is sent, once. *)
Lemma register_valid_calls_once
    (ClientError : Type) (DoRequest : WebhookService.Call -> option ClientError)
    (cfg : WebhookService.WebhookRegistration) :
  WebhookService.Validate cfg = None ->
  snd (WebhookService.RegisterWebhookWithConfig ClientError DoRequest (Some cfg))
  = [WebhookService.mkCall "POST" "/api/v1/webhooks" (Some cfg)].
Proof.
  intros Hv. unfold WebhookService.RegisterWebhookWithConfig. rewrite Hv.
  destruct (DoRequest _); reflexivity.
Qed.

(** ** The webhook server state machine *)

Section ServerFacts.
Import WebhookService.

Lemma Start_running (s : WebhookServer) (port : Z) (handlers : option HandlerMap) :
  IsRunning s = true ->
  StartWebhookServer s port handlers = (Some "webhook server is already running", s).
Proof. intros H. unfold StartWebhookServer. rewrite H. reflexivity. Qed.

Lemma Start_stopped (s : WebhookServer) (port : Z) (handlers : option HandlerMap) :
  IsRunning s = false ->
  exists s',
    StartWebhookServer s port handlers = (None, s') /\
    IsRunning s' = true /\ Port s' = port /\ Secret s' = Secret s /\
    server s' = Some (mkHTTPServer port 30 30 60) /\
    Handlers s' = match handlers with Some h => h | None => Handlers s end.
Proof.
  intros H. unfold StartWebhookServer. rewrite H.
  eexists. split; [reflexivity |]. simpl. repeat split.
Qed.

Lemma Stop_stopped (s : WebhookServer) (shutdown : option string) :
  IsRunning s = false ->
  StopWebhookServer s shutdown = (Some "webhook server is not running", s).
Proof. intros H. unfold StopWebhookServer. rewrite H. reflexivity. Qed.

Lemma Stop_running_ok (s : WebhookServer) :
  IsRunning s = true ->
  exists s',
    StopWebhookServer s None = (None, s') /\
    IsRunning s' = false /\ Port s' = Port s /\ Handlers s' = Handlers s /\
    Secret s' = Secret s.
Proof.
  intros H. unfold StopWebhookServer. rewrite H. simpl.
  eexists. split; [reflexivity |]. simpl. repeat split.
Qed.

Lemma Stop_running_shutdown_error (s : WebhookServer) (e : string) :
  IsRunning s = true ->
  StopWebhookServer s (Some e)
  = (Some (String.append "error stopping webhook server: " e), s).
Proof. intros H. unfold StopWebhookServer. rewrite H. reflexivity. Qed.

(** A server that is running has its [http.Server], whatever was
    done to the service since [NewService]. *)
Lemma step_invariant (s : WebhookServer) (op : Op) :
  (IsRunning s = true -> server s <> None) ->
  IsRunning (step s op) = true -> server (step s op) <> None.
Proof.
  intros Inv. destruct op as [port hs | sd | t h | t | sec]; simpl.
  - unfold StartWebhookServer. destruct (IsRunning s) eqn:R; simpl.
    + intros _. apply Inv. reflexivity.
    + intros _. discriminate.
  - unfold StopWebhookServer. destruct (IsRunning s) eqn:R; simpl.
    + destruct sd; simpl; [intros _; apply Inv; reflexivity | discriminate].
    + rewrite R. discriminate.
  - exact Inv.
  - exact Inv.
  - exact Inv.
Qed.

Lemma run_invariant_from (ops : list Op) (s : WebhookServer) :
  (IsRunning s = true -> server s <> None) ->
  IsRunning (fold_left step ops s) = true -> server (fold_left step ops s) <> None.
Proof.
  revert s. induction ops as [| op ops IH]; intros s Inv; simpl.
  - exact Inv.
  - apply IH. apply step_invariant. exact Inv.
Qed.
End ServerFacts.

(** C8 as stated fails: a running server whose graceful shutdown
    returns an error is still Running after [StopWebhookServer], and
    the error is not the "not running" one. *)
Lemma C8_stop_can_leave_running :
  ~ (forall (s : WebhookService.WebhookServer) (shutdown : option string),
        WebhookService.IsRunning s = true ->
        WebhookService.IsRunning
          (snd (WebhookService.StopWebhookServer s shutdown)) = false).
Proof.
  intros H.
  specialize (H (snd (WebhookService.StartWebhookServer WebhookService.NewService 8080 None))
                (Some "context deadline exceeded") eq_refl).
  discriminate H.
Qed.

(** C8, amended: the server is Stopped or Running.  Start on a Running
    server fails with "already running" and changes nothing; on a
    Stopped one it installs the handler map when one is given (a nil
    map keeps the registered handlers), sets the port and becomes
    Running.  Stop on a Stopped server fails with "not running" and
    changes nothing; on a Running one it becomes Stopped when the
    graceful shutdown succeeds, and returns the shutdown error and
    stays Running when it does not.  After any sequence of operations
    from a new service, a Running server has its listener. *)
Theorem C8_server_state_machine
    (s : WebhookService.WebhookServer) (port : Z)
    (handlers : option WebhookService.HandlerMap) (e : string) :
  (WebhookService.IsRunning s = true ->
     WebhookService.StartWebhookServer s port handlers
     = (Some "webhook server is already running", s)) /\
  (WebhookService.IsRunning s = false ->
     exists s',
       WebhookService.StartWebhookServer s port handlers = (None, s') /\
       WebhookService.IsRunning s' = true /\
       WebhookService.Port s' = port /\
       WebhookService.Handlers s'
       = match handlers with Some h => h | None => WebhookService.Handlers s end /\
       WebhookService.StartWebhookServer s' port handlers
       = (Some "webhook server is already running", s')) /\
  (WebhookService.IsRunning s = false ->
     forall shutdown,
       WebhookService.StopWebhookServer s shutdown
       = (Some "webhook server is not running", s)) /\
  (WebhookService.IsRunning s = true ->
     exists s',
       WebhookService.StopWebhookServer s None = (None, s') /\
       WebhookService.IsRunning s' = false /\
       WebhookService.Handlers s' = WebhookService.Handlers s /\
       forall shutdown,
         WebhookService.StopWebhookServer s' shutdown
         = (Some "webhook server is not running", s')) /\
  (WebhookService.IsRunning s = true ->
     WebhookService.StopWebhookServer s (Some e)
     = (Some (String.append "error stopping webhook server: " e), s)) /\
  (forall ops,
     WebhookService.IsRunning (WebhookService.run ops) = true ->
     WebhookService.server (WebhookService.run ops) <> None).
Proof.
  repeat split.
  - apply Start_running.
  - intros H. destruct (Start_stopped s port handlers H) as (s' & E & R & P & _ & _ & Hh).
    exists s'. repeat split; try assumption. apply Start_running. exact R.
  - intros H shutdown. apply Stop_stopped. exact H.
  - intros H. destruct (Stop_running_ok s H) as (s' & E & R & _ & Hh & _).
    exists s'. repeat split; try assumption.
    intros shutdown. apply Stop_stopped. exact R.
  - apply Stop_running_shutdown_error.
  - intros ops. apply run_invariant_from. discriminate.
Qed.

Lemma C8_server_state_machine_witness :
  WebhookService.StartWebhookServer
    (snd (WebhookService.StartWebhookServer WebhookService.NewService 8080 None))
    8081 None
  = (Some "webhook server is already running",
     snd (WebhookService.StartWebhookServer WebhookService.NewService 8080 None)) /\
  (forall shutdown,
     WebhookService.StopWebhookServer WebhookService.NewService shutdown
     = (Some "webhook server is not running", WebhookService.NewService)).
Proof.
  split.
  - apply (C8_server_state_machine
             (snd (WebhookService.StartWebhookServer WebhookService.NewService 8080 None))
             8081 None "").
    reflexivity.
  - apply (C8_server_state_machine WebhookService.NewService 0 None "").
    reflexivity.
Defined.

(** ** The retry loop *)

Section LoopFacts.
Import Client Runs Errors.

Variables (cfg : Config) (env : Env) (req : Request) (op : string).

Lemma zrange_snoc (a : Z) (cnt : nat) :
  zrange a (S cnt) = zrange a cnt ++ [a + Z.of_nat cnt].
Proof.
  revert a. induction cnt as [| c IH]; intros a.
  - simpl. f_equal. lia.
  - change (zrange a (S (S c))) with (a :: zrange (a + 1) (S c)).
    rewrite IH. simpl. do 3 f_equal. lia.
Qed.

Lemma zrange_length (a : Z) (cnt : nat) : List.length (zrange a cnt) = cnt.
Proof. revert a. induction cnt; intros a; simpl; [reflexivity | f_equal; auto]. Qed.

Lemma iterations_cons (a : Z) (cnt : nat) :
  flat_map (iteration env req) (zrange a (S cnt))
  = iteration env req a ++ flat_map (iteration env req) (zrange (a + 1) cnt).
Proof. reflexivity. Qed.

Lemma iterations_one (a : Z) :
  flat_map (iteration env req) (zrange a 1) = iteration env req a.
Proof. cbn [zrange flat_map]. apply app_nil_r. Qed.

Lemma iteration_transport (a : Z) (e : string) :
  httpDo env a req = TransportError e ->
  iteration env req a = (if 0 <? a then [EvSleep a] else []) ++ [EvDo a].
Proof. intros H. unfold iteration. rewrite H. rewrite app_nil_r. reflexivity. Qed.

Lemma iteration_received (a : Z) (r : Response) :
  httpDo env a req = Received r ->
  iteration env req a
  = (if 0 <? a then [EvSleep a] else [])
      ++ EvDo a :: (if retryable_status (StatusCode r) then [EvClose a] else []).
Proof. intros H. unfold iteration. rewrite H. reflexivity. Qed.

(** The loop from attempt [a]: it goes through the transient attempts
    up to some attempt [k] and leaves there, by cancellation during
    the wait, by the network error of the last permitted attempt, by a
    response that is not retried, or by the response of the last
    permitted attempt. *)
Lemma retry_loop_run :
  forall (fuel : nat) (a : Z) (resp : option (Response * bool)) (lastErr : option string),
    0 <= a <= RetryCount cfg ->
    Z.of_nat fuel = RetryCount cfg + 1 - a ->
    exists (k : Z) (cnt : nat) (out : LoopOutcome),
      retry_loop fuel cfg env req op a resp lastErr
      = (out, flat_map (iteration env req) (zrange a cnt)) /\
      a <= k <= RetryCount cfg /\
      (forall j, a <= j < k -> cancelled env j = false /\ transient env req j = true) /\
      ((cancelled env k = true /\ cnt = Z.to_nat (k - a) /\
        out = LoopReturn (ErrContext (ctxErr env)))
       \/
       (cancelled env k = false /\ cnt = Z.to_nat (k - a + 1) /\
        ((exists e, httpDo env k req = TransportError e /\ k = RetryCount cfg /\
                    out = LoopReturn (ErrNetwork (mkNetworkError op (Some e))))
         \/ (exists r, httpDo env k req = Received r /\
                       retryable_status (StatusCode r) = false /\
                       out = LoopDone (Some (r, false)) None)
         \/ (exists r, httpDo env k req = Received r /\
                       retryable_status (StatusCode r) = true /\
                       k = RetryCount cfg /\
                       out = LoopDone (Some (r, true)) None)))).
Proof.
  induction fuel as [| fuel IH]; intros a resp lastErr Ha Hf.
  - exfalso. simpl in Hf. lia.
  - cbn [retry_loop].
    destruct (Z.leb_spec a (RetryCount cfg)) as [_ | Hgt]; [| lia].
    cbn [negb].
    change ((0 <? a) && ctxDone env a) with (cancelled env a).
    destruct (cancelled env a) eqn:Hc.
    { exists a, O, (LoopReturn (ErrContext (ctxErr env))).
      split; [reflexivity |]. split; [lia |]. split; [intros j Hj; lia |].
      left. repeat split; try assumption. rewrite Z.sub_diag. reflexivity. }
    destruct (httpDo env a req) as [e | r] eqn:Hdo.
    + destruct (Z.eqb_spec a (RetryCount cfg)) as [Hlast | Hnot].
      * exists a, 1%nat, (LoopReturn (ErrNetwork (mkNetworkError op (Some e)))).
        split.
        { rewrite iterations_one, (iteration_transport a e Hdo). reflexivity. }
        split; [lia |]. split; [intros j Hj; lia |].
        right. split; [assumption |]. split; [f_equal; lia |].
        left. exists e. repeat split; assumption.
      * destruct (IH (a + 1) None (Some e)) as (k & cnt & out & Hrun & Hk & Hbefore & Hcases);
          [lia | lia |].
        rewrite Hrun.
        exists k, (S cnt), out. split.
        { rewrite iterations_cons, (iteration_transport a e Hdo).
          rewrite <- app_assoc. reflexivity. }
        split; [lia |]. split.
        { intros j Hj. destruct (Z.eq_dec j a) as [-> | Hne].
          - split; [assumption |]. unfold transient. rewrite Hdo. reflexivity.
          - apply Hbefore. lia. }
        destruct Hcases as [(Hck & Hcnt & Hout) | (Hck & Hcnt & Hout)].
        { left. repeat split; try assumption. rewrite Hcnt.
          rewrite <- Z2Nat.inj_succ by lia. f_equal. lia. }
        { right. split; [assumption |]. split; [| assumption]. rewrite Hcnt.
          rewrite <- Z2Nat.inj_succ by lia. f_equal. lia. }
    + unfold retryable_status in *.
      destruct ((StatusCode r <? 500) && negb (StatusCode r =? 429)) eqn:Hst.
      * exists a, 1%nat, (LoopDone (Some (r, false)) None).
        split.
        { rewrite iterations_one, (iteration_received a r Hdo).
          unfold retryable_status. rewrite Hst. reflexivity. }
        split; [lia |]. split; [intros j Hj; lia |].
        right. split; [assumption |]. split; [f_equal; lia |].
        right. left. exists r. rewrite Hst. repeat split; try assumption.
      * destruct (Z.eqb_spec a (RetryCount cfg)) as [Hlast | Hnot].
        { exists a, 1%nat, (LoopDone (Some (r, true)) None).
          split.
          { rewrite iterations_one, (iteration_received a r Hdo).
            unfold retryable_status. rewrite Hst. reflexivity. }
          split; [lia |]. split; [intros j Hj; lia |].
          right. split; [assumption |]. split; [f_equal; lia |].
          right. right. exists r. rewrite Hst. repeat split; assumption. }
        { destruct (IH (a + 1) (Some (r, true)) None)
            as (k & cnt & out & Hrun & Hk & Hbefore & Hcases); [lia | lia |].
          rewrite Hrun.
          exists k, (S cnt), out. split.
          { rewrite iterations_cons, (iteration_received a r Hdo).
            unfold retryable_status. rewrite Hst.
            rewrite <- app_assoc. reflexivity. }
          split; [lia |]. split.
          { intros j Hj. destruct (Z.eq_dec j a) as [-> | Hne].
            - split; [assumption |]. unfold transient, retryable_status.
              rewrite Hdo, Hst. reflexivity.
            - apply Hbefore. lia. }
          destruct Hcases as [(Hck & Hcnt & Hout) | (Hck & Hcnt & Hout)].
          { left. repeat split; try assumption. rewrite Hcnt.
            rewrite <- Z2Nat.inj_succ by lia. f_equal. lia. }
          { right. split; [assumption |]. split; [| assumption]. rewrite Hcnt.
            rewrite <- Z2Nat.inj_succ by lia. f_equal. lia. } }
Qed.

Lemma network_events_app (l1 l2 : list Event) :
  network_events (l1 ++ l2) = network_events l1 ++ network_events l2.
Proof.
  induction l1 as [| ev l1 IH]; simpl; [reflexivity |].
  destruct ev; simpl; rewrite IH; reflexivity.
Qed.

Lemma network_events_iterations (l : list Z) :
  network_events (flat_map (iteration env req) l) = flat_map backoff l.
Proof.
  induction l as [| j l IH]; simpl; [reflexivity |].
  rewrite network_events_app, IH. f_equal.
  unfold iteration, backoff.
  destruct (0 <? j); destruct (httpDo env j req) as [e | r]; simpl; try reflexivity;
    destruct (retryable_status (StatusCode r)); reflexivity.
Qed.

Lemma count_waits_app (l1 l2 : list Event) :
  count_waits (l1 ++ l2) = (count_waits l1 + count_waits l2)%nat.
Proof.
  induction l1 as [| ev l1 IH]; simpl; [reflexivity |].
  destruct ev; simpl; rewrite IH; reflexivity.
Qed.

Lemma count_waits_iterations (l : list Z) :
  count_waits (flat_map (iteration env req) l) = O.
Proof.
  induction l as [| j l IH]; simpl; [reflexivity |].
  rewrite count_waits_app, IH. unfold iteration.
  destruct (0 <? j); destruct (httpDo env j req) as [e | r]; simpl; try reflexivity;
    destruct (retryable_status (StatusCode r)); reflexivity.
Qed.

Lemma attempts_app (l1 l2 : list Event) :
  attempts (l1 ++ l2) = attempts l1 ++ attempts l2.
Proof.
  induction l1 as [| ev l1 IH]; simpl; [reflexivity |].
  destruct ev; simpl; rewrite IH; reflexivity.
Qed.

Lemma attempts_iterations (l : list Z) :
  attempts (flat_map (iteration env req) l) = l.
Proof.
  induction l as [| j l IH]; simpl; [reflexivity |].
  rewrite attempts_app, IH. unfold iteration.
  destruct (0 <? j); destruct (httpDo env j req) as [e | r]; simpl; try reflexivity;
    destruct (retryable_status (StatusCode r)); reflexivity.
Qed.
End LoopFacts.

(** ** The request executor *)

Section ExecutorFacts.
Import Json Client Runs Errors.

(** No token is taken inside the loop. *)
Lemma retry_loop_no_wait (cfg : Config) (env : Env) (req : Request) (op : string) :
  forall fuel a resp lastErr,
    count_waits (snd (retry_loop fuel cfg env req op a resp lastErr)) = O.
Proof.
  induction fuel as [| fuel IH]; intros a resp lastErr; cbn [retry_loop].
  - reflexivity.
  - destruct (negb (a <=? RetryCount cfg)); [reflexivity |].
    destruct ((0 <? a) && ctxDone env a); [reflexivity |].
    destruct (httpDo env a req) as [e | r].
    + destruct (a =? RetryCount cfg).
      * cbn [snd]. rewrite count_waits_app. destruct (0 <? a); reflexivity.
      * specialize (IH (a + 1) None (Some e)).
        destruct (retry_loop fuel cfg env req op (a + 1) None (Some e)) as [out tr].
        cbn [snd] in *. rewrite count_waits_app. cbn [count_waits]. rewrite IH.
        destruct (0 <? a); reflexivity.
    + destruct ((StatusCode r <? 500) && negb (StatusCode r =? 429)).
      * cbn [snd]. rewrite count_waits_app. destruct (0 <? a); reflexivity.
      * destruct (a =? RetryCount cfg).
        { cbn [snd]. rewrite count_waits_app. destruct (0 <? a); reflexivity. }
        { specialize (IH (a + 1) (Some (r, true)) None).
          destruct (retry_loop fuel cfg env req op (a + 1) (Some (r, true)) None)
            as [out tr].
          cbn [snd] in *. rewrite count_waits_app. cbn [count_waits]. rewrite IH.
          destruct (0 <? a); reflexivity. }
Qed.

(** With a result pointer, a successful call hands back a value. *)
Lemma handle_response_Ok_Some (t : ty) (cur : den t) (code : Z) (b : Text)
    (out : option (den t)) :
  handle_response t (Some cur) code b = Ok out -> exists v, out = Some v.
Proof.
  unfold handle_response. destruct (code >=? 400).
  - destruct (Unmarshal apiErrorT (tree b)) as [v1 |]; [| discriminate].
    destruct (negb (String.eqb (apiError_Error v1) "")); [discriminate |].
    destruct (j <- tree b;; unmarshal apiErrorT v1 j) as [v2 |]; [| discriminate].
    destruct (negb (String.eqb (apiError_Message v2) "")); discriminate.
  - destruct (j <- tree b;; unmarshal t cur j) as [v |]; [| discriminate].
    intros H. inversion H. exists v. reflexivity.
Qed.

Lemma DoRequest_Ok_Some (cfg : Config) (env : Env) (method endpoint : string)
    (tb : ty) (body : option (den tb)) (t : ty) (cur : den t) (out : option (den t)) :
  fst (DoRequest cfg env method endpoint tb body t (Some cur)) = Ok out ->
  exists v, out = Some v.
Proof.
  unfold DoRequest.
  destruct (limiterWait env); [discriminate |].
  destruct (encode_body tb body); [| discriminate].
  destruct (newRequest env); [discriminate |].
  destruct (retry_loop _ _ _ _ _ _ _ _) as [[e | [[resp closed] |] lastErr] tr];
    cbn [fst]; try discriminate.
  unfold after_loop.
  destruct (ReadAll (RespBody resp) closed) as [b | e]; [| discriminate].
  apply handle_response_Ok_Some.
Qed.
End ExecutorFacts.

(** A call that fails before the loop sends nothing. *)
Lemma no_attempt_before_loop
    (cfg : Client.Config) (env : Client.Env) (method endpoint : string)
    (tb : Json.ty) (body : option (Json.den tb)) (t : Json.ty)
    (result : option (Json.den t)) :
  Client.limiterWait env <> None \/ Client.encode_body tb body = None
  \/ Client.newRequest env <> None ->
  snd (Client.DoRequest cfg env method endpoint tb body t result)
  = [Client.EvLimiterWait].
Proof.
  unfold Client.DoRequest.
  destruct (Client.limiterWait env); [reflexivity |].
  destruct (Client.encode_body tb body); [| reflexivity].
  destruct (Client.newRequest env); [reflexivity |].
  intros [H | [H | H]]; congruence.
Qed.

(** C2 as stated fails: with one retry, a 500 response at the first
    attempt and a broken connection at the second, not all attempts end
    in transport errors, yet the executor returns a NetworkError and
    does not handle the status of the response it received. *)
Lemma C2_network_error_after_response :
  ~ (forall (cfg : Client.Config) (env : Client.Env) (method endpoint : string),
        0 <= Client.RetryCount cfg ->
        (exists j r,
            In j (Runs.attempts
                    (snd (Client.DoRequest cfg env method endpoint
                            Json.TString None Json.TString None))) /\
            Client.httpDo env j (Client.build_request cfg method endpoint None)
            = Client.Received r) ->
        forall e,
          fst (Client.DoRequest cfg env method endpoint Json.TString None Json.TString None)
          <> Failed (Client.ErrNetwork e)).
Proof.
  intros H.
  apply (H (Samples.config 1) (Samples.backend Samples.error_then_reset) "GET" "/x"
           ltac:(simpl; lia)
           (ex_intro _ 0 (ex_intro _ (Client.mkResponse 500 Client.NoBody)
                                   (conj (or_introl eq_refl) eq_refl)))
           (Errors.mkNetworkError "GET /x" (Some "connection reset by peer"))).
  reflexivity.
Qed.

(** C2, amended: for a retry count [n >= 0] the executor makes at most
    [n + 1] attempts; before each retry, and not before the first
    attempt, it waits [attempt] seconds, and it returns the
    cancellation error when the signal fires during that wait; a
    response below 500 other than 429 ends the loop at once; a
    transport error or a 5xx or 429 response is retried unless the
    attempts are exhausted; when the last permitted attempt ends in a
    transport error the executor returns a NetworkError carrying that
    error, whatever the earlier attempts received, and otherwise the
    code after the loop handles the response of the last attempt
    made. *)
Theorem C2_retry_policy
    (cfg : Client.Config) (env : Client.Env) (method endpoint : string)
    (tb : Json.ty) (body : option (Json.den tb)) (t : Json.ty)
    (result : option (Json.den t)) (reader : option Json.json) :
  0 <= Client.RetryCount cfg ->
  Client.limiterWait env = None ->
  Client.encode_body tb body = Some reader ->
  Client.newRequest env = None ->
  Runs.RetryRun cfg env (Client.build_request cfg method endpoint reader)
    (Client.operation method endpoint) t result
    (fst (Client.DoRequest cfg env method endpoint tb body t result))
    (snd (Client.DoRequest cfg env method endpoint tb body t result)).
Proof.
  intros Hn Hw Hb Hr. unfold Client.DoRequest. rewrite Hw, Hb, Hr.
  set (req := Client.build_request cfg method endpoint reader).
  set (op := Client.operation method endpoint).
  destruct (retry_loop_run cfg env req op (Z.to_nat (Client.RetryCount cfg + 1)) 0 None None)
    as (k & cnt & out & Hrun & Hk & Hbefore & Hcases); [lia | lia |].
  rewrite Hrun. unfold Runs.RetryRun. exists k, cnt.
  split; [exact Hk |].
  assert (Hcnt : (cnt <= Z.to_nat (Client.RetryCount cfg + 1))%nat).
  { destruct Hcases as [(_ & -> & _) | (_ & -> & _)]; apply Z2Nat.inj_le; lia. }
  split; [exact Hcnt |].
  assert (Hshape : forall post,
             Runs.attempts post = [] -> Runs.network_events post = [] ->
             Runs.attempts (Client.EvLimiterWait
                              :: flat_map (Runs.iteration env req) (Runs.zrange 0 cnt) ++ post)
             = Runs.zrange 0 cnt
             /\ Runs.network_events
                  (Client.EvLimiterWait
                     :: flat_map (Runs.iteration env req) (Runs.zrange 0 cnt) ++ post)
                = flat_map Runs.backoff (Runs.zrange 0 cnt)).
  { intros post Hp1 Hp2. cbn [Runs.attempts Runs.network_events].
    rewrite attempts_app, network_events_app, attempts_iterations,
      network_events_iterations, Hp1, Hp2, !app_nil_r. split; reflexivity. }
  assert (Hshape0 :
             Runs.attempts (Client.EvLimiterWait
                              :: flat_map (Runs.iteration env req) (Runs.zrange 0 cnt))
             = Runs.zrange 0 cnt
             /\ Runs.network_events
                  (Client.EvLimiterWait
                     :: flat_map (Runs.iteration env req) (Runs.zrange 0 cnt))
                = flat_map Runs.backoff (Runs.zrange 0 cnt)).
  { cbn [Runs.attempts Runs.network_events].
    rewrite attempts_iterations, network_events_iterations. split; reflexivity. }
  destruct (Hshape [Client.EvReadAll] eq_refl eq_refl) as (Ha1 & Hn1).
  destruct Hshape0 as (Ha0 & Hn0).
  rewrite Z.sub_0_r in Hcases.
  destruct Hcases as [(Hc & Hcnt' & ->) | (Hc & Hcnt' & [(e & Hdo & Hlast & ->) | [(r & Hdo & Hst & ->) | (r & Hdo & Hst & Hlast & ->)]])];
    cbn [fst snd].
  - split; [exact Ha0 |]. split; [exact Hn0 |]. split; [exact Hbefore |].
    left. repeat split; assumption.
  - split; [exact Ha0 |]. split; [exact Hn0 |]. split; [exact Hbefore |].
    right. split; [assumption |]. split; [assumption |].
    left. exists e. repeat split; assumption.
  - split; [exact Ha1 |]. split; [exact Hn1 |]. split; [exact Hbefore |].
    right. split; [assumption |]. split; [assumption |].
    right. exists r, false. split; [assumption |]. split; [congruence |].
    split; reflexivity.
  - split; [exact Ha1 |]. split; [exact Hn1 |]. split; [exact Hbefore |].
    right. split; [assumption |]. split; [assumption |].
    right. exists r, true. split; [assumption |]. split; [intros _; assumption |].
    split; [congruence | reflexivity].
Qed.

Lemma C2_retry_policy_witness :
  Runs.RetryRun (Samples.config 3) (Samples.backend Samples.fails_twice)
    (Client.build_request (Samples.config 3) "GET" "/test" None) "GET /test"
    Samples.TestResponseT (Some (Json.zero Samples.TestResponseT))
    (fst (Client.DoRequest (Samples.config 3) (Samples.backend Samples.fails_twice)
            "GET" "/test" Json.TString None
            Samples.TestResponseT (Some (Json.zero Samples.TestResponseT))))
    (snd (Client.DoRequest (Samples.config 3) (Samples.backend Samples.fails_twice)
            "GET" "/test" Json.TString None
            Samples.TestResponseT (Some (Json.zero Samples.TestResponseT)))).
Proof.
  apply (C2_retry_policy (Samples.config 3) (Samples.backend Samples.fails_twice)
           "GET" "/test" Json.TString None Samples.TestResponseT
           (Some (Json.zero Samples.TestResponseT)) None).
  - simpl. lia.
  - reflexivity.
  - reflexivity.
  - reflexivity.
Defined.

(** The retry scenario of the specification: a backend that answers
    500 twice and then succeeds, with three retries allowed, sees
    exactly three requests and the call succeeds. *)
Lemma retry_scenario :
  Client.DoRequest (Samples.config 3) (Samples.backend Samples.fails_twice)
    "GET" "/test" Json.TString None
    Samples.TestResponseT (Some (Json.zero Samples.TestResponseT))
  = (Ok (Some (true, ("success", tt))),
     [Client.EvLimiterWait; Client.EvDo 0; Client.EvClose 0;
      Client.EvSleep 1; Client.EvDo 1; Client.EvClose 1;
      Client.EvSleep 2; Client.EvDo 2; Client.EvReadAll]).
Proof. vm_compute. reflexivity. Qed.

(** C3 as stated fails: in the run above three attempts are made on a
    single token. *)
Lemma C3_retries_take_no_token :
  ~ (forall (cfg : Client.Config) (env : Client.Env) (method endpoint : string)
            (t : Json.ty) (result : option (Json.den t)),
        (List.length
           (Runs.attempts
              (snd (Client.DoRequest cfg env method endpoint Json.TString None t result)))
         <= Runs.count_waits
              (snd (Client.DoRequest cfg env method endpoint Json.TString None t result)))%nat).
Proof.
  intros H.
  specialize (H (Samples.config 3) (Samples.backend Samples.fails_twice) "GET" "/test"
                Samples.TestResponseT (Some (Json.zero Samples.TestResponseT))).
  vm_compute in H. lia.
Qed.

(** C3, amended: every call of the executor takes one token from the
    rate limiter, before anything else and so before the first
    attempt; the retries of the call take no further token; when taking
    the token fails (the limiter reports the cancellation of the
    context) the call fails at once with that error wrapped, and no
    request is sent. *)
Theorem C3_one_token_per_call
    (cfg : Client.Config) (env : Client.Env) (method endpoint : string)
    (tb : Json.ty) (body : option (Json.den tb)) (t : Json.ty)
    (result : option (Json.den t)) :
  (exists tr,
      snd (Client.DoRequest cfg env method endpoint tb body t result)
      = Client.EvLimiterWait :: tr /\
      Runs.count_waits tr = O) /\
  (forall e,
      Client.limiterWait env = Some e ->
      Client.DoRequest cfg env method endpoint tb body t result
      = (Failed (Client.ErrRateLimiter e), [Client.EvLimiterWait])).
Proof.
  split.
  - unfold Client.DoRequest.
    destruct (Client.limiterWait env); [eexists; split; reflexivity |].
    destruct (Client.encode_body tb body); [| eexists; split; reflexivity].
    destruct (Client.newRequest env); [eexists; split; reflexivity |].
    pose proof (retry_loop_no_wait cfg env
                  (Client.build_request cfg method endpoint o)
                  (Client.operation method endpoint)
                  (Z.to_nat (Client.RetryCount cfg + 1)) 0 None None) as Hnw.
    destruct (Client.retry_loop _ _ _ _ _ _ _ _) as [[e | [[resp closed] |] lastErr] tr];
      cbn [snd] in *; eexists; (split; [reflexivity |]); try assumption.
    rewrite count_waits_app, Hnw. reflexivity.
  - intros e He. unfold Client.DoRequest. rewrite He. reflexivity.
Qed.

Lemma C3_one_token_per_call_witness :
  Client.DoRequest (Samples.config 3)
    (Client.mkEnv (Some "context canceled") None (fun _ => false) "context canceled"
                  (fun k _ => Samples.fails_twice k))
    "GET" "/test" Json.TString None Json.TString None
  = (Failed (Client.ErrRateLimiter "context canceled"), [Client.EvLimiterWait]).
Proof.
  apply (C3_one_token_per_call (Samples.config 3)
           (Client.mkEnv (Some "context canceled") None (fun _ => false) "context canceled"
                         (fun k _ => Samples.fails_twice k))
           "GET" "/test" Json.TString None Json.TString None).
  reflexivity.
Defined.

(** ** Handling of the response *)

Section ResponseFacts.
Import Json Client Errors.

Lemma handle_response_error_field (t : ty) (result : option (den t)) (code : Z)
    (b : Text) (v : den apiErrorT) :
  400 <= code ->
  Unmarshal apiErrorT (tree b) = Some v ->
  apiError_Error v <> "" ->
  handle_response t result code b
  = Failed (ErrAPI (NewWATIError code (apiError_Error v))).
Proof.
  intros Hc Hv He. unfold handle_response.
  destruct (Z.geb_spec code 400) as [_ | Hlt]; [| lia].
  rewrite Hv. destruct (String.eqb_spec (apiError_Error v) ""); [contradiction |].
  reflexivity.
Qed.

Lemma handle_response_undecodable (t : ty) (result : option (den t)) (code : Z)
    (b : Text) :
  400 <= code ->
  Unmarshal apiErrorT (tree b) = None ->
  handle_response t result code b = Failed (ErrAPI (NewWATIError code (raw b))).
Proof.
  intros Hc Hv. unfold handle_response.
  destruct (Z.geb_spec code 400) as [_ | Hlt]; [| lia].
  rewrite Hv. reflexivity.
Qed.

Lemma handle_response_classified (t : ty) (result : option (den t)) (code : Z)
    (b : Text) :
  400 <= code ->
  exists msg, handle_response t result code b = Failed (ErrAPI (NewWATIError code msg)).
Proof.
  intros Hc. unfold handle_response.
  destruct (Z.geb_spec code 400) as [_ | Hlt]; [| lia].
  destruct (Unmarshal apiErrorT (tree b)) as [v1 |]; [| eexists; reflexivity].
  destruct (negb (String.eqb (apiError_Error v1) "")); [eexists; reflexivity |].
  destruct (j <- tree b;; unmarshal apiErrorT v1 j) as [v2 |]; [| eexists; reflexivity].
  destruct (negb (String.eqb (apiError_Message v2) "")); eexists; reflexivity.
Qed.

Lemma handle_response_success (t : ty) (cur : den t) (code : Z) (b : Text) :
  code < 400 ->
  handle_response t (Some cur) code b
  = match (j <- tree b;; unmarshal t cur j) with
    | Some v => Ok (Some v)
    | None => Failed ErrUnmarshalResponse
    end.
Proof.
  intros Hc. unfold handle_response.
  destruct (Z.geb_spec code 400) as [Hge | _]; [lia | reflexivity].
Qed.
End ResponseFacts.

(** The two scenarios of the specification: status 200 with
    [{"result":true,"message":"success"}] fills the target, status 400
    with [{"result":false,"error":"invalid request"}] gives the
    classified error [bad_request] with that message. *)
Lemma scenario_success :
  fst (Client.DoRequest (Samples.config 3)
         (Samples.backend (fun _ => Client.Received
                                      (Client.mkResponse 200
                                         (Client.Stream Samples.success_body None))))
         "GET" "/x" Json.TString None
         Samples.TestResponseT (Some (Json.zero Samples.TestResponseT)))
  = Ok (Some (true, ("success", tt))).
Proof. vm_compute. reflexivity. Qed.

Lemma scenario_bad_request :
  fst (Client.DoRequest (Samples.config 3) (Samples.backend Samples.always_invalid)
         "GET" "/x" Json.TString None
         Samples.TestResponseT (Some (Json.zero Samples.TestResponseT)))
  = Failed (Client.ErrAPI (Errors.mkWATIError 400 "invalid request" "bad_request")).
Proof. vm_compute. reflexivity. Qed.

(** C7 fails on the code: when the attempts are exhausted on a 5xx or
    429 response, the loop closes the body of that response before it
    leaves (the comment next to the test says it should not), so
    reading the body fails and the executor returns a read error in
    place of the classified error built from the body.  With status 500
    and the body [{"error":"overloaded"}], without retries and with
    three of them: *)
Lemma C7_body_closed_before_read :
  Client.DoRequest (Samples.config 0) (Samples.backend Samples.always_overloaded)
    "GET" "/x" Json.TString None
    Samples.TestResponseT (Some (Json.zero Samples.TestResponseT))
  = (Failed (Client.ErrReadingBody "http: read on closed response body"),
     [Client.EvLimiterWait; Client.EvDo 0; Client.EvClose 0; Client.EvReadAll]) /\
  fst (Client.DoRequest (Samples.config 3) (Samples.backend Samples.always_overloaded)
         "GET" "/x" Json.TString None
         Samples.TestResponseT (Some (Json.zero Samples.TestResponseT)))
  = Failed (Client.ErrReadingBody "http: read on closed response body") /\
  Client.handle_response Samples.TestResponseT (Some (Json.zero Samples.TestResponseT))
    500 Samples.overloaded_body
  = Failed (Client.ErrAPI (Errors.mkWATIError 500 "overloaded" "server_error")).
Proof. vm_compute. repeat split. Qed.

(** ** Signature validation *)

Section SignatureFacts.
Import Bytes Crypto Signature.

Lemma is_byte_shiftr (b : Z) : is_byte b <-> Z.shiftr b 8 = 0.
Proof.
  unfold is_byte. rewrite Z.shiftr_div_pow2 by lia.
  change (2 ^ 8) with 256. rewrite Z.div_small_iff by lia. lia.
Qed.

Lemma is_byte_lor (a b : Z) : is_byte a -> is_byte b -> is_byte (Z.lor a b).
Proof.
  rewrite !is_byte_shiftr. intros Ha Hb. rewrite Z.shiftr_lor, Ha, Hb. reflexivity.
Qed.

Lemma is_byte_lxor (a b : Z) : is_byte a -> is_byte b -> is_byte (Z.lxor a b).
Proof.
  rewrite !is_byte_shiftr. intros Ha Hb. rewrite Z.shiftr_lxor, Ha, Hb. reflexivity.
Qed.

Lemma byte_of_ascii_is_byte (c : ascii) : is_byte (byte_of_ascii c).
Proof.
  unfold is_byte, byte_of_ascii. pose proof (N_ascii_bounded c). lia.
Qed.

Lemma byte_of_ascii_inj (c d : ascii) : byte_of_ascii c = byte_of_ascii d -> c = d.
Proof.
  unfold byte_of_ascii. intros H. apply N2Z.inj in H.
  rewrite <- (ascii_N_embedding c), <- (ascii_N_embedding d), H. reflexivity.
Qed.

Lemma bytes_of_string_is_byte (s : string) : Forall is_byte (bytes_of_string s).
Proof.
  unfold bytes_of_string. induction (list_ascii_of_string s) as [| c l IH]; simpl.
  - constructor.
  - constructor; [apply byte_of_ascii_is_byte | exact IH].
Qed.

Lemma bytes_of_string_inj (s t : string) :
  bytes_of_string s = bytes_of_string t -> s = t.
Proof.
  unfold bytes_of_string. intros H.
  rewrite <- (string_of_list_ascii_of_string s), <- (string_of_list_ascii_of_string t).
  f_equal. revert H.
  generalize (list_ascii_of_string s) (list_ascii_of_string t).
  induction l as [| c l IH]; intros [| d l']; simpl; intros H; try discriminate.
  - reflexivity.
  - inversion H as [[Hc Hl]]. apply byte_of_ascii_inj in Hc. subst.
    f_equal. apply IH. exact Hl.
Qed.

(** The accumulator of [ConstantTimeCompare] stays a byte, and it is
    zero at the end exactly when it was zero and the slices agree. *)
Lemma accumulate_is_byte (l : list (Z * Z)) (v : Z) :
  is_byte v -> Forall (fun xy => is_byte (fst xy) /\ is_byte (snd xy)) l ->
  is_byte (fold_left (fun v xy => Z.lor v (Z.lxor (fst xy) (snd xy))) l v).
Proof.
  revert v. induction l as [| xy l IH]; intros v Hv Hl; simpl.
  - exact Hv.
  - inversion Hl as [| ? ? (Hx & Hy) Hl']; subst.
    apply IH; [| exact Hl']. apply is_byte_lor; [exact Hv |].
    apply is_byte_lxor; assumption.
Qed.

Lemma accumulate_zero (l : list (Z * Z)) (v : Z) :
  fold_left (fun v xy => Z.lor v (Z.lxor (fst xy) (snd xy))) l v = 0
  <-> v = 0 /\ Forall (fun xy => fst xy = snd xy) l.
Proof.
  revert v. induction l as [| xy l IH]; intros v; simpl.
  - split; [intros H; split; [exact H | constructor] | intros (H & _); exact H].
  - rewrite IH, Z.lor_eq_0_iff. split.
    + intros ((Hv & Hx) & Hl). split; [exact Hv |].
      constructor; [apply Z.lxor_eq; exact Hx | exact Hl].
    + intros (Hv & Hl). inversion Hl as [| ? ? Hx Hl']; subst.
      repeat split; try assumption. rewrite Hx. apply Z.lxor_nilpotent.
Qed.

Lemma ConstantTimeByteEq_zero (v : Z) :
  is_byte v -> (ConstantTimeByteEq v 0 = 1 <-> v = 0).
Proof.
  unfold is_byte, ConstantTimeByteEq, w32. intros Hv. rewrite Z.lxor_0_r.
  rewrite Z.shiftr_div_pow2 by lia. split.
  - intros H. destruct (Z.eq_dec v 0) as [-> | Hne]; [reflexivity |].
    rewrite (Z.mod_small (v - 1)) in H by lia.
    rewrite Z.div_small in H by lia. discriminate H.
  - intros ->. reflexivity.
Qed.

Lemma combine_agree {A : Type} (x y : list A) :
  List.length x = List.length y ->
  Forall (fun xy => fst xy = snd xy) (combine x y) -> x = y.
Proof.
  revert y. induction x as [| a x IH]; intros [| b y] Hlen Hall; simpl in *;
    try discriminate; [reflexivity |].
  inversion Hall as [| ? ? Hab Hall']; subst. simpl in Hab. subst.
  f_equal. apply IH; [lia | exact Hall'].
Qed.

Lemma combine_same {A : Type} (x : list A) :
  Forall (fun xy => fst xy = snd xy) (combine x x).
Proof. induction x; simpl; constructor; [reflexivity | assumption]. Qed.

Lemma combine_bytes (x y : list Z) :
  Forall is_byte x -> Forall is_byte y ->
  Forall (fun xy => is_byte (fst xy) /\ is_byte (snd xy)) (combine x y).
Proof.
  intros Hx. revert y. induction Hx as [| a x Ha Hx IH]; intros y Hy; simpl.
  - constructor.
  - destruct Hy as [| b y Hb Hy]; constructor; [split; assumption | apply IH; exact Hy].
Qed.

(** [hmac.Equal] decides the equality of two byte slices. *)
Lemma hmac_Equal_iff (x y : list Z) :
  Forall is_byte x -> Forall is_byte y ->
  (hmac_Equal x y = true <-> x = y).
Proof.
  intros Hx Hy. unfold hmac_Equal, ConstantTimeCompare.
  destruct (Nat.eqb_spec (List.length x) (List.length y)) as [Hlen | Hlen]; cbn [negb].
  - rewrite Z.eqb_eq, ConstantTimeByteEq_zero, accumulate_zero.
    + split.
      * intros (_ & H). apply combine_agree; assumption.
      * intros ->. split; [reflexivity | apply combine_same].
    + apply accumulate_is_byte; [unfold is_byte; lia | apply combine_bytes; assumption].
  - split; [discriminate |]. intros ->. contradiction.
Qed.

Lemma ValidateSignature_iff (payload signature secret : string) :
  secret <> "" ->
  (ValidateSignature payload signature secret = true
   <-> signature = expectedSignature payload secret).
Proof.
  intros Hs. unfold ValidateSignature.
  destruct (String.eqb_spec secret "") as [He | _]; [contradiction |].
  rewrite hmac_Equal_iff by apply bytes_of_string_is_byte.
  split; [apply bytes_of_string_inj | intros ->; reflexivity].
Qed.
End SignatureFacts.

(** C4: for a payload [p] and a secret [s], the validator compares the
    given signature with the hex-encoded HMAC-SHA256 of [p] under the
    key [s]: that digest is accepted, whatever the secret; under a
    non-empty secret every other signature string is rejected, so any
    change of a byte of the digest is; and under the empty secret every
    signature is accepted for every payload. *)
Theorem C4_validate_signature (p s sig : string) :
  Signature.expectedSignature p s
  = Crypto.hex_encode
      (Crypto.hmac_sha256 (Bytes.bytes_of_string s) (Bytes.bytes_of_string p)) /\
  Signature.ValidateSignature p (Signature.expectedSignature p s) s = true /\
  (s <> "" -> sig <> Signature.expectedSignature p s ->
   Signature.ValidateSignature p sig s = false) /\
  Signature.ValidateSignature p sig "" = true.
Proof.
  split; [reflexivity |]. split; [| split].
  - destruct (String.eqb_spec s "") as [-> | Hs]; [reflexivity |].
    apply ValidateSignature_iff; [exact Hs | reflexivity].
  - intros Hs Hsig.
    destruct (Signature.ValidateSignature p sig s) eqn:Hv; [| reflexivity].
    apply ValidateSignature_iff in Hv; [contradiction | exact Hs].
  - reflexivity.
Qed.

(** The digest of a known message under a known key, and the same
    digest with its last character changed. *)
Lemma C4_validate_signature_witness :
  Signature.ValidateSignature "The quick brown fox jumps over the lazy dog"
    "f7bc83f430538424b13298e6aa6fb143ef4d59a14946175997479dbc2d1a3cd8" "key" = true /\
  Signature.ValidateSignature "The quick brown fox jumps over the lazy dog"
    "f7bc83f430538424b13298e6aa6fb143ef4d59a14946175997479dbc2d1a3cd9" "key" = false.
Proof.
  split.
  - rewrite <- hmac_fox.
    apply (C4_validate_signature "The quick brown fox jumps over the lazy dog" "key" "").
  - apply (C4_validate_signature "The quick brown fox jumps over the lazy dog" "key"
             "f7bc83f430538424b13298e6aa6fb143ef4d59a14946175997479dbc2d1a3cd9").
    + discriminate.
    + rewrite hmac_fox. discriminate.
Defined.

(** ** Numbers through [float64] *)

Section NumberFacts.
Import Json.

Lemma round53_small (z : Z) : Z.abs z < 2 ^ 53 -> round53 z = z.
Proof.
  intros H. unfold round53. destruct (Z.ltb_spec (Z.abs z) (2 ^ 53)); [reflexivity | lia].
Qed.

Lemma round53_large (c : Z) : 2 ^ 53 <= Z.abs c -> 2 ^ 53 <= Z.abs (round53 c).
Proof.
  intros H. unfold round53.
  destruct (Z.ltb_spec (Z.abs c) (2 ^ 53)) as [Hlt | _]; [lia |].
  set (a := Z.abs c) in *.
  assert (Ha : 0 < a) by lia.
  pose proof (Z.log2_spec a Ha) as [Hlo _].
  assert (Hlog : 53 <= Z.log2 a).
  { apply Z.log2_le_pow2; lia. }
  set (k := Z.log2 a - 52) in *.
  assert (Hk : 1 <= k) by (unfold k; lia).
  assert (Hpow : 2 ^ Z.log2 a = 2 ^ k * 2 ^ 52).
  { unfold k. rewrite <- Z.pow_add_r by lia. f_equal. lia. }
  assert (Hk2 : 2 <= 2 ^ k).
  { change 2 with (2 ^ 1) at 1. apply Z.pow_le_mono_r; lia. }
  assert (Hq : 2 ^ 52 <= a / 2 ^ k).
  { apply Z.div_le_lower_bound; lia. }
  set (q := a / 2 ^ k) in *.
  set (q' := if (2 ^ (k - 1) <? a mod 2 ^ k) || ((2 ^ (k - 1) =? a mod 2 ^ k) && Z.odd q)
             then q + 1 else q).
  assert (Hq' : q <= q') by (unfold q'; destruct (_ || _); lia).
  rewrite Z.abs_mul.
  assert (Hs : Z.abs (Z.sgn c) = 1) by (destruct c; simpl in *; lia).
  rewrite Hs, Z.mul_1_l, Z.abs_eq by nia.
  change (2 ^ 53) with (2 ^ 52 * 2). nia.
Qed.

Lemma shortest_from_exact (t : nat) (z : Z) : exact_int z -> shortest_from t z = z.
Proof.
  unfold exact_int. intros Hz. induction t as [| t IH]; [reflexivity |].
  cbn [shortest_from].
  set (p := 10 ^ Z.of_nat (S t)).
  assert (Hp : 0 < p) by (unfold p; apply Z.pow_pos_nonneg; lia).
  pose proof (Z.mod_pos_bound z p Hp) as Hm.
  set (lo := z - z mod p) in *.
  assert (Hhi : (round53 (lo + p) =? z) = false).
  { apply Z.eqb_neq. intros E.
    destruct (Z.lt_ge_cases (Z.abs (lo + p)) (2 ^ 53)) as [Hs | Hl].
    - rewrite round53_small in E by exact Hs. unfold lo in E. lia.
    - apply round53_large in Hl. rewrite E in Hl. lia. }
  rewrite Hhi, andb_false_r.
  destruct (Z.eqb_spec (round53 lo) z) as [E | _]; [| exact IH].
  destruct (Z.lt_ge_cases (Z.abs lo) (2 ^ 53)) as [Hs | Hl].
  - rewrite round53_small in E by exact Hs. exact E.
  - apply round53_large in Hl. rewrite E in Hl. lia.
Qed.

Lemma shortest_exact (z : Z) : exact_int z -> shortest z = z.
Proof. apply shortest_from_exact. Qed.

Lemma shortest_from_reads_back (t : nat) (z : Z) :
  round53 z = z -> round53 (shortest_from t z) = z.
Proof.
  intros Hz. induction t as [| t IH]; [exact Hz |].
  cbn [shortest_from].
  set (p := 10 ^ Z.of_nat (S t)). set (lo := z - z mod p).
  destruct (Z.eqb_spec (round53 lo) z) as [El | _];
    destruct (Z.eqb_spec (round53 (lo + p)) z) as [Eh | _]; cbn [andb];
    try assumption.
  destruct (z - lo <=? lo + p - z); assumption.
Qed.

Lemma FormatFloat_wf (f : float64) : wf_float f -> exists n, FormatFloat f = Some n.
Proof.
  destruct f; cbn [wf_float FormatFloat]; intros H; try contradiction;
    eexists; reflexivity.
Qed.

Lemma ParseFloat_FormatFloat (f : float64) (n : number) :
  wf_float f -> FormatFloat f = Some n -> ParseFloat n = Some f.
Proof.
  destruct f as [z | b | |]; cbn [wf_float FormatFloat]; intros Hwf Hf;
    try contradiction.
  - destruct Hwf as (Hr & Hb). injection Hf as <-.
    destruct (Z.abs z <? _); [| reflexivity].
    cbn [ParseFloat]. unfold shortest. rewrite shortest_from_reads_back by exact Hr.
    destruct (Z.ltb_spec (Z.abs z) (2 ^ 1024)); [reflexivity | lia].
  - injection Hf as <-. reflexivity.
Qed.

(** Whatever [ParseFloat] reads can be written. *)
Lemma FormatFloat_ParseFloat (n : number) (f : float64) :
  ParseFloat n = Some f -> exists n', FormatFloat f = Some n'.
Proof.
  destruct n as [z | [z | b | |]]; cbn [ParseFloat]; intros H; try discriminate.
  - destruct (Z.abs (round53 z) <? _); [| discriminate].
    injection H as <-. eexists; reflexivity.
  - injection H as <-. eexists; reflexivity.
  - injection H as <-. eexists; reflexivity.
Qed.

Lemma exact_int_round_trip (z : Z) :
  exact_int z ->
  exists f n, ParseFloat (LInt z) = Some f /\ FormatFloat f = Some n /\
              ParseInt64 n = Some z /\ ParseFloat n = Some f.
Proof.
  intros Hz. pose proof Hz as Hz'. unfold exact_int in Hz'.
  exists (FInt z), (LInt z).
  assert (Hr : round53 z = z) by (apply round53_small; lia).
  assert (Hbig : 2 ^ 53 < 2 ^ 1024) by (apply Z.pow_lt_mono_r; lia).
  assert (H21 : 2 ^ 53 < 10 ^ 21) by reflexivity.
  assert (H63 : 2 ^ 53 < 2 ^ 63) by reflexivity.
  assert (Hp : ParseFloat (LInt z) = Some (FInt z)).
  { cbn [ParseFloat]. rewrite Hr.
    destruct (Z.ltb_spec (Z.abs z) (2 ^ 1024)); [reflexivity | lia]. }
  repeat split; try exact Hp.
  - cbn [FormatFloat]. rewrite shortest_exact by exact Hz.
    destruct (Z.ltb_spec (Z.abs z) (10 ^ 21)); [reflexivity | lia].
  - cbn [ParseInt64].
    destruct (Z.leb_spec (- 2 ^ 63) z); [| lia].
    destruct (Z.ltb_spec z (2 ^ 63)); [reflexivity | lia].
Qed.
End NumberFacts.

(** ** Generic values *)

(** ** Strings in UTF-8 *)

Section StringFacts.
Import Json.

Lemma written_from_valid (s : string) :
  forall pending, valid_from pending s = true -> written_from pending s = s.
Proof.
  induction s as [| c r IH]; intros pending H; [reflexivity |].
  cbn [valid_from written_from] in *. destruct pending as [| k].
  - destruct (rune_size (String c r)) as [size |]; [| discriminate].
    rewrite (IH _ H). reflexivity.
  - rewrite (IH _ H). reflexivity.
Qed.

(** A string in UTF-8 is written as it is. *)
Lemma written_valid (s : string) : ValidString s = true -> written s = s.
Proof. apply written_from_valid. Qed.

Lemma ValidString_ascii (c : ascii) (r : string) :
  (N_of_ascii c < 128)%N -> ValidString (String c r) = ValidString r.
Proof.
  intros H. unfold ValidString. cbn [valid_from rune_size].
  apply N.ltb_lt in H. rewrite H. reflexivity.
Qed.

Lemma digit_ascii (c : ascii) (d : Z) : digit c = Some d -> (N_of_ascii c < 128)%N.
Proof.
  unfold digit.
  destruct ((48 <=? Z.of_N (N_of_ascii c)) && (Z.of_N (N_of_ascii c) <=? 57)) eqn:H;
    [| discriminate].
  intros _. apply andb_true_iff in H. destruct H as (_ & H). apply Z.leb_le in H. lia.
Qed.

Lemma ValidString_digits (n : nat) :
  forall s x, digits n s = Some x -> ValidString s = ValidString (snd x).
Proof.
  induction n as [| n IH]; intros s x H; cbn [digits] in H.
  - injection H as <-. reflexivity.
  - destruct s as [| c r]; [discriminate |].
    destruct (digit c) as [d |] eqn:Hd; [| discriminate]. cbn [bind] in H.
    destruct (digits n r) as [y |] eqn:Hy; [| discriminate]. cbn [bind] in H.
    injection H as <-. cbn [snd].
    rewrite (ValidString_ascii c r (digit_ascii c d Hd)). apply IH. exact Hy.
Qed.

Lemma ValidString_expect (c : ascii) (s r : string) :
  (N_of_ascii c < 128)%N -> expect c s = Some r -> ValidString s = ValidString r.
Proof.
  intros Hc. destruct s as [| c' r']; [discriminate |]. cbn [expect].
  destruct (Ascii.eqb_spec c c') as [<- | _]; [| discriminate].
  intros H. injection H as <-. apply ValidString_ascii. exact Hc.
Qed.

Lemma ValidString_skip_digits (s : string) :
  ValidString s = ValidString (skip_digits s).
Proof.
  induction s as [| c r IH]; [reflexivity |]. cbn [skip_digits].
  destruct (digit c) as [d |] eqn:Hd; [| reflexivity].
  rewrite (ValidString_ascii c r (digit_ascii c d Hd)). exact IH.
Qed.

Lemma zone_match (A : Type) (a : A) (f : ascii -> string -> A) (n : A)
    (sign : ascii) (r : string) :
  String sign r <> "Z" ->
  match String sign r with
  | "Z" => a
  | String sign' r' => f sign' r'
  | EmptyString => n
  end = f sign r.
Proof.
  intros H. destruct sign as [[] [] [] [] [] [] [] []]; try reflexivity.
  destruct r; [contradiction H; reflexivity | reflexivity].
Qed.

(** A time in RFC 3339 is written in ASCII. *)
Lemma rfc3339_valid (s : string) : rfc3339 s = true -> ValidString s = true.
Proof.
  unfold rfc3339.
  destruct (digits 4 s) as [y |] eqn:Hy; [| discriminate]. cbn [bind].
  rewrite (ValidString_digits _ _ _ Hy).
  destruct (expect "-" (snd y)) as [s1 |] eqn:H1; [| discriminate]. cbn [bind].
  rewrite (ValidString_expect "-" _ _ eq_refl H1).
  destruct (digits 2 s1) as [mo |] eqn:Hmo; [| discriminate]. cbn [bind].
  rewrite (ValidString_digits _ _ _ Hmo).
  destruct (expect "-" (snd mo)) as [s2 |] eqn:H2; [| discriminate]. cbn [bind].
  rewrite (ValidString_expect "-" _ _ eq_refl H2).
  destruct (digits 2 s2) as [d |] eqn:Hd; [| discriminate]. cbn [bind].
  rewrite (ValidString_digits _ _ _ Hd).
  destruct (expect "T" (snd d)) as [s3 |] eqn:H3; [| discriminate]. cbn [bind].
  rewrite (ValidString_expect "T" _ _ eq_refl H3).
  destruct (digits 2 s3) as [h |] eqn:Hh; [| discriminate]. cbn [bind].
  rewrite (ValidString_digits _ _ _ Hh).
  destruct (expect ":" (snd h)) as [s4 |] eqn:H4; [| discriminate]. cbn [bind].
  rewrite (ValidString_expect ":" _ _ eq_refl H4).
  destruct (digits 2 s4) as [mi |] eqn:Hmi; [| discriminate]. cbn [bind].
  rewrite (ValidString_digits _ _ _ Hmi).
  destruct (expect ":" (snd mi)) as [s5 |] eqn:H5; [| discriminate]. cbn [bind].
  rewrite (ValidString_expect ":" _ _ eq_refl H5).
  destruct (digits 2 s5) as [se |] eqn:Hse; [| discriminate]. cbn [bind].
  rewrite (ValidString_digits _ _ _ Hse).
  destruct (_ && _); [| discriminate].
  set (s6 := match snd se with
             | String "." (String c r) =>
                 match digit c with Some _ => skip_digits r | None => snd se end
             | rest => rest
             end).
  assert (H6 : ValidString (snd se) = ValidString s6).
  { subst s6. destruct (snd se) as [| c0 rest]; [reflexivity |].
    destruct (Ascii.eqb_spec c0 ".") as [-> | Hne].
    - destruct rest as [| c r]; [reflexivity |].
      destruct (digit c) as [dd |] eqn:Hdd; [| reflexivity].
      rewrite (ValidString_ascii "." _ eq_refl).
      rewrite (ValidString_ascii c r (digit_ascii c dd Hdd)).
      apply ValidString_skip_digits.
    - destruct c0 as [[] [] [] [] [] [] [] []]; try reflexivity.
      contradiction Hne. reflexivity. }
  rewrite H6. clearbody s6.
  destruct s6 as [| sign r]; [discriminate |].
  destruct (string_dec (String sign r) "Z") as [-> | Hz]; [reflexivity |].
  pose proof (zone_match _ (Some tt)
                (fun sign r =>
                   if Ascii.eqb sign "+" || Ascii.eqb sign "-" then
                     zh <- digits 2 r ;; s7 <- expect ":" (snd zh) ;;
                     zm <- digits 2 s7 ;;
                     match snd zm with
                     | EmptyString =>
                         if (fst zh <=? 23) && (fst zm <=? 59) then Some tt else None
                     | _ => None
                     end
                   else None) None sign r Hz) as Hzone.
  cbv beta in Hzone. rewrite Hzone. clear Hzone.
  destruct (Ascii.eqb sign "+" || Ascii.eqb sign "-") eqn:Hsign; [| discriminate].
  assert (Hs : (N_of_ascii sign < 128)%N).
  { apply orb_true_iff in Hsign.
    destruct Hsign as [E | E]; apply Ascii.eqb_eq in E; subst; reflexivity. }
  rewrite (ValidString_ascii sign r Hs).
  destruct (digits 2 r) as [zh |] eqn:Hzh; [| discriminate]. cbn [bind].
  rewrite (ValidString_digits _ _ _ Hzh).
  destruct (expect ":" (snd zh)) as [s7 |] eqn:H7; [| discriminate]. cbn [bind].
  rewrite (ValidString_expect ":" _ _ eq_refl H7).
  destruct (digits 2 s7) as [zm |] eqn:Hzm; [| discriminate]. cbn [bind].
  rewrite (ValidString_digits _ _ _ Hzm).
  destruct (snd zm); [reflexivity | discriminate].
Qed.
End StringFacts.

Section GenericFacts.
Import Json.

(** Induction on documents and on generic values, through their lists. *)
Lemma json_induction (P : json -> Prop) :
  P JNull -> (forall b, P (JBool b)) -> (forall n, P (JNum n)) ->
  (forall s, P (JStr s)) ->
  (forall l, Forall P l -> P (JArr l)) ->
  (forall m, Forall (fun kv => P (snd kv)) m -> P (JObj m)) ->
  forall j, P j.
Proof.
  intros Hnull Hbool Hnum Hstr Harr Hobj.
  fix IH 1. intros [| b | n | s | l | m].
  - exact Hnull.
  - apply Hbool.
  - apply Hnum.
  - apply Hstr.
  - apply Harr. induction l as [| x l IHl]; constructor; [apply IH | exact IHl].
  - apply Hobj. induction m as [| [k x] m IHm]; constructor; [apply IH | exact IHm].
Qed.

Lemma generic_induction (P : generic -> Prop) :
  P GNil -> (forall b, P (GBool b)) -> (forall f, P (GFloat f)) ->
  (forall s, P (GString s)) ->
  (forall l, Forall P l -> P (GSlice l)) ->
  (forall m, Forall (fun kv => P (snd kv)) m -> P (GMap m)) ->
  forall g, P g.
Proof.
  intros Hnil Hbool Hfloat Hstr Hslice Hmap.
  fix IH 1. intros [| b | f | s | l | m].
  - exact Hnil.
  - apply Hbool.
  - apply Hfloat.
  - apply Hstr.
  - apply Hslice. induction l as [| x l IHl]; constructor; [apply IH | exact IHl].
  - apply Hmap. induction m as [| [k x] m IHm]; constructor; [apply IH | exact IHm].
Qed.

Lemma decode_generic_arr (l : list json) :
  decode_generic (JArr l) = (l' <- decode_elems l ;; Some (GSlice l')).
Proof. reflexivity. Qed.

Lemma decode_generic_obj (m : list (string * json)) :
  decode_generic (JObj m) = (m' <- decode_members m [] ;; Some (GMap m')).
Proof. reflexivity. Qed.

Lemma marshal_generic_slice (l : list generic) :
  marshal_generic (GSlice l) = (l' <- marshal_elems l ;; Some (JArr l')).
Proof. reflexivity. Qed.

Lemma marshal_generic_map (m : list (string * generic)) :
  marshal_generic (GMap m) = (m' <- marshal_members m ;; Some (JObj m')).
Proof. reflexivity. Qed.

Lemma wf_generic_slice (l : list generic) :
  wf_generic (GSlice l) <-> Forall wf_generic l.
Proof.
  cbn [wf_generic]. induction l as [| x l IH].
  - split; [constructor | exact (fun _ => I)].
  - rewrite IH. split.
    + intros (Hx & Hl). constructor; assumption.
    + intros H. inversion H; subst. split; assumption.
Qed.

Lemma wf_generic_map (m : list (string * generic)) :
  wf_generic (GMap m)
  <-> StronglySorted key_lt (map fst m) /\
      Forall (fun kv => ValidString (fst kv) = true /\ wf_generic (snd kv)) m.
Proof.
  cbn [wf_generic].
  assert (H : (fix all (kvs : list (string * generic)) : Prop :=
                 match kvs with
                 | [] => True
                 | (k, x) :: r => ValidString k = true /\ wf_generic x /\ all r
                 end) m
              <-> Forall (fun kv => ValidString (fst kv) = true /\ wf_generic (snd kv)) m).
  { induction m as [| [k x] m IH].
    - split; [constructor | exact (fun _ => I)].
    - rewrite IH. split.
      + intros (Hk & Hx & Hl). constructor; [split |]; assumption.
      + intros H. inversion H as [| ? ? (Hk & Hx) Hl]; subst. repeat split; assumption. }
  rewrite H. reflexivity.
Qed.

(** *** Insertion into a map *)

Lemma map_insert_append {A : Type} (k : string) (v : A) (m : list (string * A)) :
  Forall (fun k' => key_lt k' k) (map fst m) -> map_insert k v m = m ++ [(k, v)].
Proof.
  induction m as [| [k' v'] m IH]; intros H; [reflexivity |].
  inversion H as [| ? ? Hk Hm]; subst. cbn [map_insert].
  unfold key_lt in Hk. rewrite String.compare_antisym, Hk. cbn [CompOpp].
  rewrite IH by exact Hm. reflexivity.
Qed.

Lemma map_insert_perm {A : Type} (k : string) (v : A) (m : list (string * A)) :
  ~ In k (map fst m) -> Permutation (map_insert k v m) ((k, v) :: m).
Proof.
  induction m as [| [k' v'] m IH]; intros Hn; [reflexivity |].
  cbn [map_insert].
  destruct (String.compare k k') eqn:Hc.
  - exfalso. apply Hn. left. apply String.compare_eq_iff in Hc. symmetry. exact Hc.
  - reflexivity.
  - rewrite IH by (intros H; apply Hn; right; exact H). apply perm_swap.
Qed.

Lemma map_insert_Forall {A : Type} (P : string * A -> Prop) (k : string) (v : A)
    (m : list (string * A)) :
  P (k, v) -> Forall P m -> Forall P (map_insert k v m).
Proof.
  intros Hv. induction m as [| [k' v'] m IH]; intros Hm.
  - constructor; [exact Hv | constructor].
  - inversion Hm as [| ? ? Hx Hm']; subst. cbn [map_insert].
    destruct (String.compare k k').
    + constructor; assumption.
    + constructor; [exact Hv | exact Hm].
    + constructor; [exact Hx | apply IH; exact Hm'].
Qed.

(** *** A generic value written and read *)

Lemma decode_members_sorted (ms : list (string * json)) (m acc : list (string * generic)) :
  Forall2 (fun kj kg => fst kj = fst kg /\ decode_generic (snd kj) = Some (snd kg)) ms m ->
  StronglySorted key_lt (map fst (acc ++ m)) ->
  decode_members ms acc = Some (acc ++ m).
Proof.
  intros H. revert acc. induction H as [| [k j] [k' g] ms m (Hk & Hd) _ IH]; intros acc Hs.
  - rewrite app_nil_r. reflexivity.
  - cbn [fst snd] in Hk, Hd. subst k'. cbn [decode_members]. rewrite Hd. cbn [bind].
    rewrite map_insert_append.
    + rewrite (IH (acc ++ [(k, g)])).
      * rewrite <- app_assoc. reflexivity.
      * rewrite <- app_assoc. exact Hs.
    + rewrite map_app in Hs. clear IH.
      induction acc as [| [a x] acc IHa]; [constructor |].
      cbn [map app fst] in *. inversion Hs as [| ? ? Hs' Hall]; subst.
      constructor; [| apply IHa; exact Hs'].
      rewrite Forall_forall in Hall. apply Hall. apply in_or_app. right. left. reflexivity.
Qed.

Theorem generic_round_trip (g : generic) :
  wf_generic g ->
  exists j, marshal_generic g = Some j /\ decode_generic j = Some g.
Proof.
  induction g as [| b | f | s | l IH | m IH] using generic_induction; intros Hwf.
  - exists JNull. split; reflexivity.
  - exists (JBool b). split; reflexivity.
  - cbn [wf_generic] in Hwf. destruct (FormatFloat_wf f Hwf) as (n & Hn).
    exists (JNum n). cbn [marshal_generic decode_generic]. rewrite Hn. cbn [bind].
    rewrite (ParseFloat_FormatFloat f n Hwf Hn). split; reflexivity.
  - cbn [wf_generic] in Hwf. exists (JStr s). cbn [marshal_generic].
    rewrite (written_valid s Hwf). split; reflexivity.
  - apply wf_generic_slice in Hwf.
    assert (H : exists js, marshal_elems l = Some js /\ decode_elems js = Some l).
    { induction l as [| x l IHl]; [exists []; split; reflexivity |].
      inversion IH as [| ? ? Hx Hl]; subst. inversion Hwf as [| ? ? Wx Wl]; subst.
      destruct (Hx Wx) as (j & Hm & Hd). destruct (IHl Hl Wl) as (js & Hms & Hds).
      exists (j :: js). cbn [marshal_elems decode_elems].
      fold marshal_elems decode_elems.
      rewrite Hm, Hd. cbn [bind]. rewrite Hms, Hds. split; reflexivity. }
    destruct H as (js & Hm & Hd). exists (JArr js).
    rewrite marshal_generic_slice, decode_generic_arr, Hm, Hd. split; reflexivity.
  - apply wf_generic_map in Hwf. destruct Hwf as (Hs & Hwf).
    assert (H : exists ms, marshal_members m = Some ms /\
                           Forall2 (fun kj kg => fst kj = fst kg /\
                                                  decode_generic (snd kj) = Some (snd kg)) ms m).
    { clear Hs. induction m as [| [k x] m IHm]; [exists []; split; [reflexivity | constructor] |].
      inversion IH as [| ? ? Hx Hl]; subst.
      inversion Hwf as [| ? ? (Wk & Wx) Wl]; subst.
      cbn [fst snd] in Hx, Wk, Wx.
      destruct (Hx Wx) as (j & Hm & Hd). destruct (IHm Hl Wl) as (ms & Hms & Hds).
      exists ((k, j) :: ms). cbn [marshal_members]. fold marshal_members.
      rewrite Hm. cbn [bind]. rewrite Hms, (written_valid k Wk). split; [reflexivity |].
      constructor; [split; [reflexivity | exact Hd] | exact Hds]. }
    destruct H as (ms & Hm & Hd). exists (JObj ms).
    rewrite marshal_generic_map, decode_generic_obj, Hm. cbn [bind].
    rewrite (decode_members_sorted ms m [] Hd Hs). split; reflexivity.
Qed.
End GenericFacts.

Section ThroughGeneric.
Import Json.

(** What was read into an [interface{}] can be written. *)
Lemma marshal_members_Forall (m : list (string * generic)) :
  Forall (fun kv => exists j, marshal_generic (snd kv) = Some j) m ->
  exists ms, marshal_members m = Some ms.
Proof.
  induction m as [| [k x] m IH]; intros H; [exists []; reflexivity |].
  inversion H as [| ? ? (j & Hj) Hm]; subst. cbn [snd] in Hj.
  destruct (IH Hm) as (ms & Hms).
  exists ((written k, j) :: ms). cbn [marshal_members]. fold marshal_members.
  rewrite Hj. cbn [bind]. rewrite Hms. reflexivity.
Qed.

Lemma decode_members_Forall (P : string * generic -> Prop) (ms : list (string * json)) :
  Forall (fun kv => forall g, decode_generic (snd kv) = Some g -> P (fst kv, g)) ms ->
  forall acc m, Forall P acc -> decode_members ms acc = Some m -> Forall P m.
Proof.
  induction 1 as [| [k j] ms Hj _ IH]; intros acc m Hacc Hd.
  - cbn [decode_members] in Hd. injection Hd as <-. exact Hacc.
  - cbn [decode_members] in Hd. fold decode_members in Hd.
    destruct (decode_generic j) as [g |] eqn:Hg; [| discriminate].
    cbn [bind] in Hd. apply (IH (map_insert k g acc)); [| exact Hd].
    apply map_insert_Forall; [apply (Hj g Hg) | exact Hacc].
Qed.

Theorem decoded_generic_marshals (j : json) (g : generic) :
  decode_generic j = Some g -> exists j', marshal_generic g = Some j'.
Proof.
  revert g. induction j as [| b | n | s | l IH | m IH] using json_induction; intros g Hd.
  - injection Hd as <-. eexists; reflexivity.
  - injection Hd as <-. eexists; reflexivity.
  - cbn [decode_generic] in Hd. destruct (ParseFloat n) as [f |] eqn:Hf; [| discriminate].
    injection Hd as <-. destruct (FormatFloat_ParseFloat n f Hf) as (n' & Hn').
    exists (JNum n'). cbn [marshal_generic]. rewrite Hn'. reflexivity.
  - injection Hd as <-. eexists; reflexivity.
  - rewrite decode_generic_arr in Hd.
    destruct (decode_elems l) as [gs |] eqn:Hl; [| discriminate]. injection Hd as <-.
    assert (H : exists js, marshal_elems gs = Some js).
    { revert gs Hl. induction IH as [| x l Hx _ IHl]; intros gs Hl.
      - injection Hl as <-. exists []. reflexivity.
      - cbn [decode_elems] in Hl. fold decode_elems in Hl.
        destruct (decode_generic x) as [g |] eqn:Hg; [| discriminate].
        destruct (decode_elems l) as [gs' |] eqn:Hgs; [| discriminate].
        injection Hl as <-. destruct (Hx g eq_refl) as (j' & Hj').
        destruct (IHl gs' eq_refl) as (js & Hjs).
        exists (j' :: js). cbn [marshal_elems]. fold marshal_elems.
        rewrite Hj'. cbn [bind]. rewrite Hjs. reflexivity. }
    destruct H as (js & Hjs). exists (JArr js).
    rewrite marshal_generic_slice, Hjs. reflexivity.
  - rewrite decode_generic_obj in Hd.
    destruct (decode_members m []) as [gm |] eqn:Hm; [| discriminate]. injection Hd as <-.
    assert (H : Forall (fun kv => exists j, marshal_generic (snd kv) = Some j) gm).
    { apply (decode_members_Forall _ m) with (acc := []); [| constructor | exact Hm].
      apply Forall_impl with (2 := IH). intros [k x] Hx g Hg. cbn [snd fst] in *.
      apply Hx. exact Hg. }
    destruct (marshal_members_Forall gm H) as (ms & Hms).
    exists (JObj ms). rewrite marshal_generic_map, Hms. reflexivity.
Qed.

(** *** Documents through an [interface{}] *)

Lemma through_generic_inv (j j' : json) :
  through_generic j = Some j' ->
  exists g, decode_generic j = Some g /\ marshal_generic g = Some j'.
Proof.
  unfold through_generic. destruct (decode_generic j) as [g |]; [| discriminate].
  intros H. exists g. split; [reflexivity | exact H].
Qed.

Lemma marshal_members_perm (gm gl : list (string * generic)) :
  Permutation gm gl ->
  forall ms', marshal_members gl = Some ms' ->
  exists ms, marshal_members gm = Some ms /\ Permutation ms ms'.
Proof.
  induction 1 as [| [k x] l l' _ IH | [k x] [k' x'] l | l l' l'' _ IH1 _ IH2]; intros ms' Hm.
  - exists ms'. split; [exact Hm | reflexivity].
  - cbn [marshal_members] in *. fold marshal_members in *.
    destruct (marshal_generic x) as [j |]; [| discriminate]. cbn [bind] in *.
    destruct (marshal_members l') as [r' |] eqn:Hr'; [| discriminate].
    injection Hm as <-. destruct (IH r' eq_refl) as (r & -> & Hp).
    exists ((written k, j) :: r). split; [reflexivity | constructor; exact Hp].
  - cbn [marshal_members] in *. fold marshal_members in *.
    destruct (marshal_generic x) as [j |]; [| discriminate]. cbn [bind] in *.
    destruct (marshal_generic x') as [j' |]; [| discriminate]. cbn [bind] in *.
    destruct (marshal_members l) as [r |]; [| discriminate]. cbn [bind] in *.
    injection Hm as <-.
    exists ((written k', j') :: (written k, j) :: r).
    split; [reflexivity | apply perm_swap].
  - destruct (IH2 ms' Hm) as (ms1 & Hm1 & Hp1).
    destruct (IH1 ms1 Hm1) as (ms & Hm0 & Hp0).
    exists ms. split; [exact Hm0 | etransitivity; eassumption].
Qed.

Lemma decode_members_perm (ms ms' : list (string * json)) :
  members_through_generic ms = Some ms' ->
  Forall (fun k => ValidString k = true) (map fst ms) ->
  forall acc,
    NoDup (map fst ms) ->
    (forall k, In k (map fst ms) -> ~ In k (map fst acc)) ->
    exists gm gl,
      decode_members ms acc = Some gm /\
      Permutation gm (acc ++ gl) /\
      marshal_members gl = Some ms'.
Proof.
  revert ms'. induction ms as [| [k j] ms IH]; intros ms' Ht Hvalid acc Hnd Hdis.
  - injection Ht as <-. exists acc, []. rewrite app_nil_r.
    repeat split; reflexivity.
  - cbn [members_through_generic] in Ht.
    destruct (through_generic j) as [j' |] eqn:Hj; [| discriminate]. cbn [bind] in Ht.
    destruct (members_through_generic ms) as [r' |] eqn:Hr; [| discriminate].
    injection Ht as <-.
    destruct (through_generic_inv j j' Hj) as (g & Hd & Hm).
    cbn [map fst] in Hnd, Hvalid. inversion Hnd as [| ? ? Hk Hnd']; subst.
    inversion Hvalid as [| ? ? Hvk Hvalid']; subst.
    assert (Hka : ~ In k (map fst acc)) by (apply Hdis; left; reflexivity).
    pose proof (map_insert_perm k g acc Hka) as Hperm.
    destruct (IH r' eq_refl Hvalid' (map_insert k g acc) Hnd')
      as (gm & gl & Hdm & Hp & Hmm).
    { intros k' Hk' Hin.
      apply (Permutation_in _ (Permutation_map fst Hperm)) in Hin.
      cbn [map fst] in Hin. destruct Hin as [-> | Hin]; [contradiction |].
      apply (Hdis k'); [right; exact Hk' | exact Hin]. }
    exists gm, ((k, g) :: gl). split; [| split].
    + cbn [decode_members]. fold decode_members. rewrite Hd. exact Hdm.
    + rewrite Hp. rewrite (Permutation_app_tail gl Hperm). cbn [app].
      apply Permutation_middle.
    + cbn [marshal_members]. fold marshal_members. rewrite Hm. cbn [bind].
      rewrite Hmm, (written_valid k Hvk). reflexivity.
Qed.

(** An object with distinct keys in UTF-8 comes back with its members
    passed through, in some order. *)
Lemma through_generic_obj (ms ms' : list (string * json)) :
  NoDup (map fst ms) ->
  Forall (fun k => ValidString k = true) (map fst ms) ->
  members_through_generic ms = Some ms' ->
  exists ms'', through_generic (JObj ms) = Some (JObj ms'') /\ Permutation ms'' ms'.
Proof.
  intros Hnd Hvalid Ht.
  destruct (decode_members_perm ms ms' Ht Hvalid [] Hnd) as (gm & gl & Hd & Hp & Hm).
  { intros k _ H. exact H. }
  cbn [app] in Hp. destruct (marshal_members_perm gm gl Hp ms' Hm) as (ms'' & Hm' & Hp').
  exists ms''. split; [| exact Hp'].
  unfold through_generic. rewrite decode_generic_obj, Hd. cbn [bind].
  rewrite marshal_generic_map, Hm'. reflexivity.
Qed.

Lemma through_generic_arr (js js' : list json) :
  Forall2 (fun j j' => through_generic j = Some j') js js' ->
  through_generic (JArr js) = Some (JArr js').
Proof.
  intros H. unfold through_generic. rewrite decode_generic_arr.
  assert (Hd : exists gs, decode_elems js = Some gs /\ marshal_elems gs = Some js').
  { induction H as [| j j' js js' Hj _ (gs & Hgs & Hms)]; [exists []; split; reflexivity |].
    destruct (through_generic_inv j j' Hj) as (g & Hd & Hm).
    exists (g :: gs). cbn [decode_elems marshal_elems]. fold decode_elems marshal_elems.
    rewrite Hd, Hm. cbn [bind]. rewrite Hgs, Hms. split; reflexivity. }
  destruct Hd as (gs & -> & Hm). cbn [bind].
  rewrite marshal_generic_slice, Hm. reflexivity.
Qed.

(** What [Marshal] writes for a well-formed generic value passes
    through unchanged. *)
Lemma through_generic_marshal (g : generic) (j : json) :
  wf_generic g -> marshal_generic g = Some j -> through_generic j = Some j.
Proof.
  intros Hwf Hm. destruct (generic_round_trip g Hwf) as (j0 & Hm0 & Hd).
  rewrite Hm in Hm0. injection Hm0 as <-.
  unfold through_generic. rewrite Hd. exact Hm.
Qed.
End ThroughGeneric.

(** ** Structs decoded from objects *)

Section StructFacts.
Import Json.

Lemma existsb_eqb_In (k : string) (names : list string) :
  existsb (String.eqb k) names = true <-> In k names.
Proof.
  rewrite existsb_exists. split.
  - intros (x & Hx & He). apply String.eqb_eq in He. subst. exact Hx.
  - intros H. exists k. split; [exact H | apply String.eqb_refl].
Qed.

Lemma distinct_NoDup (names : list string) : distinct names = true <-> NoDup names.
Proof.
  induction names as [| n r IH]; cbn [distinct].
  - split; [constructor | reflexivity].
  - rewrite andb_true_iff, negb_true_iff, IH. split.
    + intros (Hn & Hr). constructor; [| exact Hr].
      intros Hin. apply existsb_eqb_In in Hin. congruence.
    + intros H. inversion H as [| ? ? Hn Hr]; subst. split; [| exact Hr].
      destruct (existsb (String.eqb n) r) eqn:E; [| reflexivity].
      apply existsb_eqb_In in E. contradiction.
Qed.

Lemma index_of_In (k : string) (names : list string) :
  In k names -> exists i, index_of (String.eqb k) names = Some i.
Proof.
  induction names as [| n r IH]; intros H; [contradiction |].
  cbn [index_of]. destruct (String.eqb_spec k n) as [-> | Hne].
  - exists O. reflexivity.
  - destruct H as [-> | H]; [contradiction |].
    destruct (IH H) as (i & ->). exists (S i). reflexivity.
Qed.

Lemma find_field_exact (fs : fields) (k : string) (i : nat) :
  index_of (String.eqb k) (field_names fs) = Some i -> find_field fs k = Some i.
Proof. intros H. unfold find_field. rewrite H. reflexivity. Qed.

Lemma assoc_None {A : Type} (k : string) (m : list (string * A)) :
  ~ In k (map fst m) -> assoc k m = None.
Proof.
  induction m as [| [k' v] m IH]; intros H; [reflexivity |].
  cbn [assoc]. destruct (String.eqb_spec k k') as [-> | _].
  - exfalso. apply H. left. reflexivity.
  - apply IH. intros Hin. apply H. right. exact Hin.
Qed.

Lemma assoc_In {A : Type} (k : string) (v : A) (m : list (string * A)) :
  NoDup (map fst m) -> (assoc k m = Some v <-> In (k, v) m).
Proof.
  induction m as [| [k' v'] m IH]; intros Hnd.
  - split; [discriminate | contradiction].
  - cbn [map fst] in Hnd. inversion Hnd as [| ? ? Hk Hnd']; subst.
    cbn [assoc]. destruct (String.eqb_spec k k') as [-> | Hne].
    + split.
      * intros H. injection H as ->. left. reflexivity.
      * intros [H | H]; [injection H as ->; reflexivity |].
        exfalso. apply Hk. apply (in_map fst) in H. exact H.
    + rewrite (IH Hnd'). split.
      * intros H. right. exact H.
      * intros [H | H]; [injection H as -> _; contradiction | exact H].
Qed.

Lemma assoc_perm {A : Type} (k : string) (m1 m2 : list (string * A)) :
  NoDup (map fst m1) -> Permutation m1 m2 -> assoc k m1 = assoc k m2.
Proof.
  intros Hnd Hp.
  assert (Hnd2 : NoDup (map fst m2)).
  { apply (Permutation_NoDup (Permutation_map fst Hp)). exact Hnd. }
  destruct (assoc k m1) as [v |] eqn:H1.
  - apply (assoc_In k v m1 Hnd) in H1. symmetry. apply (assoc_In k v m2 Hnd2).
    apply (Permutation_in _ Hp). exact H1.
  - destruct (assoc k m2) as [v |] eqn:H2; [| reflexivity].
    apply (assoc_In k v m2 Hnd2) in H2.
    apply (Permutation_in _ (Permutation_sym Hp)) in H2.
    apply (assoc_In k v m1 Hnd) in H2. congruence.
Qed.

Lemma unmarshal_by_name_ext (fs : fields) (m1 m2 : list (string * json))
    (cur : den_fields fs) :
  (forall k, In k (field_names fs) -> assoc k m1 = assoc k m2) ->
  unmarshal_by_name fs m1 cur = unmarshal_by_name fs m2 cur.
Proof.
  induction fs as [| name omit t r IH]; intros H; [reflexivity |].
  cbn [unmarshal_by_name]. rewrite (H name) by (left; reflexivity).
  rewrite (IH (snd cur)); [reflexivity |].
  intros k Hk. apply H. right. exact Hk.
Qed.

Lemma unmarshal_by_name_nil (fs : fields) (cur : den_fields fs) :
  unmarshal_by_name fs [] cur = Some cur.
Proof.
  induction fs as [| name omit t r IH]; [reflexivity |].
  cbn [unmarshal_by_name assoc bind]. rewrite IH. cbn [bind].
  destruct cur. reflexivity.
Qed.

Lemma unmarshal_by_name_skip (fs : fields) (k : string) (j : json)
    (m : list (string * json)) (cur : den_fields fs) :
  ~ In k (field_names fs) ->
  unmarshal_by_name fs ((k, j) :: m) cur = unmarshal_by_name fs m cur.
Proof.
  intros H. apply unmarshal_by_name_ext. intros k' Hk'. cbn [assoc].
  destruct (String.eqb_spec k' k) as [-> | _]; [contradiction | reflexivity].
Qed.

(** The first member of an object goes to its field, the others are
    decoded on top of that. *)
Lemma unmarshal_by_name_step (fs : fields) :
  forall (i : nat) (k : string) (j : json) (m : list (string * json))
         (cur : den_fields fs),
    NoDup (field_names fs) ->
    index_of (String.eqb k) (field_names fs) = Some i ->
    ~ In k (map fst m) ->
    unmarshal_by_name fs ((k, j) :: m) cur
    = (c <- unmarshal_field fs i cur j ;; unmarshal_by_name fs m c).
Proof.
  induction fs as [| name omit t r IH]; intros i k j m cur Hnd Hi Hk.
  - discriminate Hi.
  - cbn [field_names] in Hnd, Hi. inversion Hnd as [| ? ? Hname Hnd']; subst.
    cbn [index_of] in Hi. destruct (String.eqb_spec k name) as [-> | Hne].
    + injection Hi as <-.
      cbn [unmarshal_by_name unmarshal_field assoc]. rewrite String.eqb_refl.
      rewrite (unmarshal_by_name_skip r name j m (snd cur) Hname).
      rewrite (assoc_None name m Hk).
      destruct (unmarshal t (fst cur) j) as [v |]; reflexivity.
    + destruct (index_of (String.eqb k) (field_names r)) as [i' |] eqn:Hi'; [| discriminate].
      injection Hi as <-.
      cbn [unmarshal_by_name unmarshal_field assoc].
      destruct (String.eqb_spec name k) as [E | _]; [congruence |].
      rewrite (IH i' k j m (snd cur) Hnd' Hi' Hk).
      destruct (unmarshal_field r i' (snd cur) j) as [c' |]; cbn [bind fst snd].
      * reflexivity.
      * destruct (match assoc name m with
                  | Some j0 => unmarshal t (fst cur) j0
                  | None => Some (fst cur)
                  end); reflexivity.
Qed.

Lemma unmarshal_members_None (fs : fields) (m : list (string * json)) :
  fold_left
    (fun acc kv =>
       c <- acc ;;
       match find_field fs (fst kv) with
       | Some i => unmarshal_field fs i c (snd kv)
       | None => Some c
       end) m None = None.
Proof. induction m as [| kv m IH]; [reflexivity | exact IH]. Qed.

(** The members of an object with distinct keys, all of them names of
    fields, are decoded field by field. *)
Lemma unmarshal_members_by_name (fs : fields) (m : list (string * json)) :
  NoDup (field_names fs) ->
  NoDup (map fst m) ->
  (forall k, In k (map fst m) -> In k (field_names fs)) ->
  forall cur, unmarshal_members fs m cur = unmarshal_by_name fs m cur.
Proof.
  intros Hfs. induction m as [| [k j] m IH]; intros Hnd Hin cur.
  - rewrite unmarshal_by_name_nil. reflexivity.
  - cbn [map fst] in Hnd. inversion Hnd as [| ? ? Hk Hnd']; subst.
    destruct (index_of_In k (field_names fs)) as (i & Hi); [apply Hin; left; reflexivity |].
    rewrite (unmarshal_by_name_step fs i k j m cur Hfs Hi Hk).
    unfold unmarshal_members. cbn [fold_left bind fst snd].
    rewrite (find_field_exact fs k i Hi).
    destruct (unmarshal_field fs i cur j) as [c |]; cbn [bind].
    + apply IH; [exact Hnd' |]. intros k' Hk'. apply Hin. right. exact Hk'.
    + apply unmarshal_members_None.
Qed.

Lemma unmarshal_struct_obj (fs : fields) (cur : den_fields fs) (m : list (string * json)) :
  unmarshal (TStruct fs) cur (JObj m) = unmarshal_members fs m cur.
Proof. reflexivity. Qed.
End StructFacts.

(** ** Typed values through the codec *)

Section TypedRoundTrip.
Import Json.

(** An empty value is the zero value of its type, except a slice or
    a map of length 0 that is not nil. *)
Lemma is_empty_zero (t : ty) (x : den t) :
  match t with TSlice _ | TMapAny => False | _ => True end ->
  is_empty t x = true -> x = zero t.
Proof.
  destruct t; cbn [is_empty zero den] in *; intros Ht H; try discriminate;
    try contradiction.
  - apply String.eqb_eq. exact H.
  - destruct x; [discriminate | reflexivity].
  - apply Z.eqb_eq. exact H.
  - destruct x as [z | | |]; try discriminate. destruct z; try discriminate. reflexivity.
  - destruct x; try discriminate. reflexivity.
  - destruct x; [discriminate | reflexivity].
Qed.

Lemma wf_value_slice (t : ty) (l : list (den t)) :
  wf_value (TSlice t) (Some l) <-> Forall (wf_value t) l.
Proof.
  cbn [wf_value]. induction l as [| x l IH].
  - split; [constructor | exact (fun _ => I)].
  - rewrite IH. split.
    + intros (Hx & Hl). constructor; assumption.
    + intros H. inversion H; subst. split; assumption.
Qed.

Lemma marshal_slice_some (t : ty) (l : list (den t)) :
  marshal (TSlice t) (Some l) = (js <- marshal_slice t l ;; Some (JArr js)).
Proof. reflexivity. Qed.

Lemma unmarshal_slice_arr (t : ty) (cur : option (list (den t))) (js : list json) :
  unmarshal (TSlice t) cur (JArr js)
  = (vs <- unmarshal_slice t (match cur with Some old => old | None => [] end) js ;;
     Some (Some vs)).
Proof. reflexivity. Qed.

Lemma unmarshal_map_obj (cur : option (list (string * generic)))
    (ms : list (string * json)) :
  unmarshal TMapAny cur (JObj ms)
  = (entries <- decode_members ms (match cur with Some entries => entries | None => [] end) ;;
     Some (Some entries)).
Proof. reflexivity. Qed.

Lemma slice_round_trips (t : ty) (l : list (den t)) :
  Forall (round_trips t) l ->
  exists js js',
    marshal_slice t l = Some js /\
    Forall2 (fun j j' => through_generic j = Some j') js js' /\
    unmarshal_slice t [] js' = Some l.
Proof.
  induction 1 as [| x l (j & j' & Hm & Ht & Hu & _) _ (js & js' & Hms & Hts & Hus)].
  - exists [], []. repeat split. constructor.
  - exists (j :: js), (j' :: js'). split; [| split].
    + cbn [marshal_slice]. fold (marshal_slice t). rewrite Hm. cbn [bind].
      rewrite Hms. reflexivity.
    + constructor; assumption.
    + cbn [unmarshal_slice hd tl]. fold (unmarshal_slice t). rewrite Hu. cbn [bind].
      rewrite Hus. reflexivity.
Qed.

Lemma typed_round_trip_mutual :
  (forall t : ty, wf_ty t = true -> forall v, wf_value t v -> round_trips t v) /\
  (forall fs : fields,
      wf_fields fs = true -> NoDup (field_names fs) ->
      forall v, wf_fields_value fs v -> fields_round_trip fs v).
Proof.
  apply ty_mutual_ind.
  - (* string *)
    intros _ s Hs. cbn [wf_value] in Hs. exists (JStr s), (JStr s).
    split; [cbn [marshal]; rewrite (written_valid s Hs); reflexivity |].
    split; [| split; [reflexivity | discriminate]].
    unfold through_generic. cbn [decode_generic bind marshal_generic].
    rewrite (written_valid s Hs). reflexivity.
  - (* bool *)
    intros _ b _. exists (JBool b), (JBool b). repeat split. discriminate.
  - (* int64 *)
    intros _ z Hz. cbn [wf_value] in Hz.
    destruct (exact_int_round_trip z Hz) as (f & n & Hp & Hf & Hi & _).
    exists (JNum (LInt z)), (JNum n). split; [reflexivity |]. split; [| split].
    + unfold through_generic. cbn [decode_generic]. rewrite Hp. cbn [bind marshal_generic].
      rewrite Hf. reflexivity.
    + cbn [unmarshal]. exact Hi.
    + discriminate.
  - (* float64 *)
    intros _ f Hf. cbn [wf_value] in Hf.
    destruct (FormatFloat_wf f Hf) as (n & Hn).
    pose proof (ParseFloat_FormatFloat f n Hf Hn) as Hp.
    exists (JNum n), (JNum n). split; [| split; [| split]].
    + cbn [marshal]. rewrite Hn. reflexivity.
    + unfold through_generic. cbn [decode_generic]. rewrite Hp. cbn [bind marshal_generic].
      rewrite Hn. reflexivity.
    + cbn [unmarshal]. exact Hp.
    + discriminate.
  - (* time *)
    intros _ s Hs. cbn [wf_value] in Hs.
    exists (JStr s), (JStr s). split; [reflexivity |]. split; [| split].
    + unfold through_generic. cbn [decode_generic bind marshal_generic].
      rewrite (written_valid s (rfc3339_valid s Hs)). reflexivity.
    + cbn [unmarshal]. rewrite Hs. reflexivity.
    + discriminate.
  - (* interface *)
    intros _ g Hg. cbn [wf_value] in Hg.
    destruct (generic_round_trip g Hg) as (j & Hm & Hd).
    exists j, j. split; [exact Hm |]. split; [exact (through_generic_marshal g j Hg Hm) |].
    split; [exact Hd | discriminate].
  - (* map *)
    intros _ m Hm. cbn [wf_value] in Hm.
    destruct m as [m |].
    + destruct (generic_round_trip _ Hm) as (j & Hj & Hd).
      exists j, j. split; [exact Hj |].
      split; [exact (through_generic_marshal _ j Hm Hj) |].
      split; [| discriminate].
      rewrite marshal_generic_map in Hj.
      destruct (marshal_members m) as [ms |]; [| discriminate]. injection Hj as <-.
      rewrite decode_generic_obj in Hd. rewrite unmarshal_map_obj. cbn [zero].
      destruct (decode_members ms []) as [m' |]; [| discriminate].
      injection Hd as ->. reflexivity.
    + exists JNull, JNull. repeat split. discriminate.
  - (* slice *)
    intros t IH Hty l Hl. cbn [wf_ty] in Hty.
    destruct l as [l |].
    + apply wf_value_slice in Hl.
      assert (Hall : Forall (round_trips t) l).
      { apply Forall_impl with (2 := Hl). intros v Hv. apply IH; assumption. }
      destruct (slice_round_trips t l Hall) as (js & js' & Hm & Ht & Hu).
      exists (JArr js), (JArr js'). split; [| split; [| split]].
      * rewrite marshal_slice_some, Hm. reflexivity.
      * apply through_generic_arr. exact Ht.
      * rewrite unmarshal_slice_arr. cbn [zero]. rewrite Hu. reflexivity.
      * discriminate.
    + exists JNull, JNull. repeat split. discriminate.
  - (* pointer *)
    intros t IH Hty p Hp. cbn [wf_ty] in Hty. apply andb_true_iff in Hty.
    destruct Hty as (Hs & Hty). destruct p as [x |].
    + cbn [wf_value] in Hp. destruct (IH Hty x Hp) as (j & j' & Hm & Ht & Hu & Hobj).
      destruct (Hobj Hs) as (m & ->).
      exists j, (JObj m). split; [exact Hm |]. split; [exact Ht |].
      split; [| discriminate]. cbn [unmarshal zero]. rewrite Hu. reflexivity.
    + exists JNull, JNull. repeat split. discriminate.
  - (* struct *)
    intros fs IH Hty v Hv. cbn [wf_ty] in Hty. apply andb_true_iff in Hty.
    destruct Hty as (Hd & Hfs). apply andb_true_iff in Hd. destruct Hd as (Hd & Hnames).
    apply distinct_NoDup in Hd. cbn [wf_value] in Hv.
    destruct (IH Hfs Hd v Hv) as (ms & ms' & Hm & Ht & Hk & Hin & Hnd & Hu).
    assert (Hvalid : Forall (fun k => ValidString k = true) (map fst ms)).
    { apply Forall_forall. intros k Hk'. rewrite forallb_forall in Hnames.
      apply Hnames, Hin, Hk'. }
    destruct (through_generic_obj ms ms' Hnd Hvalid Ht) as (ms'' & Ht' & Hp).
    exists (JObj ms), (JObj ms''). split; [| split; [| split]].
    + cbn [marshal]. rewrite Hm. reflexivity.
    + exact Ht'.
    + assert (Hnd' : NoDup (map fst ms')) by (rewrite Hk; exact Hnd).
      assert (Hnd'' : NoDup (map fst ms'')).
      { apply (Permutation_NoDup (Permutation_map fst (Permutation_sym Hp))). exact Hnd'. }
      rewrite unmarshal_struct_obj. cbn [zero].
      rewrite unmarshal_members_by_name; [| exact Hd | exact Hnd'' |].
      * transitivity (unmarshal_by_name fs ms' (zero_fields fs)); [| exact Hu].
        apply unmarshal_by_name_ext. intros k _.
        apply assoc_perm; assumption.
      * intros k Hk'. apply Hin. rewrite <- Hk.
        apply (Permutation_in _ (Permutation_map fst Hp)). exact Hk'.
    + intros _. exists ms''. reflexivity.
  - (* no field *)
    intros _ _ v _. exists [], []. repeat split; try constructor.
    + intros k H. exact H.
    + destruct v. reflexivity.
  - (* a field and the rest *)
    intros name omit t IHt r IHr Hwf Hnd [x vs] (Hx & Hzero & Hvs).
    cbn [wf_fields] in Hwf. apply andb_true_iff in Hwf. destruct Hwf as (Hty & Hfs).
    cbn [field_names] in Hnd. inversion Hnd as [| ? ? Hname Hnd']; subst.
    cbn [fst snd] in Hx, Hzero, Hvs.
    destruct (IHr Hfs Hnd' vs Hvs) as (ms & ms' & Hm & Ht & Hk & Hin & Hndk & Hu).
    assert (Hnot : ~ In name (map fst ms)) by (intros H; apply Hname, Hin, H).
    destruct (omit && is_empty t x) eqn:Hom.
    + apply andb_true_iff in Hom. destruct Hom as (Ho & He).
      pose proof (Hzero Ho He) as Hz. subst omit.
      exists ms, ms'. split; [| split; [| split; [| split; [| split]]]].
      * cbn [marshal_fields fst snd]. rewrite Hm. cbn [bind andb]. rewrite He. reflexivity.
      * exact Ht.
      * exact Hk.
      * intros k H. right. apply Hin. exact H.
      * exact Hndk.
      * cbn [unmarshal_by_name zero_fields fst snd].
        rewrite assoc_None by (rewrite Hk; exact Hnot). cbn [bind].
        rewrite Hu. cbn [bind]. rewrite Hz. reflexivity.
    + destruct (IHt Hty x Hx) as (j & j' & Hmj & Htj & Huj & _).
      exists ((name, j) :: ms), ((name, j') :: ms').
      split; [| split; [| split; [| split; [| split]]]].
      * cbn [marshal_fields fst snd]. rewrite Hm. cbn [bind]. rewrite Hom, Hmj. reflexivity.
      * cbn [members_through_generic]. rewrite Htj. cbn [bind]. rewrite Ht. reflexivity.
      * cbn [map fst]. rewrite Hk. reflexivity.
      * intros k [<- | H]; [left; reflexivity | right; apply Hin; exact H].
      * cbn [map fst]. constructor; assumption.
      * cbn [unmarshal_by_name zero_fields fst snd assoc]. rewrite String.eqb_refl.
        rewrite Huj. cbn [bind].
        rewrite unmarshal_by_name_skip by exact Hname. rewrite Hu. reflexivity.
Qed.

(** A well-formed value of a well-formed type is written, passes
    through an [interface{}] and is read back unchanged. *)
Theorem typed_round_trip (t : ty) (v : den t) :
  wf_ty t = true -> wf_value t v -> round_trips t v.
Proof. intros Ht Hv. apply (proj1 typed_round_trip_mutual); assumption. Qed.
End TypedRoundTrip.

(** ** The webhook event decoder *)

Section DecoderFacts.
Import Json Webhooks Decoding.

Lemma shape_ty_wf (s : Shape) : wf_ty (shape_ty s) = true.
Proof. destruct s; reflexivity. Qed.

Lemma shape_ty_is_struct (s : Shape) : is_struct (shape_ty s) = true.
Proof. destruct s; reflexivity. Qed.

Lemma marshal_struct_obj (t : ty) (v : den t) (j : json) :
  is_struct t = true -> marshal t v = Some j -> exists ms, j = JObj ms.
Proof.
  destruct t; try discriminate. intros _. cbn [marshal].
  destruct (marshal_fields fs v) as [ms |]; [| discriminate].
  intros H. injection H as <-. exists ms. reflexivity.
Qed.

Lemma decode_generic_obj_map (ms : list (string * json)) (g : generic) :
  decode_generic (JObj ms) = Some g -> exists m, g = GMap m.
Proof.
  rewrite decode_generic_obj. destruct (decode_members ms []) as [m |]; [| discriminate].
  intros H. injection H as <-. exists m. reflexivity.
Qed.

(** The dispatch table of [parseEventData]. *)
Lemma dispatch_table :
  shape_of MessageReceived = Some SReceived /\
  shape_of NewContactMessage = Some SReceived /\
  shape_of SessionMessageSent = Some SSent /\
  shape_of TemplateMessageSent = Some SSent /\
  shape_of TemplateMessageFailed = Some SSent /\
  shape_of MessageDelivered = Some SStatus /\
  shape_of MessageRead = Some SStatus /\
  shape_of MessageReplied = Some SStatus /\
  shape_of ContactCreated = Some SContact /\
  shape_of ContactUpdated = Some SContact /\
  shape_of ChatbotStarted = Some SChatbot /\
  shape_of ChatbotStopped = Some SChatbot /\
  shape_of ChatStatusChanged = Some SChatStatus.
Proof. repeat split. Qed.

Lemma shape_of_known (t : WebhookEventType) :
  In t knownEvents <-> exists s, shape_of t = Some s.
Proof.
  split.
  - intros H. cbv [knownEvents In] in H.
    repeat (destruct H as [<- | H]; [eexists; reflexivity |]). contradiction.
  - intros (s & H). unfold shape_of in H.
    repeat match type of H with
           | context [String.eqb t ?c] =>
               destruct (String.eqb_spec t c) as [-> | _];
               [cbv [knownEvents In]; tauto |]; cbn [orb] in H
           end.
    discriminate.
Qed.

Lemma known_event_valid (t : WebhookEventType) :
  In t knownEvents -> ValidString t = true.
Proof.
  intros H. cbv [knownEvents In] in H.
  repeat (destruct H as [<- | H]; [reflexivity |]). contradiction.
Qed.

(** The event written by [Marshal] and read by [ParseWebhookEvent]. *)
Lemma parse_marshalled_event (id ts src ver : string) (t : WebhookEventType)
    (s : Shape) (d : den (shape_ty s)) (j : json) (g : generic) (j' : json) :
  ValidString id = true -> ValidString t = true -> ValidString ts = true ->
  ValidString src = true -> ValidString ver = true ->
  shape_of t = Some s ->
  marshal (shape_ty s) d = Some j ->
  decode_generic j = Some g ->
  g <> GNil ->
  marshal_generic g = Some j' ->
  unmarshal (shape_ty s) (zero (shape_ty s)) j' = Some d ->
  exists doc,
    marshal_event (mkEvent id t ts (Typed s d) src ver) = Some doc /\
    ParseWebhookEvent (Some doc) = Ok (mkEvent id t ts (Typed s d) src ver).
Proof.
  intros Vid Vt Vts Vsrc Vver Hs Hm Hd Hg Hm' Hu.
  unfold marshal_event. cbn [Data marshal_data ID Type_ Timestamp Source Version].
  rewrite (written_valid id Vid), (written_valid t Vt), (written_valid ts Vts),
    (written_valid src Vsrc), (written_valid ver Vver).
  rewrite Hm. cbn [bind]. eexists. split; [reflexivity |].
  unfold ParseWebhookEvent, Unmarshal. cbn [bind].
  assert (Henv : unmarshal WebhookEventT (zero WebhookEventT)
                   (JObj ([("id", JStr id); ("type", JStr t); ("timestamp", JStr ts);
                           ("data", j)]
                            ++ (if String.eqb src "" then [] else [("source", JStr src)])
                            ++ (if String.eqb ver "" then [] else [("version", JStr ver)])))
                 = Some (id, (t, (ts, (g, (src, (ver, tt))))))).
  { destruct (String.eqb_spec src "") as [-> | _];
      destruct (String.eqb_spec ver "") as [-> | _];
      cbn; rewrite Hd; reflexivity. }
  rewrite Henv. cbn [event_of].
  unfold parseEventData. cbn [Data Type_ marshal_data].
  rewrite Hm', Hs. unfold Unmarshal. cbn [bind]. rewrite Hu.
  destruct g; try reflexivity. contradiction.
Qed.
End DecoderFacts.

(** C6 as stated fails: the decoder reads the data of an event into an
    [interface{}] first, where every number is a [float64]; a received
    image of [2 ^ 53 + 1] bytes comes back with [2 ^ 53] bytes. *)
Lemma C6_size_beyond_float64 :
  ~ (forall (e : Webhooks.WebhookEvent) (doc : Json.json),
        In (Webhooks.Type_ e) Webhooks.knownEvents ->
        Webhooks.marshal_event e = Some doc ->
        Webhooks.ParseWebhookEvent (Some doc) = Ok e).
Proof.
  intros H.
  destruct (Webhooks.marshal_event (Decoding.image_event (2 ^ 53 + 1))) as [doc |] eqn:Hdoc;
    [| vm_compute in Hdoc; discriminate Hdoc].
  specialize (H (Decoding.image_event (2 ^ 53 + 1)) doc).
  assert (Hsize : option_map Decoding.media_size
                    (match Webhooks.ParseWebhookEvent (Some doc) with
                     | Ok e => Some e
                     | Failed _ => None
                     end) = Some (Some (2 ^ 53))).
  { vm_compute in Hdoc. injection Hdoc as <-. vm_compute. reflexivity. }
  rewrite H in Hsize.
  - vm_compute in Hsize. discriminate Hsize.
  - vm_compute. tauto.
  - exact Hdoc.
Qed.

(** Beyond [2 ^ 53] a size comes back as the shortest decimal that
    reads as the nearest [float64], and the decoding fails when that
    decimal is no [int64]. *)
Example size_comes_back_as_shortest_decimal :
  option_map Webhooks.ParseWebhookEvent
    (option_map Some (Webhooks.marshal_event (Decoding.image_event (2 ^ 60 + 1))))
  = Some (Ok (Decoding.image_event 1152921504606847000)).
Proof. vm_compute. reflexivity. Qed.

Example largest_size_fails_to_decode :
  option_map Webhooks.ParseWebhookEvent
    (option_map Some (Webhooks.marshal_event (Decoding.image_event (2 ^ 63 - 1))))
  = Some (Failed Webhooks.ErrParsingData).
Proof. vm_compute. reflexivity. Qed.

(** What the other provisos of the round trip are about: a tag list
    that is empty without being nil is left out by [omitempty] and
    comes back nil, and a byte that is not UTF-8 comes back as
    U+FFFD. *)
Example empty_tags_come_back_nil :
  option_map Webhooks.ParseWebhookEvent
    (option_map Some (Webhooks.marshal_event (Decoding.status_event "evt-1" (Some []))))
  = Some (Ok (Decoding.status_event "evt-1" None)).
Proof. vm_compute. reflexivity. Qed.

Example invalid_byte_comes_back_replaced :
  option_map Webhooks.ParseWebhookEvent
    (option_map Some
       (Webhooks.marshal_event (Decoding.status_event (String "255" "") None)))
  = Some (Ok (Decoding.status_event (String "239" (String "191" (String "189" ""))) None)).
Proof. vm_compute. reflexivity. Qed.

(** C6, amended: for each of the thirteen event types, an envelope
    whose data is the payload struct of that type, written by [Marshal]
    and read by [ParseWebhookEvent], comes back with the same field
    values, provided that the strings of the envelope and of the
    payload are valid UTF-8, the integers of the payload are below
    [2 ^ 53] in absolute value, its floating-point numbers are finite,
    its optional slices and maps are nil when they are empty, and its
    free-form values are generic JSON values. *)
Theorem C6_round_trip (id ts src ver : string) (t : Webhooks.WebhookEventType)
    (s : Webhooks.Shape) (d : Json.den (Webhooks.shape_ty s)) :
  In t Webhooks.knownEvents ->
  Webhooks.shape_of t = Some s ->
  Json.ValidString id = true ->
  Json.ValidString ts = true ->
  Json.ValidString src = true ->
  Json.ValidString ver = true ->
  Json.wf_value (Webhooks.shape_ty s) d ->
  exists doc,
    Webhooks.marshal_event (Webhooks.mkEvent id t ts (Webhooks.Typed s d) src ver)
    = Some doc /\
    Webhooks.ParseWebhookEvent (Some doc)
    = Ok (Webhooks.mkEvent id t ts (Webhooks.Typed s d) src ver).
Proof.
  intros Hknown Hs Vid Vts Vsrc Vver Hwf.
  destruct (typed_round_trip (Webhooks.shape_ty s) d (shape_ty_wf s) Hwf)
    as (j & j' & Hm & Ht & Hu & _).
  destruct (through_generic_inv j j' Ht) as (g & Hd & Hm').
  destruct (marshal_struct_obj _ d j (shape_ty_is_struct s) Hm) as (ms & ->).
  destruct (decode_generic_obj_map ms g Hd) as (m & ->).
  apply (parse_marshalled_event id ts src ver t s d (Json.JObj ms) (Json.GMap m) j');
    try assumption.
  - apply known_event_valid. exact Hknown.
  - discriminate.
Qed.

Lemma C6_round_trip_witness :
  exists doc,
    Webhooks.marshal_event (Decoding.image_event 1024) = Some doc /\
    Webhooks.ParseWebhookEvent (Some doc) = Ok (Decoding.image_event 1024).
Proof.
  apply (C6_round_trip "evt-1" "2024-01-01T00:00:00Z" "wati" "1.0"
           Webhooks.MessageReceived Webhooks.SReceived (Decoding.image_message 1024)).
  - left. reflexivity.
  - reflexivity.
  - reflexivity.
  - reflexivity.
  - reflexivity.
  - reflexivity.
  - cbn. unfold Json.exact_int.
    repeat split; try lia; intros _ H; first [reflexivity | discriminate H].
Defined.

Section EnvelopeFacts.
Import Json Webhooks Decoding.

Lemma event_of_Data (v : den WebhookEventT) :
  Data (event_of v) = Untyped (envelope_data v).
Proof. destruct v as (id & t & ts & g & src & ver & u). reflexivity. Qed.

(** The data of a decoded envelope is nil or was read by the generic
    decoder, so it can be written again. *)
Lemma envelope_field_marshals (i : nat) (c c' : den WebhookEventT) (x : json) :
  unmarshal_field (mk_fields [req "id" TString; req "type" TString; req "timestamp" TString;
                              req "data" TAny; opt "source" TString; opt "version" TString])
                  i c x = Some c' ->
  (exists j, marshal_generic (envelope_data c) = Some j) ->
  exists j, marshal_generic (envelope_data c') = Some j.
Proof.
  destruct c as (id & t & ts & g & src & ver & u).
  intros H Hc. unfold envelope_data in *. cbn [fst snd] in *.
  destruct i as [| [| [| [| [| [| i]]]]]]; cbn in H.
  - destruct x; cbn in H; try discriminate; injection H as <-; exact Hc.
  - destruct x; cbn in H; try discriminate; injection H as <-; exact Hc.
  - destruct x; cbn in H; try discriminate; injection H as <-; exact Hc.
  - destruct (decode_generic x) as [g' |] eqn:Hg; cbn [bind] in H; [| discriminate].
    injection H as <-. cbn [fst snd]. exact (decoded_generic_marshals x g' Hg).
  - destruct x; cbn in H; try discriminate; injection H as <-; exact Hc.
  - destruct x; cbn in H; try discriminate; injection H as <-; exact Hc.
  - injection H as <-. exact Hc.
Qed.

Lemma envelope_members_marshal (m : list (string * json)) :
  forall (acc : option (den WebhookEventT)) (c' : den WebhookEventT),
    (forall c, acc = Some c -> exists j, marshal_generic (envelope_data c) = Some j) ->
    fold_left
      (fun acc kv =>
         c <- acc ;;
         match find_field (mk_fields [req "id" TString; req "type" TString;
                                      req "timestamp" TString; req "data" TAny;
                                      opt "source" TString; opt "version" TString])
                          (fst kv) with
         | Some i =>
             unmarshal_field (mk_fields [req "id" TString; req "type" TString;
                                         req "timestamp" TString; req "data" TAny;
                                         opt "source" TString; opt "version" TString])
                             i c (snd kv)
         | None => Some c
         end) m acc = Some c' ->
    exists j, marshal_generic (envelope_data c') = Some j.
Proof.
  induction m as [| kv m IH]; intros acc c' Hacc H.
  - cbn [fold_left] in H. apply Hacc. exact H.
  - cbn [fold_left] in H. apply IH in H; [exact H |].
    intros c Hc. destruct acc as [c0 |]; [| discriminate]. cbn [bind] in Hc.
    destruct (find_field _ (fst kv)) as [i |].
    + apply (envelope_field_marshals i c0 c (snd kv) Hc). apply Hacc. reflexivity.
    + injection Hc as <-. apply Hacc. reflexivity.
Qed.

Lemma envelope_data_marshals (payload : option json) (v : den WebhookEventT) :
  Unmarshal WebhookEventT payload = Some v ->
  exists j, marshal_generic (envelope_data v) = Some j.
Proof.
  unfold Unmarshal. destruct payload as [doc |]; [| discriminate]. cbn [bind].
  destruct doc as [| b | n | s | l | m]; try discriminate.
  - intros H. injection H as <-. exists JNull. reflexivity.
  - intros H. apply (envelope_members_marshal m _ v) in H; [exact H |].
    intros c Hc. injection Hc as <-. exists JNull. reflexivity.
Qed.

Lemma shape_of_unknown (t : WebhookEventType) :
  ~ In t knownEvents -> shape_of t = None.
Proof.
  intros H. destruct (shape_of t) as [s |] eqn:Hs; [| reflexivity].
  exfalso. apply H. apply shape_of_known. exists s. exact Hs.
Qed.
End EnvelopeFacts.

(** C5 as stated fails: an event of a known type that carries no data
    is returned with its data nil, not with the payload struct of its
    type. *)
Lemma C5_no_data_stays_nil :
  ~ (forall (payload : option Json.json) (e : Webhooks.WebhookEvent) (s : Webhooks.Shape),
        Webhooks.ParseWebhookEvent payload = Ok e ->
        Webhooks.shape_of (Webhooks.Type_ e) = Some s ->
        exists d, Webhooks.Data e = Webhooks.Typed s d).
Proof.
  intros H.
  destruct (H (Some (Json.JObj [("id", Json.JStr "evt-2");
                                ("type", Json.JStr "message_received")]))
              (Webhooks.mkEvent "evt-2" "message_received" ""
                                (Webhooks.Untyped Json.GNil) "" "")
              Webhooks.SReceived eq_refl eq_refl) as (d & Hd).
  discriminate Hd.
Qed.

(** C5, amended: the decoder fails with a decoding error, and returns
    no event, when the envelope is malformed; an event without data is
    returned as it is, its data nil, whatever its type; when there is
    data, its shape is chosen from the event type alone by the fixed
    table (received and new-contact messages, sent messages, message
    statuses, contacts, chatbots, chat status); for a type outside the
    table the data stays the generic value and there is no error; for a
    type of the table the data is decoded into the payload struct, and
    a payload that does not fit is a decoding error with no event. *)
Theorem C5_decoder (payload : option Json.json) :
  (Json.Unmarshal Webhooks.WebhookEventT payload = None ->
   Webhooks.ParseWebhookEvent payload = Failed Webhooks.ErrParsingEvent) /\
  (forall v,
      Json.Unmarshal Webhooks.WebhookEventT payload = Some v ->
      (Decoding.envelope_data v = Json.GNil ->
       Webhooks.ParseWebhookEvent payload = Ok (Webhooks.event_of v)) /\
      (Decoding.envelope_data v <> Json.GNil ->
       exists dataBytes,
         Json.marshal_generic (Decoding.envelope_data v) = Some dataBytes /\
         match Webhooks.shape_of (Webhooks.Type_ (Webhooks.event_of v)) with
         | None => Webhooks.ParseWebhookEvent payload = Ok (Webhooks.event_of v)
         | Some s =>
             match Json.Unmarshal (Webhooks.shape_ty s) (Some dataBytes) with
             | Some d =>
                 Webhooks.ParseWebhookEvent payload
                 = Ok (Webhooks.set_Data (Webhooks.event_of v) (Webhooks.Typed s d))
             | None =>
                 Webhooks.ParseWebhookEvent payload = Failed Webhooks.ErrParsingData
             end
         end)) /\
  (Webhooks.shape_of Webhooks.MessageReceived = Some Webhooks.SReceived /\
   Webhooks.shape_of Webhooks.NewContactMessage = Some Webhooks.SReceived /\
   Webhooks.shape_of Webhooks.SessionMessageSent = Some Webhooks.SSent /\
   Webhooks.shape_of Webhooks.TemplateMessageSent = Some Webhooks.SSent /\
   Webhooks.shape_of Webhooks.TemplateMessageFailed = Some Webhooks.SSent /\
   Webhooks.shape_of Webhooks.MessageDelivered = Some Webhooks.SStatus /\
   Webhooks.shape_of Webhooks.MessageRead = Some Webhooks.SStatus /\
   Webhooks.shape_of Webhooks.MessageReplied = Some Webhooks.SStatus /\
   Webhooks.shape_of Webhooks.ContactCreated = Some Webhooks.SContact /\
   Webhooks.shape_of Webhooks.ContactUpdated = Some Webhooks.SContact /\
   Webhooks.shape_of Webhooks.ChatbotStarted = Some Webhooks.SChatbot /\
   Webhooks.shape_of Webhooks.ChatbotStopped = Some Webhooks.SChatbot /\
   Webhooks.shape_of Webhooks.ChatStatusChanged = Some Webhooks.SChatStatus) /\
  (forall t, ~ In t Webhooks.knownEvents -> Webhooks.shape_of t = None).
Proof.
  split; [| split; [| split]].
  - intros H. unfold Webhooks.ParseWebhookEvent. rewrite H. reflexivity.
  - intros v Hv. unfold Webhooks.ParseWebhookEvent. rewrite Hv.
    unfold Webhooks.parseEventData. rewrite event_of_Data.
    cbn [Webhooks.marshal_data]. split.
    + intros ->. reflexivity.
    + intros Hg. destruct (envelope_data_marshals payload v Hv) as (j & Hj).
      exists j. split; [exact Hj |]. rewrite Hj.
      destruct (Decoding.envelope_data v) eqn:Hd; try contradiction;
        (destruct (Webhooks.shape_of _) as [shape |]; [| reflexivity];
         destruct (Json.Unmarshal (Webhooks.shape_ty shape) (Some j)); reflexivity).
  - exact dispatch_table.
  - exact shape_of_unknown.
Qed.

Lemma C5_decoder_witness :
  Webhooks.ParseWebhookEvent None = Failed Webhooks.ErrParsingEvent /\
  Webhooks.ParseWebhookEvent
    (Some (Json.JObj [("type", Json.JStr "order_placed");
                      ("data", Json.JObj [("total", Json.JNum (Json.LInt 3))])]))
  = Ok (Webhooks.mkEvent "" "order_placed" ""
          (Webhooks.Untyped (Json.GMap [("total", Json.GFloat (Json.FInt 3))])) "" "").
Proof.
  split.
  - apply (C5_decoder None). reflexivity.
  - destruct (C5_decoder
                (Some (Json.JObj [("type", Json.JStr "order_placed");
                                  ("data", Json.JObj [("total", Json.JNum (Json.LInt 3))])])))
      as (_ & H & _).
    destruct (H ("", ("order_placed", ("", (Json.GMap [("total", Json.GFloat (Json.FInt 3))],
                                            ("", ("", tt)))))) eq_refl) as (_ & H').
    destruct H' as (j & _ & Hp); [discriminate |]. exact Hp.
Defined.

(** ** Token rotation *)

Section RotationFacts.
Import Json Client Runs Errors.

(** A call that succeeds read its result from a response that was
    received with a status below 400 and whose body had not been
    closed. *)
Lemma DoRequest_Ok_reply (cfg : Config) (env : Env) (method endpoint : string)
    (tb : ty) (body : option (den tb)) (t : ty) (cur : den t) (out : option (den t)) :
  fst (DoRequest cfg env method endpoint tb body t (Some cur)) = Ok out ->
  exists reader k resp b v,
    encode_body tb body = Some reader /\
    0 <= k <= RetryCount cfg /\
    httpDo env k (build_request cfg method endpoint reader) = Received resp /\
    StatusCode resp < 400 /\
    ReadAll (RespBody resp) false = Ok b /\
    (j <- tree b ;; unmarshal t cur j) = Some v /\
    out = Some v.
Proof.
  unfold DoRequest.
  destruct (limiterWait env); [discriminate |].
  destruct (encode_body tb body) as [reader |]; [| discriminate].
  destruct (newRequest env); [discriminate |].
  set (req := build_request cfg method endpoint reader).
  set (op := operation method endpoint).
  destruct (Z.ltb_spec (RetryCount cfg) 0) as [Hneg | Hn].
  { replace (Z.to_nat (RetryCount cfg + 1)) with O by lia. cbn [retry_loop fst].
    discriminate. }
  destruct (retry_loop_run cfg env req op (Z.to_nat (RetryCount cfg + 1)) 0 None None)
    as (k & cnt & o & Hrun & Hk & _ & Hcases); [lia | lia |].
  rewrite Hrun.
  destruct Hcases as [(_ & _ & ->) | (_ & _ & [(e & _ & _ & ->) | [(r & Hdo & Hst & ->) | (r & Hdo & Hst & _ & ->)]])];
    cbn [fst]; try discriminate.
  - unfold after_loop.
    destruct (ReadAll (RespBody r) false) as [b | e] eqn:Hread; [| discriminate].
    unfold handle_response.
    destruct (Z.geb_spec (StatusCode r) 400) as [Hc | Hc].
    + destruct (Unmarshal apiErrorT (tree b)) as [v1 |]; [| discriminate].
      destruct (negb (String.eqb (apiError_Error v1) "")); [discriminate |].
      destruct (j <- tree b;; unmarshal apiErrorT v1 j) as [v2 |]; [| discriminate].
      destruct (negb (String.eqb (apiError_Message v2) "")); discriminate.
    + destruct (j <- tree b;; unmarshal t cur j) as [v |] eqn:Hv; [| discriminate].
      intros H. injection H as <-.
      exists reader, k, r, b, v. repeat split; try assumption; lia.
  - unfold after_loop.
    destruct (ReadAll (RespBody r) true) as [b | e]; [| discriminate].
    unfold handle_response. unfold retryable_status in Hst.
    destruct (Z.geb_spec (StatusCode r) 400) as [Hc | Hc].
    + destruct (Unmarshal apiErrorT (tree b)) as [v1 |]; [| discriminate].
      destruct (negb (String.eqb (apiError_Error v1) "")); [discriminate |].
      destruct (j <- tree b;; unmarshal apiErrorT v1 j) as [v2 |]; [| discriminate].
      destruct (negb (String.eqb (apiError_Message v2) "")); discriminate.
    + exfalso. apply negb_true_iff, andb_false_iff in Hst.
      destruct Hst as [Hst | Hst].
      * apply Z.ltb_ge in Hst. lia.
      * apply negb_false_iff, Z.eqb_eq in Hst. lia.
Qed.

(** The token of a reply whose members are named after the fields of
    [TokenResponse], each at most once: the string under "token", and
    the empty string when there is no such member. *)
Lemma TokenResponse_token_member (m : list (string * json)) (r : den TokenResponseT) :
  NoDup (map fst m) ->
  (forall key, In key (map fst m) ->
               In key ["result"; "message"; "error"; "token"; "expiresAt"]) ->
  unmarshal TokenResponseT (zero TokenResponseT) (JObj m) = Some r ->
  (forall token, assoc "token" m = Some (JStr token) -> TokenResponse_Token r = token) /\
  (assoc "token" m = None -> TokenResponse_Token r = "").
Proof.
  intros Hnd Hin Hu. unfold TokenResponseT in Hu.
  rewrite unmarshal_struct_obj in Hu.
  rewrite unmarshal_members_by_name in Hu;
    [| cbn [field_names]; repeat constructor; cbn; intuition discriminate
     | exact Hnd | exact Hin].
  cbn [unmarshal_by_name zero zero_fields fst snd] in Hu.
  destruct (match assoc "result" m with Some j => _ | None => _ end) as [v1 |];
    [| discriminate]. cbn [bind] in Hu.
  destruct (match assoc "message" m with Some j => _ | None => _ end) as [v2 |];
    [| discriminate]. cbn [bind] in Hu.
  destruct (match assoc "error" m with Some j => _ | None => _ end) as [v3 |];
    [| discriminate]. cbn [bind] in Hu.
  destruct (assoc "token" m) as [j |] eqn:Ht.
  - destruct (unmarshal TString "" j) as [v4 |] eqn:H4; [| discriminate].
    cbn [bind] in Hu.
    destruct (match assoc "expiresAt" m with Some j => _ | None => _ end) as [v5 |];
      [| discriminate]. cbn [bind] in Hu. injection Hu as <-.
    split; [| discriminate]. intros token Hj. injection Hj as ->.
    cbn in H4. injection H4 as <-. reflexivity.
  - cbn [bind] in Hu.
    destruct (match assoc "expiresAt" m with Some j => _ | None => _ end) as [v5 |];
      [| discriminate]. cbn [bind] in Hu. injection Hu as <-.
    split; [discriminate |]. reflexivity.
Qed.

End RotationFacts.


(** C10: [RotateToken] stores the token of the response in the
    configuration exactly when the call to the executor succeeds, and
    then changes nothing else; on an error of the executor it returns
    that error and leaves the configuration as it was.  The token
    stored is the one of the reply: the result was decoded from the
    body of a response received with a status below 400, and when the
    members of that body are named after the fields of the response,
    each at most once, the token stored is the string under "token",
    or the empty string when the reply has no such member. *)
Theorem C10_rotate_token (cfg : Client.Config) (env : Client.Env) :
  match Client.RotateToken cfg env with
  | (Failed e, cfg') =>
      fst (Client.DoRequest cfg env "POST" "/api/v1/rotateToken" Json.TString None
             Client.TokenResponseT (Some (Json.zero Client.TokenResponseT)))
      = Failed e /\
      cfg' = cfg
  | (Ok r, cfg') =>
      fst (Client.DoRequest cfg env "POST" "/api/v1/rotateToken" Json.TString None
             Client.TokenResponseT (Some (Json.zero Client.TokenResponseT)))
      = Ok (Some r) /\
      Client.Token cfg' = Client.TokenResponse_Token r /\
      Client.APIEndpoint cfg' = Client.APIEndpoint cfg /\
      Client.Timeout cfg' = Client.Timeout cfg /\
      Client.RetryCount cfg' = Client.RetryCount cfg /\
      Client.RateLimit cfg' = Client.RateLimit cfg /\
      Client.Debug cfg' = Client.Debug cfg /\
      exists k resp body,
        Client.httpDo env k (Client.build_request cfg "POST" "/api/v1/rotateToken" None)
        = Client.Received resp /\
        Client.StatusCode resp < 400 /\
        Client.ReadAll (Client.RespBody resp) false = Ok body /\
        Json.Unmarshal Client.TokenResponseT (Client.tree body) = Some r /\
        forall m,
          Client.tree body = Some (Json.JObj m) ->
          NoDup (map fst m) ->
          (forall key, In key (map fst m) ->
                       In key ["result"; "message"; "error"; "token"; "expiresAt"]) ->
          (forall token, Json.assoc "token" m = Some (Json.JStr token) ->
                         Client.Token cfg' = token) /\
          (Json.assoc "token" m = None -> Client.Token cfg' = "")
  end.
Proof.
  unfold Client.RotateToken.
  destruct (fst (Client.DoRequest cfg env "POST" "/api/v1/rotateToken" Json.TString None
                   Client.TokenResponseT (Some (Json.zero Client.TokenResponseT))))
    as [out | e] eqn:Hd.
  - destruct (DoRequest_Ok_reply _ _ _ _ _ _ _ _ _ Hd)
      as (reader & k & resp & b & v & He & _ & Hdo & Hst & Hread & Hv & ->).
    cbn [Client.encode_body] in He. injection He as <-.
    repeat split.
    exists k, resp, b.
    split; [exact Hdo |]. split; [exact Hst |]. split; [exact Hread |].
    split; [exact Hv |].
    intros m Hm Hnd Hin. rewrite Hm in Hv. cbn [Json.bind] in Hv.
    exact (TokenResponse_token_member m v Hnd Hin Hv).
  - split; reflexivity.
Qed.

Lemma C10_rotate_token_witness :
  Client.Token
    (snd (Client.RotateToken (Samples.config 3) (Samples.backend Samples.rotates)))
  = "tok-2".
Proof.
  pose proof (C10_rotate_token (Samples.config 3)
                (Samples.backend Samples.rotates)) as H.
  destruct (Client.RotateToken (Samples.config 3) (Samples.backend Samples.rotates))
    as [[r | e] cfg'] eqn:E.
  - destruct H as (_ & _ & _ & _ & _ & _ & _ & k & resp & body & Hdo & _ & Hread & _ & Hm).
    cbn in Hdo. injection Hdo as <-. cbn in Hread. injection Hread as <-.
    cbn [snd].
    apply (proj1 (Hm [("result", Json.JBool true); ("token", Json.JStr "tok-2");
                      ("expiresAt", Json.JStr "2025-01-01T00:00:00Z")] eq_refl
                    ltac:(repeat constructor; cbn; intuition discriminate)
                    ltac:(cbn; intuition (subst; auto)))).
    reflexivity.
  - vm_compute in E. discriminate E.
Defined.

(** ** Outcomes of the executor *)

Section OutcomeFacts.
Import Json Client Runs Errors ClientSetup.

(** A call that reaches the loop with a retry count [n >= 0] runs
    some [cnt <= n + 1] iterations; it ends in the cancellation or
    network error, or reads the response [r] of its last attempt [k],
    closed before when its status is retryable. *)
Lemma DoRequest_shape
    (cfg : Config) (env : Env) (method endpoint : string)
    (tb : ty) (body : option (den tb)) (t : ty) (result : option (den t))
    (reader : option json) :
  0 <= RetryCount cfg ->
  limiterWait env = None ->
  encode_body tb body = Some reader ->
  newRequest env = None ->
  exists cnt : nat,
    (cnt <= Z.to_nat (RetryCount cfg + 1))%nat /\
    ((exists e,
         DoRequest cfg env method endpoint tb body t result
         = (Failed e,
            EvLimiterWait
              :: flat_map (iteration env (build_request cfg method endpoint reader))
                          (zrange 0 cnt)) /\
         (e = ErrContext (ctxErr env)
          \/ exists s, e = ErrNetwork (mkNetworkError (operation method endpoint) (Some s))))
     \/
     (exists k r,
         0 <= k <= RetryCount cfg /\ cnt = Z.to_nat (k + 1) /\
         httpDo env k (build_request cfg method endpoint reader) = Received r /\
         (retryable_status (StatusCode r) = true -> k = RetryCount cfg) /\
         DoRequest cfg env method endpoint tb body t result
         = (after_loop t result r (retryable_status (StatusCode r)),
            EvLimiterWait
              :: flat_map (iteration env (build_request cfg method endpoint reader))
                          (zrange 0 cnt) ++ [EvReadAll]))).
Proof.
  intros Hn Hw Hb Hr. unfold DoRequest. rewrite Hw, Hb, Hr.
  set (req := build_request cfg method endpoint reader).
  set (op := operation method endpoint).
  destruct (retry_loop_run cfg env req op (Z.to_nat (RetryCount cfg + 1)) 0 None None)
    as (k & cnt & out & Hrun & Hk & _ & Hcases); [lia | lia |].
  rewrite Hrun. exists cnt. rewrite Z.sub_0_r in Hcases.
  destruct Hcases as [(_ & Hcnt & ->) | (_ & Hcnt & [(e & _ & _ & ->) | [(r & Hdo & Hst & ->) | (r & Hdo & Hst & Hlast & ->)]])].
  - split; [subst cnt; apply Z2Nat.inj_le; lia |].
    left. eexists. split; [reflexivity | left; reflexivity].
  - split; [subst cnt; apply Z2Nat.inj_le; lia |].
    left. eexists. split; [reflexivity | right; eexists; reflexivity].
  - split; [subst cnt; apply Z2Nat.inj_le; lia |].
    right. exists k, r. rewrite Hst.
    repeat split; try assumption; try lia.
  - split; [subst cnt; apply Z2Nat.inj_le; lia |].
    right. exists k, r. rewrite Hst.
    repeat split; try assumption; lia.
Qed.

(** A call that does not reach the loop, or has no attempt to make. *)
Lemma DoRequest_no_loop
    (cfg : Config) (env : Env) (method endpoint : string)
    (tb : ty) (body : option (den tb)) (t : ty) (result : option (den t)) :
  limiterWait env <> None \/ encode_body tb body = None \/ newRequest env <> None
  \/ RetryCount cfg < 0 ->
  snd (DoRequest cfg env method endpoint tb body t result) = [EvLimiterWait] /\
  exists e,
    fst (DoRequest cfg env method endpoint tb body t result) = Failed e /\
    match e with
    | ErrRateLimiter _ | ErrMarshalBody | ErrCreatingRequest _ | ErrNetwork _ => True
    | _ => False
    end.
Proof.
  intros H. unfold DoRequest.
  destruct (limiterWait env); [split; [reflexivity | eexists; split; [reflexivity | exact I]] |].
  destruct (encode_body tb body);
    [| split; [reflexivity | eexists; split; [reflexivity | exact I]]].
  destruct (newRequest env);
    [split; [reflexivity | eexists; split; [reflexivity | exact I]] |].
  destruct H as [H | [H | [H | H]]]; try congruence.
  replace (Z.to_nat (RetryCount cfg + 1)) with O by lia.
  cbn [retry_loop]. split; [reflexivity | eexists; split; [reflexivity | exact I]].
Qed.

Lemma after_loop_Ok (t : ty) (result : option (den t)) (r : Response) (closed : bool)
    (v : option (den t)) :
  after_loop t result r closed = Ok v -> StatusCode r < 400.
Proof.
  unfold after_loop. destruct (ReadAll (RespBody r) closed) as [b | e]; [| discriminate].
  destruct (Z.ltb_spec (StatusCode r) 400) as [H | H]; [intros _; exact H |].
  destruct (handle_response_classified t result (StatusCode r) b H) as (msg & ->).
  discriminate.
Qed.

Lemma after_loop_API (t : ty) (result : option (den t)) (r : Response) (closed : bool)
    (e : WATIError) :
  after_loop t result r closed = Failed (ErrAPI e) ->
  400 <= StatusCode r /\ Code e = StatusCode r /\ Type_ e = errorTypeOf (StatusCode r)
  /\ (closed = true -> Message e = "").
Proof.
  unfold after_loop.
  destruct (ReadAll (RespBody r) closed) as [b | e'] eqn:Hread; [| discriminate].
  destruct (Z.ltb_spec (StatusCode r) 400) as [H | H].
  - unfold handle_response. destruct (Z.geb_spec (StatusCode r) 400) as [H' | _]; [lia |].
    destruct result as [cur |]; [| discriminate].
    destruct (j <- tree b;; unmarshal t cur j); discriminate.
  - intros He. split; [exact H |].
    destruct (handle_response_classified t result (StatusCode r) b H) as (msg & Hm).
    rewrite Hm in He. injection He as <-. cbn [Code Type_ NewWATIError].
    split; [reflexivity |]. split; [reflexivity |].
    intros ->. unfold ReadAll in Hread.
    destruct (RespBody r) as [| content readErr]; [| discriminate].
    injection Hread as <-.
    rewrite (handle_response_undecodable t result (StatusCode r) (mkText "" None) H eq_refl)
      in Hm.
    injection Hm as <-. reflexivity.
Qed.

Lemma total_sleep_app (l1 l2 : list Event) :
  total_sleep (l1 ++ l2) = total_sleep l1 + total_sleep l2.
Proof.
  induction l1 as [| ev l1 IH]; cbn [app total_sleep]; [reflexivity |].
  destruct ev; rewrite IH; lia.
Qed.

Lemma total_sleep_iteration (env : Env) (req : Request) (j : Z) :
  0 <= j -> total_sleep (iteration env req j) = j.
Proof.
  intros Hj. unfold iteration. rewrite !total_sleep_app.
  destruct (Z.ltb_spec 0 j) as [H | H]; cbn [total_sleep];
    (destruct (httpDo env j req) as [e | r];
     [| destruct (retryable_status (StatusCode r))]); cbn [total_sleep]; lia.
Qed.

Lemma total_sleep_iterations (env : Env) (req : Request) (cnt : nat) (a : Z) :
  0 <= a ->
  2 * total_sleep (flat_map (iteration env req) (zrange a cnt))
  = Z.of_nat cnt * (2 * a + Z.of_nat cnt - 1).
Proof.
  revert a. induction cnt as [| c IH]; intros a Ha.
  - cbn [zrange flat_map total_sleep]. lia.
  - rewrite iterations_cons, total_sleep_app, total_sleep_iteration by lia.
    rewrite Z.mul_add_distr_l, IH by lia. lia.
Qed.

End OutcomeFacts.

(** X1: the result of a call agrees with the status of the response it
    handled: a call returns without error only for a response below
    400, received at the last attempt made; a classified API error
    carries the status of that response, which is 400 or more, and
    the category of the table for it. *)
Theorem DoRequest_result_matches_status
    (cfg : Client.Config) (env : Client.Env) (method endpoint : string)
    (tb : Json.ty) (body : option (Json.den tb)) (t : Json.ty)
    (result : option (Json.den t)) :
  match fst (Client.DoRequest cfg env method endpoint tb body t result) with
  | Ok _ =>
      exists reader k r,
        Client.encode_body tb body = Some reader /\
        last (Runs.attempts (snd (Client.DoRequest cfg env method endpoint tb body t result)))
             (-1) = k /\
        Client.httpDo env k (Client.build_request cfg method endpoint reader)
        = Client.Received r /\
        Client.StatusCode r < 400
  | Failed (Client.ErrAPI e) =>
      exists reader k r,
        Client.encode_body tb body = Some reader /\
        last (Runs.attempts (snd (Client.DoRequest cfg env method endpoint tb body t result)))
             (-1) = k /\
        Client.httpDo env k (Client.build_request cfg method endpoint reader)
        = Client.Received r /\
        Errors.Code e = Client.StatusCode r /\
        400 <= Errors.Code e /\
        Errors.Type_ e = Errors.errorTypeOf (Errors.Code e)
  | Failed _ => True
  end.
Proof.
  destruct (Z.ltb_spec (Client.RetryCount cfg) 0) as [Hneg | Hn].
  { destruct (DoRequest_no_loop cfg env method endpoint tb body t result) as (_ & e & -> & He);
      [tauto |]. destruct e; try exact I; contradiction. }
  destruct (Client.limiterWait env) as [w |] eqn:Hw.
  { destruct (DoRequest_no_loop cfg env method endpoint tb body t result) as (_ & e & -> & He);
      [left; congruence |]. destruct e; try exact I; contradiction. }
  destruct (Client.encode_body tb body) as [reader |] eqn:Hb.
  2:{ destruct (DoRequest_no_loop cfg env method endpoint tb body t result) as (_ & e & -> & He);
      [tauto |]. destruct e; try exact I; contradiction. }
  destruct (Client.newRequest env) as [w |] eqn:Hr.
  { destruct (DoRequest_no_loop cfg env method endpoint tb body t result) as (_ & e & -> & He);
      [right; right; left; congruence |]. destruct e; try exact I; contradiction. }
  destruct (DoRequest_shape cfg env method endpoint tb body t result reader Hn Hw Hb Hr)
    as (cnt & Hcnt & [(e & -> & [-> | (s & ->)]) | (k & r & Hk & -> & Hdo & _ & ->)]);
    cbn [fst snd]; try exact I.
  assert (Hlast :
            last (Runs.attempts
                    (Client.EvLimiterWait
                       :: flat_map (Runs.iteration env
                                      (Client.build_request cfg method endpoint reader))
                                   (Runs.zrange 0 (Z.to_nat (k + 1))) ++ [Client.EvReadAll]))
                 (-1) = k).
  { cbn [Runs.attempts]. rewrite attempts_app, attempts_iterations. cbn [Runs.attempts].
    rewrite app_nil_r.
    replace (Z.to_nat (k + 1)) with (S (Z.to_nat k)) by lia.
    rewrite zrange_snoc, last_last. lia. }
  destruct (Client.after_loop t result r _) as [v | e] eqn:Hafter.
  - exists reader, k, r. repeat split; try assumption.
    eapply after_loop_Ok. exact Hafter.
  - destruct e; try exact I.
    apply after_loop_API in Hafter. destruct Hafter as (H400 & Hcode & Hty & _).
    exists reader, k, r. rewrite Hcode. repeat split; try assumption.
Qed.

(** X2: a classified error with a retryable code comes back only after
    every permitted attempt was made, and it never carries a message:
    the loop has closed the body of the response by then, so only a
    response without body gets as far as the status check. *)
Theorem retryable_error_is_final_and_bare
    (cfg : Client.Config) (env : Client.Env) (method endpoint : string)
    (tb : Json.ty) (body : option (Json.den tb)) (t : Json.ty)
    (result : option (Json.den t)) (e : Errors.WATIError) :
  fst (Client.DoRequest cfg env method endpoint tb body t result)
  = Failed (Client.ErrAPI e) ->
  Errors.IsRetryable e = true ->
  Errors.Message e = "" /\
  Runs.attempts (snd (Client.DoRequest cfg env method endpoint tb body t result))
  = Runs.zrange 0 (Z.to_nat (Client.RetryCount cfg + 1)).
Proof.
  intros Hres Hretry.
  destruct (Z.ltb_spec (Client.RetryCount cfg) 0) as [Hneg | Hn].
  { destruct (DoRequest_no_loop cfg env method endpoint tb body t result) as (_ & e' & He' & Hk);
      [tauto |]. rewrite He' in Hres. injection Hres as ->. contradiction. }
  destruct (Client.limiterWait env) as [w |] eqn:Hw.
  { destruct (DoRequest_no_loop cfg env method endpoint tb body t result) as (_ & e' & He' & Hk);
      [left; congruence |]. rewrite He' in Hres. injection Hres as ->. contradiction. }
  destruct (Client.encode_body tb body) as [reader |] eqn:Hb.
  2:{ destruct (DoRequest_no_loop cfg env method endpoint tb body t result) as (_ & e' & He' & Hk);
      [tauto |]. rewrite He' in Hres. injection Hres as ->. contradiction. }
  destruct (Client.newRequest env) as [w |] eqn:Hr.
  { destruct (DoRequest_no_loop cfg env method endpoint tb body t result) as (_ & e' & He' & Hk);
      [right; right; left; congruence |].
    rewrite He' in Hres. injection Hres as ->. contradiction. }
  destruct (DoRequest_shape cfg env method endpoint tb body t result reader Hn Hw Hb Hr)
    as (cnt & Hcnt & [(e' & Hrun & [-> | (s & ->)]) | (k & r & Hk & -> & Hdo & Hlast & Hrun)]);
    rewrite Hrun in Hres |- *; cbn [fst snd] in Hres |- *; try discriminate.
  apply after_loop_API in Hres. destruct Hres as (H400 & Hcode & Hty & Hmsg).
  assert (Hst : Client.retryable_status (Client.StatusCode r) = true).
  { unfold Errors.IsRetryable in Hretry. rewrite Hcode in Hretry.
    unfold Client.retryable_status.
    destruct (Z.geb_spec (Client.StatusCode r) 500) as [H5 | H5];
      destruct (Z.eqb_spec (Client.StatusCode r) 429) as [H4 | H4];
      destruct (Z.ltb_spec (Client.StatusCode r) 500) as [H6 | H6];
      cbn in Hretry |- *; try reflexivity; try lia; discriminate. }
  split; [apply Hmsg; exact Hst |].
  rewrite (Hlast Hst). cbn [Runs.attempts].
  rewrite attempts_app, attempts_iterations. cbn [Runs.attempts]. apply app_nil_r.
Qed.

Lemma retryable_error_is_final_and_bare_witness :
  Errors.Message (Errors.mkWATIError 503 "" "server_error") = "" /\
  Runs.attempts
    (snd (Client.DoRequest (Samples.config 1)
            (Samples.backend (fun _ => Client.Received (Client.mkResponse 503 Client.NoBody)))
            "GET" "/x" Json.TString None Json.TString None))
  = Runs.zrange 0 (Z.to_nat (Client.RetryCount (Samples.config 1) + 1)).
Proof.
  apply (retryable_error_is_final_and_bare (Samples.config 1)
           (Samples.backend (fun _ => Client.Received (Client.mkResponse 503 Client.NoBody)))
           "GET" "/x" Json.TString None Json.TString None
           (Errors.mkWATIError 503 "" "server_error")).
  - vm_compute. reflexivity.
  - vm_compute. reflexivity.
Defined.

(** X3: the waits of a call add up to a triangular number: a call that
    made [a] attempts has slept [a (a - 1) / 2] seconds between them,
    and it makes at most [RetryCount + 1] attempts (none for a
    negative retry count), whatever the backend answers. *)
Theorem backoff_is_triangular
    (cfg : Client.Config) (env : Client.Env) (method endpoint : string)
    (tb : Json.ty) (body : option (Json.den tb)) (t : Json.ty)
    (result : option (Json.den t)) :
  2 * ClientSetup.total_sleep
        (snd (Client.DoRequest cfg env method endpoint tb body t result))
  = Z.of_nat (List.length
                (Runs.attempts
                   (snd (Client.DoRequest cfg env method endpoint tb body t result))))
    * (Z.of_nat (List.length
                   (Runs.attempts
                      (snd (Client.DoRequest cfg env method endpoint tb body t result))))
       - 1) /\
  Z.of_nat (List.length
              (Runs.attempts
                 (snd (Client.DoRequest cfg env method endpoint tb body t result))))
  <= Z.max 0 (Client.RetryCount cfg + 1).
Proof.
  assert (Hpre :
            Client.limiterWait env <> None \/ Client.encode_body tb body = None
            \/ Client.newRequest env <> None \/ Client.RetryCount cfg < 0 ->
            2 * ClientSetup.total_sleep
                  (snd (Client.DoRequest cfg env method endpoint tb body t result))
            = Z.of_nat (List.length
                          (Runs.attempts
                             (snd (Client.DoRequest cfg env method endpoint tb body t result))))
              * (Z.of_nat (List.length
                             (Runs.attempts
                                (snd (Client.DoRequest cfg env method endpoint tb body t
                                        result))))
                 - 1) /\
            Z.of_nat (List.length
                        (Runs.attempts
                           (snd (Client.DoRequest cfg env method endpoint tb body t result))))
            <= Z.max 0 (Client.RetryCount cfg + 1)).
  { intros H.
    destruct (DoRequest_no_loop cfg env method endpoint tb body t result H) as (-> & _).
    cbn. lia. }
  destruct (Z.ltb_spec (Client.RetryCount cfg) 0) as [Hneg | Hn]; [apply Hpre; tauto |].
  destruct (Client.limiterWait env) as [w |] eqn:Hw; [apply Hpre; left; congruence |].
  destruct (Client.encode_body tb body) as [reader |] eqn:Hb; [| apply Hpre; tauto].
  destruct (Client.newRequest env) as [w |] eqn:Hr;
    [apply Hpre; right; right; left; congruence |].
  clear Hpre.
  destruct (DoRequest_shape cfg env method endpoint tb body t result reader Hn Hw Hb Hr)
    as (cnt & Hcnt & [(e & -> & _) | (k & r & Hk & Hc & Hdo & _ & ->)]); cbn [snd].
  - cbn [Runs.attempts ClientSetup.total_sleep].
    rewrite attempts_iterations, zrange_length, total_sleep_iterations by lia.
    split; lia.
  - cbn [Runs.attempts ClientSetup.total_sleep].
    rewrite attempts_app, attempts_iterations, total_sleep_app. cbn [Runs.attempts ClientSetup.total_sleep].
    rewrite app_nil_r, zrange_length, Z.add_0_r, total_sleep_iterations by lia.
    split; lia.
Qed.

(** X4: with a negative retry count the loop body never runs: the call
    takes its rate-limiter token, sends nothing, and returns a
    NetworkError for the operation whose underlying error is nil. *)
Theorem negative_retry_count_sends_nothing
    (cfg : Client.Config) (env : Client.Env) (method endpoint : string)
    (tb : Json.ty) (body : option (Json.den tb)) (t : Json.ty)
    (result : option (Json.den t)) (reader : option Json.json) :
  Client.RetryCount cfg < 0 ->
  Client.limiterWait env = None ->
  Client.encode_body tb body = Some reader ->
  Client.newRequest env = None ->
  Client.DoRequest cfg env method endpoint tb body t result
  = (Failed (Client.ErrNetwork
               (Errors.mkNetworkError (Client.operation method endpoint) None)),
     [Client.EvLimiterWait]).
Proof.
  intros Hn Hw Hb Hr. unfold Client.DoRequest. rewrite Hw, Hb, Hr.
  replace (Z.to_nat (Client.RetryCount cfg + 1)) with O by lia.
  reflexivity.
Qed.

Lemma negative_retry_count_sends_nothing_witness :
  Client.DoRequest (ClientSetup.WithRetryCount (-1) (Samples.config 3))
    (Samples.backend Samples.fails_twice)
    "GET" "/test" Json.TString None Json.TString None
  = (Failed (Client.ErrNetwork (Errors.mkNetworkError "GET /test" None)),
     [Client.EvLimiterWait]).
Proof.
  apply (negative_retry_count_sends_nothing
           (ClientSetup.WithRetryCount (-1) (Samples.config 3))
           (Samples.backend Samples.fails_twice)
           "GET" "/test" Json.TString None Json.TString None None).
  - simpl. lia.
  - reflexivity.
  - reflexivity.
  - reflexivity.
Defined.

(** X5: checking the token: when the first answer of the server has
    status 401 and its body can be read, the check returns the
    predefined ErrInvalidToken, whatever message the server sent,
    after that single request. *)
Theorem ValidateToken_unauthorized
    (cfg : Client.Config) (env : Client.Env) (r : Client.Response) :
  0 <= Client.RetryCount cfg ->
  Client.limiterWait env = None ->
  Client.newRequest env = None ->
  Client.httpDo env 0 (Client.build_request cfg "GET" "/api/v1/chatbots" None)
  = Client.Received r ->
  Client.StatusCode r = 401 ->
  (exists b, Client.ReadAll (Client.RespBody r) false = Ok b) ->
  ClientSetup.ValidateToken cfg env
  = (Some (Client.ErrAPI ClientSetup.ErrInvalidToken),
     [Client.EvLimiterWait; Client.EvDo 0; Client.EvReadAll]).
Proof.
  intros Hn Hw Hr Hdo Hst (b & Hread).
  unfold ClientSetup.ValidateToken, Client.DoRequest. rewrite Hw, Hr.
  cbn [Client.encode_body].
  replace (Z.to_nat (Client.RetryCount cfg + 1))
    with (S (Z.to_nat (Client.RetryCount cfg))) by lia.
  cbn [Client.retry_loop].
  destruct (Z.leb_spec 0 (Client.RetryCount cfg)) as [_ | H]; [| lia].
  cbn [negb]. change (0 <? 0) with false. cbn [andb].
  rewrite Hdo, Hst.
  change ((401 <? 500) && negb (401 =? 429)) with true. cbv iota. cbn [app].
  unfold Client.after_loop. rewrite Hread, Hst.
  destruct (handle_response_classified ClientSetup.BaseResponseT
              (Some (Json.zero ClientSetup.BaseResponseT)) 401 b ltac:(lia)) as (msg & Hm).
  rewrite Hm. reflexivity.
Qed.

Lemma ValidateToken_unauthorized_witness :
  ClientSetup.ValidateToken (Samples.config 3)
    (Samples.backend
       (fun _ => Client.Received
                   (Client.mkResponse 401 (Client.Stream Samples.invalid_request_body None))))
  = (Some (Client.ErrAPI ClientSetup.ErrInvalidToken),
     [Client.EvLimiterWait; Client.EvDo 0; Client.EvReadAll]).
Proof.
  apply (ValidateToken_unauthorized (Samples.config 3)
           (Samples.backend
              (fun _ => Client.Received
                          (Client.mkResponse 401
                             (Client.Stream Samples.invalid_request_body None))))
           (Client.mkResponse 401 (Client.Stream Samples.invalid_request_body None))).
  - simpl. lia.
  - reflexivity.
  - reflexivity.
  - reflexivity.
  - reflexivity.
  - exists Samples.invalid_request_body. reflexivity.
Defined.

(** ** Construction of the client *)

Section SetupFacts.
Import Client ClientSetup.

Lemma substring_prefix (s t : string) :
  substring 0 (String.length s) (String.append s t) = s.
Proof.
  induction s as [| c s IH]; cbn [String.length String.append substring].
  - destruct t; reflexivity.
  - rewrite IH. reflexivity.
Qed.

Lemma substring_suffix (s t : string) :
  substring (String.length s) (String.length t) (String.append s t) = t.
Proof.
  induction s as [| c s IH]; cbn [String.length String.append substring].
  - induction t as [| d t IHt]; cbn [String.length substring]; [reflexivity |].
    rewrite IHt. reflexivity.
  - exact IH.
Qed.

Lemma length_append (s t : string) :
  String.length (String.append s t) = (String.length s + String.length t)%nat.
Proof. induction s as [| c s IH]; cbn [String.length String.append]; [| rewrite IH]; reflexivity. Qed.

Lemma TrimSuffix_append (s suffix : string) :
  TrimSuffix (String.append s suffix) suffix = s.
Proof.
  unfold TrimSuffix, HasSuffix. rewrite length_append.
  replace (String.length s + String.length suffix - String.length suffix)%nat
    with (String.length s) by lia.
  rewrite substring_suffix, String.eqb_refl, substring_prefix.
  destruct (Nat.leb_spec (String.length suffix) (String.length s + String.length suffix));
    [reflexivity | lia].
Qed.

Lemma provided_keeps (o : ClientOption) (c : Config) :
  provided o -> APIEndpoint (o c) = APIEndpoint c /\ Token (o c) = Token c.
Proof. intros H. destruct H; split; reflexivity. Qed.

Lemma options_keep (options : list ClientOption) (c : Config) :
  Forall provided options ->
  APIEndpoint (fold_left (fun config option => option config) options c) = APIEndpoint c /\
  Token (fold_left (fun config option => option config) options c) = Token c.
Proof.
  intros H. revert c. induction H as [| o options Ho _ IH]; intros c; cbn [fold_left].
  - split; reflexivity.
  - destruct (IH (o c)) as (-> & ->). apply provided_keeps. exact Ho.
Qed.

End SetupFacts.

(** X6: a client built for a base URL written with or without a trailing
    slash sends its requests to the same addresses: one trailing
    slash is dropped from the base, whatever options of config.go are
    passed, so the URL of a request is the base followed by the
    endpoint path, and the token is the one given. *)
Theorem NewClient_trailing_slash
    (base token : string) (options : list ClientSetup.ClientOption)
    (method endpoint : string) (reader : option Json.json) :
  ClientSetup.HasSuffix base "/" = false ->
  Forall ClientSetup.provided options ->
  Client.APIEndpoint (ClientSetup.NewClient base token options) = base /\
  Client.APIEndpoint (ClientSetup.NewClient (String.append base "/") token options) = base /\
  Client.Token (ClientSetup.NewClient (String.append base "/") token options) = token /\
  Client.URL (Client.build_request
                (ClientSetup.NewClient (String.append base "/") token options)
                method endpoint reader)
  = String.append base endpoint.
Proof.
  intros Hs Ho. unfold ClientSetup.NewClient, Client.build_request. cbn [Client.URL].
  repeat match goal with
         | |- context [fold_left ?f options ?c] =>
             let H1 := fresh in let H2 := fresh in
             destruct (options_keep options c Ho) as (H1 & H2); rewrite ?H1, ?H2;
             clear H1 H2
         end.
  cbn [Client.APIEndpoint Client.Token].
  rewrite TrimSuffix_append. unfold ClientSetup.TrimSuffix. rewrite Hs.
  repeat split; reflexivity.
Qed.

Lemma NewClient_trailing_slash_witness :
  Client.APIEndpoint
    (ClientSetup.NewClient "https://live.example" "tok"
       [ClientSetup.WithRetryCount 5; ClientSetup.WithDebug true]) = "https://live.example" /\
  Client.APIEndpoint
    (ClientSetup.NewClient (String.append "https://live.example" "/") "tok"
       [ClientSetup.WithRetryCount 5; ClientSetup.WithDebug true]) = "https://live.example" /\
  Client.Token
    (ClientSetup.NewClient (String.append "https://live.example" "/") "tok"
       [ClientSetup.WithRetryCount 5; ClientSetup.WithDebug true]) = "tok" /\
  Client.URL (Client.build_request
                (ClientSetup.NewClient (String.append "https://live.example" "/") "tok"
                   [ClientSetup.WithRetryCount 5; ClientSetup.WithDebug true])
                "GET" "/api/v1/getContacts" None)
  = String.append "https://live.example" "/api/v1/getContacts".
Proof.
  apply (NewClient_trailing_slash "https://live.example" "tok"
           [ClientSetup.WithRetryCount 5; ClientSetup.WithDebug true]
           "GET" "/api/v1/getContacts" None).
  - reflexivity.
  - repeat constructor.
Defined.

(** X7: for an error built from a status code, each predicate of the
    error holds exactly when the error has the matching category, and
    the error is retryable exactly when it is a rate-limit or a server
    error. *)
Theorem predicates_match_category (c : Z) (m : string) :
  Errors.IsAuthenticationError (Errors.NewWATIError c m)
  = String.eqb (Errors.Type_ (Errors.NewWATIError c m)) "authentication" /\
  Errors.IsAuthorizationError (Errors.NewWATIError c m)
  = String.eqb (Errors.Type_ (Errors.NewWATIError c m)) "authorization" /\
  Errors.IsNotFoundError (Errors.NewWATIError c m)
  = String.eqb (Errors.Type_ (Errors.NewWATIError c m)) "not_found" /\
  Errors.IsRateLimitError (Errors.NewWATIError c m)
  = String.eqb (Errors.Type_ (Errors.NewWATIError c m)) "rate_limit" /\
  Errors.IsServerError (Errors.NewWATIError c m)
  = String.eqb (Errors.Type_ (Errors.NewWATIError c m)) "server_error" /\
  Errors.IsRetryable (Errors.NewWATIError c m)
  = Errors.IsRateLimitError (Errors.NewWATIError c m)
    || Errors.IsServerError (Errors.NewWATIError c m).
Proof.
  unfold Errors.IsAuthenticationError, Errors.IsAuthorizationError, Errors.IsNotFoundError,
    Errors.IsRateLimitError, Errors.IsServerError, Errors.IsRetryable, Errors.NewWATIError,
    Errors.errorTypeOf, Errors.StatusBadRequest, Errors.StatusUnauthorized,
    Errors.StatusForbidden, Errors.StatusNotFound, Errors.StatusMethodNotAllowed,
    Errors.StatusTooManyRequests, Errors.StatusInternalServerError.
  cbn [Errors.Code Errors.Type_].
  destruct (Z.eqb_spec c 400) as [-> | H400]; [repeat split |].
  destruct (Z.eqb_spec c 401) as [-> | H401]; [repeat split |].
  destruct (Z.eqb_spec c 403) as [-> | H403]; [repeat split |].
  destruct (Z.eqb_spec c 404) as [-> | H404]; [repeat split |].
  destruct (Z.eqb_spec c 405) as [-> | H405]; [repeat split |].
  destruct (Z.eqb_spec c 429) as [-> | H429]; [repeat split |].
  destruct (Z.eqb_spec c 500) as [-> | H500]; [repeat split |].
  destruct (Z.geb_spec c 500) as [H5 | H5]; [repeat split; apply orb_comm |].
  destruct (Z.geb_spec c 400) as [H4 | H4]; repeat split.
Qed.

(** ** Dispatch of received webhooks *)

Section DispatchFacts.
Import Json Webhooks WebhookService WebhookDispatch.

Lemma lookup_delete (m : HandlerMap) (k t : WebhookEventType) :
  lookup (delete m k) t = if String.eqb t k then None else lookup m t.
Proof.
  induction m as [| [k' h] m IH]; cbn [delete lookup].
  - destruct (String.eqb t k); reflexivity.
  - destruct (String.eqb_spec k k') as [<- | Hk]; cbn [lookup].
    + rewrite IH. destruct (String.eqb t k); reflexivity.
    + rewrite IH. destruct (String.eqb_spec t k') as [-> | Ht]; [| reflexivity].
      destruct (String.eqb_spec k' k) as [-> | _]; [contradiction | reflexivity].
Qed.

Lemma lookup_insert (m : HandlerMap) (k t : WebhookEventType) (h : WebhookHandler) :
  lookup (insert m k h) t = if String.eqb t k then Some h else lookup m t.
Proof.
  unfold insert. cbn [lookup]. rewrite lookup_delete.
  destruct (String.eqb t k); reflexivity.
Qed.

(** A payload that parses and passes the signature check goes to the
    handler stored under the type of its event, if there is one and
    it is not nil. *)
Lemma HandleWebhook_accepted (s : WebhookServer) (payload : Client.Text)
    (signature : string) (ev : WebhookEvent) :
  ParseWebhookEvent (Client.tree payload) = Ok ev ->
  Signature.ValidateSignature (Client.raw payload) signature (Secret s) = true ->
  HandleWebhook s payload signature
  = match lookup (Handlers s) (Type_ ev) with
    | Some (Some h) =>
        mkHandled (Some ev) (option_map ErrExecutingHandler (h ev)) [(Type_ ev, ev)]
    | _ => mkHandled (Some ev) None []
    end.
Proof.
  intros Hp Hv. unfold HandleWebhook. rewrite Hp, Hv. cbn [negb].
  destruct (lookup (Handlers s) (Type_ ev)) as [[h |] |]; try reflexivity.
  destruct (h ev); reflexivity.
Qed.

Lemma HandleWebhook_rejected (s : WebhookServer) (payload : Client.Text)
    (signature : string) (ev : WebhookEvent) :
  ParseWebhookEvent (Client.tree payload) = Ok ev ->
  Signature.ValidateSignature (Client.raw payload) signature (Secret s) = false ->
  HandleWebhook s payload signature = mkHandled None (Some ErrInvalidSignature) [].
Proof. intros Hp Hv. unfold HandleWebhook. rewrite Hp, Hv. reflexivity. Qed.

(** The handler table decides the outcome of [HandleWebhook] for the
    type of the event alone. *)
Lemma HandleWebhook_ext (s s' : WebhookServer) (payload : Client.Text)
    (signature : string) :
  Secret s' = Secret s ->
  (forall ev, ParseWebhookEvent (Client.tree payload) = Ok ev ->
              lookup (Handlers s') (Type_ ev) = lookup (Handlers s) (Type_ ev)) ->
  HandleWebhook s' payload signature = HandleWebhook s payload signature.
Proof.
  intros Hs Hl. unfold HandleWebhook.
  destruct (ParseWebhookEvent (Client.tree payload)) as [ev | e]; [| reflexivity].
  rewrite Hs, (Hl ev eq_refl). reflexivity.
Qed.

Lemma Secret_step (s : WebhookServer) (op : Op) :
  match op with OpSetSecret secret => secret = "" | _ => True end ->
  Secret s = "" -> Secret (step s op) = "".
Proof.
  intros Hop Hs. destruct op as [port hs | sd | t h | t | secret]; cbn [step].
  - unfold StartWebhookServer. destruct (IsRunning s); assumption.
  - unfold StopWebhookServer. destruct (IsRunning s); cbn [negb snd]; [| assumption].
    destruct sd; assumption.
  - assumption.
  - assumption.
  - exact Hop.
Qed.

Lemma Secret_run (ops : list Op) (s : WebhookServer) :
  Forall (fun op => match op with OpSetSecret secret => secret = "" | _ => True end) ops ->
  Secret s = "" -> Secret (fold_left step ops s) = "".
Proof.
  intros H. revert s. induction H as [| op ops Hop _ IH]; intros s Hs; cbn [fold_left].
  - exact Hs.
  - apply IH, Secret_step; assumption.
Qed.

Lemma RegisterAll_lookup (events : list WebhookEventType) (h : WebhookHandler)
    (s : WebhookServer) (t : WebhookEventType) :
  lookup (Handlers (fold_left (fun s eventType => RegisterHandler s eventType h) events s)) t
  = if existsb (String.eqb t) events then Some h else lookup (Handlers s) t.
Proof.
  revert s. induction events as [| e events IH]; intros s; cbn [fold_left existsb].
  - reflexivity.
  - rewrite IH. cbn [RegisterHandler Handlers]. rewrite lookup_insert.
    destruct (existsb (String.eqb t) events); [rewrite orb_true_r; reflexivity |].
    rewrite orb_false_r. reflexivity.
Qed.

Lemma RegisterAll_state (events : list WebhookEventType) (h : WebhookHandler)
    (s : WebhookServer) :
  Secret (fold_left (fun s eventType => RegisterHandler s eventType h) events s) = Secret s /\
  IsRunning (fold_left (fun s eventType => RegisterHandler s eventType h) events s)
  = IsRunning s /\
  Port (fold_left (fun s eventType => RegisterHandler s eventType h) events s) = Port s.
Proof.
  revert s. induction events as [| e events IH]; intros s; cbn [fold_left].
  - repeat split.
  - destruct (IH (RegisterHandler s e h)) as (-> & -> & ->). repeat split.
Qed.

(** The data of a parsed event fit its type: no payload struct for a
    type outside the table, and for a type of the table nil or the
    struct of that type. *)
Lemma parsed_data_shape (payload : option json) (e : WebhookEvent) :
  ParseWebhookEvent payload = Ok e ->
  match shape_of (Type_ e) with
  | None => exists g, Data e = Untyped g
  | Some s => Data e = Untyped GNil \/ exists d, Data e = Typed s d
  end.
Proof.
  unfold ParseWebhookEvent.
  destruct (Unmarshal WebhookEventT payload) as [v |]; [| discriminate].
  unfold parseEventData. rewrite event_of_Data. cbn [marshal_data].
  assert (Hnil : shape_of (Type_ (event_of v)) = shape_of (Type_ (event_of v)) ->
                 Data (event_of v) = Untyped (Decoding.envelope_data v))
    by (intros _; apply event_of_Data).
  specialize (Hnil eq_refl).
  destruct (Decoding.envelope_data v) as [| b | f | str | l | m] eqn:Hd.
  - intros H. injection H as <-. rewrite Hnil.
    destruct (shape_of _); [left; reflexivity | eexists; reflexivity].
  - destruct (marshal_generic (GBool b)); [| discriminate].
    destruct (shape_of (Type_ (event_of v))) as [s |] eqn:Hs.
    + destruct (Unmarshal (shape_ty s) _) as [d |]; [| discriminate].
      intros H. injection H as <-. cbn [set_Data Type_ Data]. rewrite Hs.
      right. eexists. reflexivity.
    + intros H. injection H as <-. rewrite Hs, Hnil. eexists. reflexivity.
  - destruct (marshal_generic (GFloat f)); [| discriminate].
    destruct (shape_of (Type_ (event_of v))) as [s |] eqn:Hs.
    + destruct (Unmarshal (shape_ty s) _) as [d |]; [| discriminate].
      intros H. injection H as <-. cbn [set_Data Type_ Data]. rewrite Hs.
      right. eexists. reflexivity.
    + intros H. injection H as <-. rewrite Hs, Hnil. eexists. reflexivity.
  - destruct (marshal_generic (GString str)); [| discriminate].
    destruct (shape_of (Type_ (event_of v))) as [s |] eqn:Hs.
    + destruct (Unmarshal (shape_ty s) _) as [d |]; [| discriminate].
      intros H. injection H as <-. cbn [set_Data Type_ Data]. rewrite Hs.
      right. eexists. reflexivity.
    + intros H. injection H as <-. rewrite Hs, Hnil. eexists. reflexivity.
  - destruct (marshal_generic (GSlice l)); [| discriminate].
    destruct (shape_of (Type_ (event_of v))) as [s |] eqn:Hs.
    + destruct (Unmarshal (shape_ty s) _) as [d |]; [| discriminate].
      intros H. injection H as <-. cbn [set_Data Type_ Data]. rewrite Hs.
      right. eexists. reflexivity.
    + intros H. injection H as <-. rewrite Hs, Hnil. eexists. reflexivity.
  - destruct (marshal_generic (GMap m)); [| discriminate].
    destruct (shape_of (Type_ (event_of v))) as [s |] eqn:Hs.
    + destruct (Unmarshal (shape_ty s) _) as [d |]; [| discriminate].
      intros H. injection H as <-. cbn [set_Data Type_ Data]. rewrite Hs.
      right. eexists. reflexivity.
    + intros H. injection H as <-. rewrite Hs, Hnil. eexists. reflexivity.
Qed.

End DispatchFacts.

(** X8: a handler runs only on an event that was parsed from the payload
    and only after the signature check: it is the handler stored
    under the type of that event, which is not nil, it is called
    once, and under a non-empty secret the signature given is the hex
    HMAC-SHA256 of the payload. *)
Theorem handler_runs_only_after_checks
    (s : WebhookService.WebhookServer) (payload : Client.Text) (signature : string)
    (key : Webhooks.WebhookEventType) (ev : Webhooks.WebhookEvent) :
  In (key, ev)
     (WebhookDispatch.handler_calls (WebhookDispatch.HandleWebhook s payload signature)) ->
  Webhooks.ParseWebhookEvent (Client.tree payload) = Ok ev /\
  key = Webhooks.Type_ ev /\
  (exists h, WebhookService.lookup (WebhookService.Handlers s) key = Some (Some h)) /\
  (WebhookService.Secret s <> "" ->
   signature = Signature.expectedSignature (Client.raw payload) (WebhookService.Secret s)) /\
  WebhookDispatch.handler_calls (WebhookDispatch.HandleWebhook s payload signature)
  = [(key, ev)] /\
  WebhookDispatch.handled_event (WebhookDispatch.HandleWebhook s payload signature)
  = Some ev.
Proof.
  destruct (Webhooks.ParseWebhookEvent (Client.tree payload)) as [ev' | e] eqn:Hp.
  2:{ unfold WebhookDispatch.HandleWebhook. rewrite Hp. intros []. }
  destruct (Signature.ValidateSignature (Client.raw payload) signature
              (WebhookService.Secret s)) eqn:Hv.
  2:{ rewrite (HandleWebhook_rejected s payload signature ev' Hp Hv). intros []. }
  rewrite (HandleWebhook_accepted s payload signature ev' Hp Hv).
  destruct (WebhookService.lookup (WebhookService.Handlers s) (Webhooks.Type_ ev'))
    as [[h |] |] eqn:Hl;
    cbn [WebhookDispatch.handler_calls WebhookDispatch.handled_event];
    [| intros [] | intros []].
  intros [H | []]. injection H as <- <-.
  split; [reflexivity |]. split; [reflexivity |]. split; [exists h; exact Hl |].
  split; [| split; reflexivity].
  intros Hs. apply ValidateSignature_iff in Hv; assumption.
Qed.

Lemma handler_runs_only_after_checks_witness :
  Webhooks.ParseWebhookEvent
    (Some (Json.JObj [("id", Json.JStr "evt-7"); ("type", Json.JStr "order_placed")]))
  = Ok (Webhooks.mkEvent "evt-7" "order_placed" "" (Webhooks.Untyped Json.GNil) "" "") /\
  "order_placed"
  = Webhooks.Type_
      (Webhooks.mkEvent "evt-7" "order_placed" "" (Webhooks.Untyped Json.GNil) "" "").
Proof.
  destruct (handler_runs_only_after_checks
              (WebhookService.RegisterHandler WebhookService.NewService "order_placed"
                 (Some (fun _ => None)))
              (Client.mkText "payload"
                 (Some (Json.JObj [("id", Json.JStr "evt-7");
                                   ("type", Json.JStr "order_placed")])))
              "no signature" "order_placed"
              (Webhooks.mkEvent "evt-7" "order_placed" "" (Webhooks.Untyped Json.GNil) "" ""))
    as (H1 & H2 & _).
  - left. reflexivity.
  - split; [exact H1 | exact H2].
Defined.

(** X9: under a non-empty secret the signature decides: with the hex
    HMAC-SHA256 of the payload bytes the event is returned, with any
    other signature string the call returns no event, the signature
    error, and runs no handler. *)
Theorem HandleWebhook_signature_gate
    (s : WebhookService.WebhookServer) (payload : Client.Text) (signature : string)
    (ev : Webhooks.WebhookEvent) :
  WebhookService.Secret s <> "" ->
  Webhooks.ParseWebhookEvent (Client.tree payload) = Ok ev ->
  (signature = Signature.expectedSignature (Client.raw payload) (WebhookService.Secret s) ->
   WebhookDispatch.handled_event (WebhookDispatch.HandleWebhook s payload signature)
   = Some ev) /\
  (signature <> Signature.expectedSignature (Client.raw payload) (WebhookService.Secret s) ->
   WebhookDispatch.HandleWebhook s payload signature
   = WebhookDispatch.mkHandled None (Some WebhookDispatch.ErrInvalidSignature) []).
Proof.
  intros Hs Hp. split.
  - intros Hsig. apply (ValidateSignature_iff _ _ _ Hs) in Hsig.
    rewrite (HandleWebhook_accepted s payload signature ev Hp Hsig).
    destruct (WebhookService.lookup _ _) as [[h |] |]; reflexivity.
  - intros Hsig. apply HandleWebhook_rejected with (ev := ev); [exact Hp |].
    destruct (Signature.ValidateSignature _ _ _) eqn:Hv; [| reflexivity].
    apply (ValidateSignature_iff _ _ _ Hs) in Hv. contradiction.
Qed.

Lemma HandleWebhook_signature_gate_witness :
  WebhookDispatch.HandleWebhook
    (WebhookService.SetSecret WebhookService.NewService "key")
    (Client.mkText "payload"
       (Some (Json.JObj [("id", Json.JStr "evt-7"); ("type", Json.JStr "order_placed")])))
    "00"
  = WebhookDispatch.mkHandled None (Some WebhookDispatch.ErrInvalidSignature) [].
Proof.
  apply (HandleWebhook_signature_gate
           (WebhookService.SetSecret WebhookService.NewService "key")
           (Client.mkText "payload"
              (Some (Json.JObj [("id", Json.JStr "evt-7");
                                ("type", Json.JStr "order_placed")])))
           "00"
           (Webhooks.mkEvent "evt-7" "order_placed" "" (Webhooks.Untyped Json.GNil) "" "")).
  - discriminate.
  - reflexivity.
  - intros H. vm_compute in H. discriminate H.
Defined.

(** X10: a service whose secret was never set to a non-empty string checks
    no signature: whatever was started, stopped or registered on it,
    the outcome of handling a payload does not depend on the
    signature given, and is never the signature error. *)
Theorem unsigned_by_default
    (ops : list WebhookService.Op) (payload : Client.Text) (sig1 sig2 : string) :
  Forall (fun op => match op with
                    | WebhookService.OpSetSecret secret => secret = ""
                    | _ => True
                    end) ops ->
  WebhookDispatch.HandleWebhook (WebhookService.run ops) payload sig1
  = WebhookDispatch.HandleWebhook (WebhookService.run ops) payload sig2 /\
  WebhookDispatch.handled_error
    (WebhookDispatch.HandleWebhook (WebhookService.run ops) payload sig1)
  <> Some WebhookDispatch.ErrInvalidSignature.
Proof.
  intros Hops.
  assert (Hs : WebhookService.Secret (WebhookService.run ops) = "")
    by (apply Secret_run; [exact Hops | reflexivity]).
  unfold WebhookDispatch.HandleWebhook. rewrite Hs.
  destruct (Webhooks.ParseWebhookEvent (Client.tree payload)) as [ev | e].
  - cbn [Signature.ValidateSignature String.eqb negb].
    split; [reflexivity |].
    destruct (WebhookService.lookup _ _) as [[h |] |]; [destruct (h ev) | |];
      discriminate.
  - split; [reflexivity | discriminate].
Qed.

Lemma unsigned_by_default_witness :
  WebhookDispatch.HandleWebhook
    (WebhookService.run [WebhookService.OpStart 8080 None; WebhookService.OpSetSecret ""])
    (Client.mkText "payload" None) "a"
  = WebhookDispatch.HandleWebhook
      (WebhookService.run [WebhookService.OpStart 8080 None; WebhookService.OpSetSecret ""])
      (Client.mkText "payload" None) "b" /\
  WebhookDispatch.handled_error
    (WebhookDispatch.HandleWebhook
       (WebhookService.run [WebhookService.OpStart 8080 None; WebhookService.OpSetSecret ""])
       (Client.mkText "payload" None) "a")
  <> Some WebhookDispatch.ErrInvalidSignature.
Proof.
  apply (unsigned_by_default
           [WebhookService.OpStart 8080 None; WebhookService.OpSetSecret ""]
           (Client.mkText "payload" None) "a" "b").
  repeat constructor.
Defined.

(** X11: registering and unregistering handlers: an accepted event of type
    [t] goes to the handler registered last for [t]; when that
    handler is not nil it is called once with the event and its error
    comes back with the event, and when it is nil the event is
    returned with no handler called and no error, as it is after the
    handler of [t] is unregistered; and neither operation changes
    what happens to the events of other types. *)
Theorem handler_registration_dispatch
    (s : WebhookService.WebhookServer) (t : Webhooks.WebhookEventType)
    (h : WebhookService.WebhookHandler) (payload : Client.Text) (signature : string)
    (ev : Webhooks.WebhookEvent) :
  Webhooks.ParseWebhookEvent (Client.tree payload) = Ok ev ->
  Signature.ValidateSignature (Client.raw payload) signature (WebhookService.Secret s)
  = true ->
  (Webhooks.Type_ ev = t ->
   WebhookDispatch.HandleWebhook (WebhookService.RegisterHandler s t h) payload signature
   = match h with
     | Some handler =>
         WebhookDispatch.mkHandled (Some ev)
           (option_map WebhookDispatch.ErrExecutingHandler (handler ev)) [(t, ev)]
     | None => WebhookDispatch.mkHandled (Some ev) None []
     end /\
   WebhookDispatch.HandleWebhook (WebhookService.UnregisterHandler s t) payload signature
   = WebhookDispatch.mkHandled (Some ev) None []) /\
  (Webhooks.Type_ ev <> t ->
   WebhookDispatch.HandleWebhook (WebhookService.RegisterHandler s t h) payload signature
   = WebhookDispatch.HandleWebhook s payload signature /\
   WebhookDispatch.HandleWebhook (WebhookService.UnregisterHandler s t) payload signature
   = WebhookDispatch.HandleWebhook s payload signature).
Proof.
  intros Hp Hv. split.
  - intros Ht. split.
    + rewrite (HandleWebhook_accepted (WebhookService.RegisterHandler s t h) payload
                 signature ev Hp Hv).
      cbn [WebhookService.RegisterHandler WebhookService.Handlers].
      rewrite lookup_insert, Ht, String.eqb_refl. destruct h; reflexivity.
    + rewrite (HandleWebhook_accepted (WebhookService.UnregisterHandler s t) payload
                 signature ev Hp Hv).
      cbn [WebhookService.UnregisterHandler WebhookService.Handlers].
      rewrite lookup_delete, Ht, String.eqb_refl. reflexivity.
  - intros Ht. split; apply HandleWebhook_ext; try reflexivity;
      intros ev' Hp'; rewrite Hp in Hp'; injection Hp' as <-.
    + cbn [WebhookService.RegisterHandler WebhookService.Handlers].
      rewrite lookup_insert.
      destruct (String.eqb_spec (Webhooks.Type_ ev) t); [contradiction | reflexivity].
    + cbn [WebhookService.UnregisterHandler WebhookService.Handlers].
      rewrite lookup_delete.
      destruct (String.eqb_spec (Webhooks.Type_ ev) t); [contradiction | reflexivity].
Qed.

Lemma handler_registration_dispatch_witness :
  WebhookDispatch.HandleWebhook
    (WebhookService.RegisterHandler WebhookService.NewService "order_placed"
       (Some (fun _ => Some "refused")))
    (Client.mkText "payload"
       (Some (Json.JObj [("id", Json.JStr "evt-7"); ("type", Json.JStr "order_placed")])))
    "any"
  = WebhookDispatch.mkHandled
      (Some (Webhooks.mkEvent "evt-7" "order_placed" "" (Webhooks.Untyped Json.GNil) "" ""))
      (Some (WebhookDispatch.ErrExecutingHandler "refused"))
      [("order_placed",
        Webhooks.mkEvent "evt-7" "order_placed" "" (Webhooks.Untyped Json.GNil) "" "")] /\
  WebhookDispatch.HandleWebhook
    (WebhookService.RegisterHandler WebhookService.NewService "order_placed" None)
    (Client.mkText "payload"
       (Some (Json.JObj [("id", Json.JStr "evt-7"); ("type", Json.JStr "order_placed")])))
    "any"
  = WebhookDispatch.mkHandled
      (Some (Webhooks.mkEvent "evt-7" "order_placed" "" (Webhooks.Untyped Json.GNil) "" ""))
      None [].
Proof.
  split.
  - destruct (handler_registration_dispatch WebhookService.NewService "order_placed"
                (Some (fun _ => Some "refused"))
                (Client.mkText "payload"
                   (Some (Json.JObj [("id", Json.JStr "evt-7");
                                     ("type", Json.JStr "order_placed")])))
                "any"
                (Webhooks.mkEvent "evt-7" "order_placed" "" (Webhooks.Untyped Json.GNil) "" "")
                eq_refl eq_refl) as (H & _).
    exact (proj1 (H eq_refl)).
  - destruct (handler_registration_dispatch WebhookService.NewService "order_placed"
                None
                (Client.mkText "payload"
                   (Some (Json.JObj [("id", Json.JStr "evt-7");
                                     ("type", Json.JStr "order_placed")])))
                "any"
                (Webhooks.mkEvent "evt-7" "order_placed" "" (Webhooks.Untyped Json.GNil) "" "")
                eq_refl eq_refl) as (H & _).
    exact (proj1 (H eq_refl)).
Defined.

(** X12: one handler for all events: after RegisterAllEventHandlers the
    handler is the one stored under each of the thirteen event types
    a webhook can be registered for, the handlers stored under other
    keys are as before, and the secret, the port and the running flag
    are unchanged. *)
Theorem RegisterAllEventHandlers_covers
    (s : WebhookService.WebhookServer) (h : WebhookService.WebhookHandler)
    (t : Webhooks.WebhookEventType) :
  WebhookService.lookup
    (WebhookService.Handlers (WebhookDispatch.RegisterAllEventHandlers s h)) t
  = (if WebhookService.validEvents t then Some h
     else WebhookService.lookup (WebhookService.Handlers s) t) /\
  WebhookService.Secret (WebhookDispatch.RegisterAllEventHandlers s h)
  = WebhookService.Secret s /\
  WebhookService.IsRunning (WebhookDispatch.RegisterAllEventHandlers s h)
  = WebhookService.IsRunning s /\
  WebhookService.Port (WebhookDispatch.RegisterAllEventHandlers s h)
  = WebhookService.Port s.
Proof.
  unfold WebhookDispatch.RegisterAllEventHandlers. split.
  - rewrite RegisterAll_lookup. reflexivity.
  - apply RegisterAll_state.
Qed.

(** X13: the message handlers and the parser: after RegisterMessageHandlers
    with a function for received messages, an accepted event of type
    message_received or new_contact_message reaches the handler
    built from that function; when the event carries data the
    function gets the decoded MessageReceivedData and its error is
    the one returned, and when the event carries no data the function
    is not called and the call fails with the invalid-data-type error
    of the handler, the event being returned all the same. *)
Theorem RegisterMessageHandlers_dispatch
    (s : WebhookService.WebhookServer)
    (onMessageReceived : Json.den Webhooks.MessageReceivedData -> option string)
    (onMessageDelivered onMessageRead :
       option (Json.den Webhooks.MessageStatusData -> option string))
    (payload : Client.Text) (signature : string) (ev : Webhooks.WebhookEvent) :
  Webhooks.ParseWebhookEvent (Client.tree payload) = Ok ev ->
  Signature.ValidateSignature (Client.raw payload) signature (WebhookService.Secret s)
  = true ->
  Webhooks.Type_ ev = Webhooks.MessageReceived
  \/ Webhooks.Type_ ev = Webhooks.NewContactMessage ->
  (Webhooks.Data ev = Webhooks.Untyped Json.GNil /\
   WebhookDispatch.HandleWebhook
     (WebhookDispatch.RegisterMessageHandlers s (Some onMessageReceived)
        onMessageDelivered onMessageRead) payload signature
   = WebhookDispatch.mkHandled (Some ev)
       (Some (WebhookDispatch.ErrExecutingHandler "invalid data type for message event"))
       [(Webhooks.Type_ ev, ev)])
  \/
  (exists data,
      Webhooks.Data ev = Webhooks.Typed Webhooks.SReceived data /\
      WebhookDispatch.HandleWebhook
        (WebhookDispatch.RegisterMessageHandlers s (Some onMessageReceived)
           onMessageDelivered onMessageRead) payload signature
      = WebhookDispatch.mkHandled (Some ev)
          (option_map WebhookDispatch.ErrExecutingHandler (onMessageReceived data))
          [(Webhooks.Type_ ev, ev)]).
Proof.
  intros Hp Hv Ht.
  assert (Hsecret :
            WebhookService.Secret
              (WebhookDispatch.RegisterMessageHandlers s (Some onMessageReceived)
                 onMessageDelivered onMessageRead) = WebhookService.Secret s).
  { unfold WebhookDispatch.RegisterMessageHandlers.
    destruct onMessageDelivered, onMessageRead; reflexivity. }
  assert (Hl :
            WebhookService.lookup
              (WebhookService.Handlers
                 (WebhookDispatch.RegisterMessageHandlers s (Some onMessageReceived)
                    onMessageDelivered onMessageRead)) (Webhooks.Type_ ev)
            = Some (WebhookDispatch.CreateMessageHandler onMessageReceived)).
  { unfold WebhookDispatch.RegisterMessageHandlers.
    destruct onMessageDelivered, onMessageRead;
      cbn [WebhookService.RegisterHandler WebhookService.Handlers];
      rewrite ?lookup_insert; destruct Ht as [-> | ->]; reflexivity. }
  rewrite <- Hsecret in Hv.
  rewrite (HandleWebhook_accepted _ payload signature ev Hp Hv), Hl.
  assert (Hshape : Webhooks.shape_of (Webhooks.Type_ ev) = Some Webhooks.SReceived)
    by (destruct Ht as [-> | ->]; reflexivity).
  pose proof (parsed_data_shape _ _ Hp) as Hd. rewrite Hshape in Hd.
  destruct Hd as [Hd | (data & Hd)].
  - left. split; [exact Hd |].
    unfold WebhookDispatch.CreateMessageHandler. rewrite Hd. reflexivity.
  - right. exists data. split; [exact Hd |].
    unfold WebhookDispatch.CreateMessageHandler. rewrite Hd. reflexivity.
Qed.

Lemma RegisterMessageHandlers_dispatch_witness :
  (Webhooks.Data
     (Webhooks.mkEvent "evt-2" "message_received" "" (Webhooks.Untyped Json.GNil) "" "")
   = Webhooks.Untyped Json.GNil /\
   WebhookDispatch.HandleWebhook
     (WebhookDispatch.RegisterMessageHandlers WebhookService.NewService
        (Some (fun _ => None)) None None)
     (Client.mkText "payload"
        (Some (Json.JObj [("id", Json.JStr "evt-2");
                          ("type", Json.JStr "message_received")])))
     "any"
   = WebhookDispatch.mkHandled
       (Some (Webhooks.mkEvent "evt-2" "message_received" ""
                (Webhooks.Untyped Json.GNil) "" ""))
       (Some (WebhookDispatch.ErrExecutingHandler "invalid data type for message event"))
       [(Webhooks.Type_
           (Webhooks.mkEvent "evt-2" "message_received" ""
              (Webhooks.Untyped Json.GNil) "" ""),
         Webhooks.mkEvent "evt-2" "message_received" "" (Webhooks.Untyped Json.GNil) "" "")])
  \/
  (exists data,
      Webhooks.Data
        (Webhooks.mkEvent "evt-2" "message_received" "" (Webhooks.Untyped Json.GNil) "" "")
      = Webhooks.Typed Webhooks.SReceived data /\
      WebhookDispatch.HandleWebhook
        (WebhookDispatch.RegisterMessageHandlers WebhookService.NewService
           (Some (fun _ => None)) None None)
        (Client.mkText "payload"
           (Some (Json.JObj [("id", Json.JStr "evt-2");
                             ("type", Json.JStr "message_received")])))
        "any"
      = WebhookDispatch.mkHandled
          (Some (Webhooks.mkEvent "evt-2" "message_received" ""
                   (Webhooks.Untyped Json.GNil) "" ""))
          (option_map WebhookDispatch.ErrExecutingHandler ((fun _ => None) data))
          [(Webhooks.Type_
              (Webhooks.mkEvent "evt-2" "message_received" ""
                 (Webhooks.Untyped Json.GNil) "" ""),
            Webhooks.mkEvent "evt-2" "message_received" ""
              (Webhooks.Untyped Json.GNil) "" "")]).
Proof.
  apply (RegisterMessageHandlers_dispatch WebhookService.NewService (fun _ => None) None None
           (Client.mkText "payload"
              (Some (Json.JObj [("id", Json.JStr "evt-2");
                                ("type", Json.JStr "message_received")])))
           "any"
           (Webhooks.mkEvent "evt-2" "message_received" "" (Webhooks.Untyped Json.GNil) "" "")).
  - reflexivity.
  - reflexivity.
  - left. reflexivity.
Defined.

(** X14: the replies of the receiver: it never dereferences a nil event;
    it answers 200 with the id and the type of the event exactly for
    a POST whose body was read, parsed and accepted by the signature
    check, with the signature of X-Webhook-Signature or, when that
    header is empty, of X-Hub-Signature-256, and whose handler, if
    there is one that is not nil, returned no error; it answers 405 to any other method
    without reading the body, and 400 in every other case. *)
Theorem receiver_replies
    (s : WebhookService.WebhookServer) (now : string) (r : WebhookDispatch.HTTPRequest) :
  match fst (WebhookDispatch.handleWebhookRequest s now r) with
  | WebhookDispatch.ReplyJSON code response =>
      code = 200 /\
      WebhookDispatch.ReqMethod r = "POST" /\
      exists body ev,
        WebhookDispatch.ReqBody r = Ok body /\
        Webhooks.ParseWebhookEvent (Client.tree body) = Ok ev /\
        Signature.ValidateSignature (Client.raw body) (WebhookDispatch.request_signature r)
          (WebhookService.Secret s) = true /\
        match WebhookService.lookup (WebhookService.Handlers s) (Webhooks.Type_ ev) with
        | Some (Some h) => h ev = None
        | _ => True
        end /\
        response = [("status", Json.GString "success");
                    ("eventId", Json.GString (Webhooks.ID ev));
                    ("eventType", Json.GString (Webhooks.Type_ ev));
                    ("timestamp", Json.GString now)]
  | WebhookDispatch.ReplyError msg code =>
      (code = 405 /\ WebhookDispatch.ReqMethod r <> "POST" /\
       snd (WebhookDispatch.handleWebhookRequest s now r) = [])
      \/
      (code = 400 /\ WebhookDispatch.ReqMethod r = "POST" /\
       match WebhookDispatch.ReqBody r with
       | Failed _ => True
       | Ok body =>
           WebhookDispatch.handled_error
             (WebhookDispatch.HandleWebhook s body (WebhookDispatch.request_signature r))
           <> None
       end)
  | WebhookDispatch.ReplyPanic => False
  end.
Proof.
  unfold WebhookDispatch.handleWebhookRequest.
  destruct (String.eqb_spec (WebhookDispatch.ReqMethod r) "POST") as [Hm | Hm]; cbn [negb].
  2:{ cbn [fst snd]. left. repeat split. exact Hm. }
  destruct (WebhookDispatch.ReqBody r) as [body | e] eqn:Hb.
  2:{ cbn [fst]. right. repeat split. exact Hm. }
  destruct (Webhooks.ParseWebhookEvent (Client.tree body)) as [ev | e] eqn:Hp.
  2:{ unfold WebhookDispatch.HandleWebhook. rewrite Hp.
      cbn [WebhookDispatch.handled_error fst]. right. repeat split; [exact Hm | discriminate]. }
  destruct (Signature.ValidateSignature (Client.raw body)
              (WebhookDispatch.request_signature r) (WebhookService.Secret s)) eqn:Hv.
  2:{ rewrite (HandleWebhook_rejected s body _ ev Hp Hv).
      cbn [WebhookDispatch.handled_error fst]. right. repeat split; [exact Hm | discriminate]. }
  rewrite (HandleWebhook_accepted s body _ ev Hp Hv).
  destruct (WebhookService.lookup (WebhookService.Handlers s) (Webhooks.Type_ ev))
    as [[h |] |] eqn:Hl.
  - destruct (h ev) as [e |] eqn:Hh;
      cbn [option_map WebhookDispatch.handled_error WebhookDispatch.handled_event fst].
    + right. repeat split; [exact Hm | discriminate].
    + split; [reflexivity |]. split; [exact Hm |]. exists body, ev.
      rewrite Hl. repeat split; assumption.
  - cbn [WebhookDispatch.handled_error WebhookDispatch.handled_event fst].
    split; [reflexivity |]. split; [exact Hm |]. exists body, ev.
    rewrite Hl. repeat split; assumption.
  - cbn [WebhookDispatch.handled_error WebhookDispatch.handled_event fst].
    split; [reflexivity |]. split; [exact Hm |]. exists body, ev.
    rewrite Hl. repeat split; assumption.
Qed.

(** ** Helpers of the payloads *)

(** X15: a sent message has an error exactly when its error text is not
    empty: the text is the error message when there is one, and
    otherwise the error code behind a fixed prefix. *)
Theorem HasError_iff_error_info (d : Json.den Webhooks.MessageSentData) :
  Payloads.HasError d = negb (String.eqb (Payloads.GetErrorInfo d) "") /\
  (Payloads.GetErrorInfo d = Payloads.ErrorMessage d
   \/ (Payloads.ErrorMessage d = "" /\
       Payloads.GetErrorInfo d = String.append "Error code: " (Payloads.ErrorCode d))).
Proof.
  unfold Payloads.HasError, Payloads.GetErrorInfo.
  destruct (String.eqb_spec (Payloads.ErrorMessage d) "") as [Hm | Hm]; cbn [negb orb].
  - destruct (String.eqb_spec (Payloads.ErrorCode d) "") as [Hc | Hc]; cbn [negb].
    + split; [reflexivity |]. left. symmetry. exact Hm.
    + split; [reflexivity |]. right. split; [exact Hm | reflexivity].
  - rewrite orb_true_r. split; [| left; reflexivity].
    destruct (String.eqb_spec (Payloads.ErrorMessage d) ""); [contradiction | reflexivity].
Qed.

(** Where the text of a received message comes from: the text field
    for a message of type text; for an interactive message the title
    of the button reply, and the title of the list reply only when
    there is no button reply; for every other message, whatever its
    text field holds, the empty string. *)
Lemma GetMessageText_sources (d : Json.den Webhooks.MessageReceivedData) :
  (Payloads.IsTextMessage d = true /\ Payloads.GetMessageText d = Payloads.Text d)
  \/
  (Payloads.MessageType d = "interactive" /\
   exists i,
     Payloads.Interactive d = Some i /\
     ((exists b, Payloads.ButtonReply i = Some b /\
                 Payloads.GetMessageText d = Payloads.ButtonReply_Title b)
      \/
      (exists l, Payloads.ButtonReply i = None /\ Payloads.ListReply i = Some l /\
                 Payloads.GetMessageText d = Payloads.ListReply_Title l)))
  \/
  (Payloads.IsTextMessage d = false /\ Payloads.GetMessageText d = "" /\
   (Payloads.MessageType d <> "interactive"
    \/ (Payloads.IsButtonReply d = false /\ Payloads.IsListReply d = false))).
Proof.
  unfold Payloads.GetMessageText, Payloads.IsTextMessage, Payloads.IsButtonReply,
    Payloads.IsListReply.
  destruct (String.eqb_spec (Payloads.MessageType d) "text") as [Ht | Ht].
  - left. split; reflexivity.
  - right.
    destruct (String.eqb_spec (Payloads.MessageType d) "interactive") as [Hi | Hi].
    + destruct (Payloads.Interactive d) as [i |].
      * destruct (Payloads.ButtonReply i) as [b |] eqn:Hb.
        -- left. split; [exact Hi |]. exists i.
           split; [reflexivity |]. left. exists b. split; [assumption || reflexivity | reflexivity].
        -- destruct (Payloads.ListReply i) as [l |] eqn:Hl.
           ++ left. split; [exact Hi |]. exists i.
              split; [reflexivity |]. right. exists l. repeat split; assumption || reflexivity.
           ++ right. split; [reflexivity |]. split; [reflexivity |]. right. split; reflexivity.
      * right. split; [reflexivity |]. split; [reflexivity |]. right. split; reflexivity.
    + right. split; [reflexivity |]. split; [reflexivity |]. left. exact Hi.
Qed.

(** ** Sending messages *)

Section MessageFacts.
Import Strconv Messages.

Lemma check_recipients_None (recipients : list TemplateMessageRecipient) (i : Z) :
  check_recipients i recipients = None <->
  Forall (fun recipient => (10 <= String.length (RecipientWhatsappNumber recipient))%nat)
         recipients.
Proof.
  revert i. induction recipients as [| rc rest IH]; intros i; cbn [check_recipients].
  - split; [constructor | reflexivity].
  - destruct (String.eqb_spec (RecipientWhatsappNumber rc) "") as [He | He].
    + split; [discriminate |]. intros H. inversion H as [| ? ? Hrc _]; subst.
      rewrite He in Hrc. cbn in Hrc. lia.
    + destruct (Nat.ltb_spec (String.length (RecipientWhatsappNumber rc)) 10) as [Hl | Hl].
      * split; [discriminate |]. intros H. inversion H; subst. lia.
      * rewrite IH. split.
        -- intros H. constructor; assumption.
        -- intros H. inversion H; assumption.
Qed.

(** The error of the first recipient whose number is too short. *)
Lemma check_recipients_first (pre post : list TemplateMessageRecipient)
    (bad : TemplateMessageRecipient) (i : Z) :
  Forall (fun recipient => (10 <= String.length (RecipientWhatsappNumber recipient))%nat)
         pre ->
  (String.length (RecipientWhatsappNumber bad) < 10)%nat ->
  check_recipients i (pre ++ bad :: post)
  = Some (String.append
            (if String.eqb (RecipientWhatsappNumber bad) ""
             then "whatsappNumber is required for recipient "
             else "whatsappNumber must be at least 10 digits for recipient ")
            (Itoa (i + Z.of_nat (List.length pre)))).
Proof.
  intros Hpre Hbad. revert i.
  induction Hpre as [| rc pre Hrc _ IH]; intros i; cbn [app check_recipients List.length].
  - rewrite Z.add_0_r.
    destruct (String.eqb (RecipientWhatsappNumber bad) ""); [reflexivity |].
    destruct (Nat.ltb_spec (String.length (RecipientWhatsappNumber bad)) 10);
      [reflexivity | lia].
  - destruct (String.eqb_spec (RecipientWhatsappNumber rc) "") as [He | He].
    { rewrite He in Hrc. cbn in Hrc. lia. }
    destruct (Nat.ltb_spec (String.length (RecipientWhatsappNumber rc)) 10); [lia |].
    rewrite IH. do 3 f_equal. lia.
Qed.

Lemma bulk_Validate_None (r : SendTemplateMessagesRequest) :
  SendTemplateMessagesRequest_Validate r = None <-> deliverable r.
Proof.
  unfold SendTemplateMessagesRequest_Validate, deliverable.
  destruct (String.eqb_spec (TemplateName r) "") as [Ht | Ht];
    [split; [discriminate | tauto] |].
  destruct (String.eqb_spec (BroadcastName r) "") as [Hb | Hb];
    [split; [discriminate | tauto] |].
  destruct (Nat.eqb_spec (List.length (Recipients r)) 0) as [H0 | H0];
    [split; [discriminate | intros (_ & _ & H & _); lia] |].
  destruct (Nat.ltb_spec 100 (List.length (Recipients r))) as [H100 | H100];
    [split; [discriminate | intros (_ & _ & H & _); lia] |].
  rewrite check_recipients_None. split.
  - intros H. repeat split; try assumption; lia.
  - intros (_ & _ & _ & H). exact H.
Qed.

Lemma check_buttons_quick (titles : list string) (i : Z) :
  Forall (fun title => title <> "") titles ->
  0 <= i ->
  check_buttons i (quick_reply_buttons i titles) = None.
Proof.
  intros H. revert i. induction H as [| title titles Ht _ IH]; intros i Hi;
    cbn [quick_reply_buttons check_buttons Reply ReplyID ReplyTitle].
  - reflexivity.
  - destruct (String.eqb_spec (String.append "btn_" (Itoa (i + 1))) "") as [He | _];
      [discriminate He |].
    destruct (String.eqb_spec title "") as [He | _]; [contradiction |].
    apply IH. lia.
Qed.

Lemma quick_reply_buttons_length (titles : list string) (i : Z) :
  List.length (quick_reply_buttons i titles) = List.length titles.
Proof.
  revert i. induction titles as [| t titles IH]; intros i; cbn; [| rewrite IH]; reflexivity.
Qed.

Lemma quick_reply_buttons_titles (titles : list string) (i : Z) :
  map (fun b => ReplyTitle (Reply b)) (quick_reply_buttons i titles) = titles.
Proof.
  revert i. induction titles as [| t titles IH]; intros i; cbn; [| rewrite IH]; reflexivity.
Qed.

Lemma quick_reply_buttons_types (titles : list string) (i : Z) :
  Forall (fun b => ButtonType b = "reply") (quick_reply_buttons i titles).
Proof.
  revert i. induction titles as [| t titles IH]; intros i; cbn; constructor;
    [reflexivity | apply IH].
Qed.

Lemma check_buttons_first_title (titles : list string) (i : Z) :
  ~ Forall (fun title => title <> "") titles ->
  exists msg, check_buttons i (quick_reply_buttons i titles) = Some msg.
Proof.
  revert i. induction titles as [| title titles IH]; intros i Hn;
    cbn [quick_reply_buttons check_buttons Reply ReplyID ReplyTitle].
  - exfalso. apply Hn. constructor.
  - destruct (String.eqb_spec (String.append "btn_" (Itoa (i + 1))) "") as [He | _];
      [discriminate He |].
    destruct (String.eqb_spec title "") as [He | He]; [eexists; reflexivity |].
    apply IH. intros H. apply Hn. constructor; assumption.
Qed.

End MessageFacts.

(** X16: bulk template messages are sent exactly when the request names a
    template and a broadcast, has between 1 and 100 recipients, and
    every recipient number has at least 10 characters: then the
    request is posted once, as it is; otherwise nothing is sent and
    the call returns a validation error. *)
Theorem SendTemplateMessages_sends_iff_deliverable
    (BulkMessageResponse ClientError : Type)
    (DoBulk : Messages.Call -> Result BulkMessageResponse ClientError)
    (r : Messages.SendTemplateMessagesRequest) :
  (Messages.deliverable r ->
   snd (Messages.SendTemplateMessages BulkMessageResponse ClientError DoBulk (Some r))
   = [Messages.mkCall "POST" "/api/v1/sendTemplateMessages"
        (Messages.BodyTemplateMessages r)]) /\
  (~ Messages.deliverable r ->
   snd (Messages.SendTemplateMessages BulkMessageResponse ClientError DoBulk (Some r)) = [] /\
   exists msg,
     fst (Messages.SendTemplateMessages BulkMessageResponse ClientError DoBulk (Some r))
     = Failed (Messages.ErrValidation ClientError msg)).
Proof.
  unfold Messages.SendTemplateMessages. split.
  - intros Hd. apply bulk_Validate_None in Hd. rewrite Hd.
    destruct (DoBulk _); reflexivity.
  - intros Hd.
    destruct (Messages.SendTemplateMessagesRequest_Validate r) as [msg |] eqn:Hv.
    + split; [reflexivity | exists msg; reflexivity].
    + apply bulk_Validate_None in Hv. contradiction.
Qed.

Lemma SendTemplateMessages_sends_iff_deliverable_witness :
  snd (Messages.SendTemplateMessages unit unit (fun _ => Ok tt)
         (Some (Messages.mkSendTemplateMessages "welcome" "october"
                  [Messages.mkRecipient "5491100000000" []])))
  = [Messages.mkCall "POST" "/api/v1/sendTemplateMessages"
       (Messages.BodyTemplateMessages
          (Messages.mkSendTemplateMessages "welcome" "october"
             [Messages.mkRecipient "5491100000000" []]))].
Proof.
  apply (SendTemplateMessages_sends_iff_deliverable unit unit (fun _ => Ok tt)
           (Messages.mkSendTemplateMessages "welcome" "october"
              [Messages.mkRecipient "5491100000000" []])).
  unfold Messages.deliverable. simpl.
  repeat split; try discriminate; try lia. repeat constructor.
Defined.

(** X17: the bulk validation names the first offending recipient by its
    index from zero: when the template, the broadcast and the count
    pass and the first recipient with a number under 10 characters is
    at position [k], the error is about recipient [k], "required"
    for an empty number and "at least 10 digits" otherwise. *)
Theorem bulk_validation_names_first_recipient
    (r : Messages.SendTemplateMessagesRequest)
    (pre post : list Messages.TemplateMessageRecipient)
    (bad : Messages.TemplateMessageRecipient) :
  Messages.TemplateName r <> "" ->
  Messages.BroadcastName r <> "" ->
  Messages.Recipients r = pre ++ bad :: post ->
  (List.length (Messages.Recipients r) <= 100)%nat ->
  Forall (fun recipient =>
            (10 <= String.length (Messages.RecipientWhatsappNumber recipient))%nat) pre ->
  (String.length (Messages.RecipientWhatsappNumber bad) < 10)%nat ->
  Messages.SendTemplateMessagesRequest_Validate r
  = Some (String.append
            (if String.eqb (Messages.RecipientWhatsappNumber bad) ""
             then "whatsappNumber is required for recipient "
             else "whatsappNumber must be at least 10 digits for recipient ")
            (Strconv.Itoa (Z.of_nat (List.length pre)))).
Proof.
  intros Ht Hb Hr Hlen Hpre Hbad. unfold Messages.SendTemplateMessagesRequest_Validate.
  destruct (String.eqb_spec (Messages.TemplateName r) ""); [contradiction |].
  destruct (String.eqb_spec (Messages.BroadcastName r) ""); [contradiction |].
  destruct (Nat.eqb_spec (List.length (Messages.Recipients r)) 0) as [H0 | _].
  { rewrite Hr, length_app in H0. cbn in H0. lia. }
  destruct (Nat.ltb_spec 100 (List.length (Messages.Recipients r))); [lia |].
  rewrite Hr. apply (check_recipients_first pre post bad 0 Hpre Hbad).
Qed.

Lemma bulk_validation_names_first_recipient_witness :
  Messages.SendTemplateMessagesRequest_Validate
    (Messages.mkSendTemplateMessages "welcome" "october"
       [Messages.mkRecipient "5491100000000" []; Messages.mkRecipient "12345" []])
  = Some "whatsappNumber must be at least 10 digits for recipient 1".
Proof.
  apply (bulk_validation_names_first_recipient
           (Messages.mkSendTemplateMessages "welcome" "october"
              [Messages.mkRecipient "5491100000000" []; Messages.mkRecipient "12345" []])
           [Messages.mkRecipient "5491100000000" []] []
           (Messages.mkRecipient "12345" [])).
  - discriminate.
  - discriminate.
  - reflexivity.
  - simpl. lia.
  - repeat constructor; simpl; lia.
  - simpl. lia.
Defined.

(** X18: quick reply buttons: with one to three titles, none of them
    empty, a phone number of at least 10 characters and a body text,
    the request is posted once with one reply button per title, in
    order, under the ids btn_1, btn_2, btn_3; with any other
    arguments nothing is sent. *)
Theorem SendQuickReplyButtons_sends_iff_ok
    (MessageResponse ClientError : Type)
    (DoMessage : Messages.Call -> Result MessageResponse ClientError)
    (phone bodyText : string) (buttonTitles : list string) :
  (Messages.quick_reply_ok phone bodyText buttonTitles ->
   exists buttons,
     snd (Messages.SendQuickReplyButtons MessageResponse ClientError DoMessage
            phone bodyText buttonTitles)
     = [Messages.mkCall "POST" "/api/v1/sendInteractiveButtonMessage"
          (Messages.BodyButtonMessage
             (Messages.mkButtonMessage phone None bodyText None buttons))] /\
     map (fun b => Messages.ReplyTitle (Messages.Reply b)) buttons = buttonTitles /\
     map (fun b => Messages.ReplyID (Messages.Reply b)) buttons
     = firstn (List.length buttonTitles) ["btn_1"; "btn_2"; "btn_3"] /\
     Forall (fun b => Messages.ButtonType b = "reply") buttons) /\
  (~ Messages.quick_reply_ok phone bodyText buttonTitles ->
   snd (Messages.SendQuickReplyButtons MessageResponse ClientError DoMessage
          phone bodyText buttonTitles) = [] /\
   exists e,
     fst (Messages.SendQuickReplyButtons MessageResponse ClientError DoMessage
            phone bodyText buttonTitles) = Failed e).
Proof.
  unfold Messages.SendQuickReplyButtons, Messages.SendInteractiveButtonMessage,
    Messages.CreateSimpleButtonMessage, Messages.InteractiveButtonMessageRequest_Validate.
  cbn [Messages.WhatsappNumber Messages.BodyText Messages.Buttons].
  rewrite quick_reply_buttons_length. split.
  - intros (Hn & Hp & Hb & Ht).
    destruct (Nat.eqb_spec (List.length buttonTitles) 0) as [H0 | _]; [lia |].
    destruct (Nat.ltb_spec 3 (List.length buttonTitles)) as [H3 | _]; [lia |].
    cbn [orb].
    destruct (String.eqb_spec phone "") as [He | _];
      [rewrite He in Hp; cbn in Hp; lia |].
    destruct (Nat.ltb_spec (String.length phone) 10); [lia |].
    destruct (String.eqb_spec bodyText ""); [contradiction |].
    rewrite (check_buttons_quick buttonTitles 0 Ht ltac:(lia)).
    exists (Messages.quick_reply_buttons 0 buttonTitles).
    split; [destruct (DoMessage _); reflexivity |].
    split; [apply quick_reply_buttons_titles |].
    split; [| apply quick_reply_buttons_types].
    destruct buttonTitles as [| t1 [| t2 [| t3 [| t4 rest]]]]; cbn in Hn; try lia;
      reflexivity.
  - intros Hno.
    destruct (Nat.eqb_spec (List.length buttonTitles) 0) as [H0 | H0];
      [split; [reflexivity | eexists; reflexivity] |].
    destruct (Nat.ltb_spec 3 (List.length buttonTitles)) as [H3 | H3];
      [split; [reflexivity | eexists; reflexivity] |].
    cbn [orb].
    destruct (String.eqb_spec phone "") as [He | He];
      [split; [reflexivity | eexists; reflexivity] |].
    destruct (Nat.ltb_spec (String.length phone) 10) as [Hl | Hl];
      [split; [reflexivity | eexists; reflexivity] |].
    destruct (String.eqb_spec bodyText "") as [Hb | Hb];
      [split; [reflexivity | eexists; reflexivity] |].
    destruct (check_buttons_first_title buttonTitles 0) as (msg & ->).
    + intros Ht. apply Hno. unfold Messages.quick_reply_ok.
      repeat split; try assumption; lia.
    + split; [reflexivity | eexists; reflexivity].
Qed.

Lemma SendQuickReplyButtons_sends_iff_ok_witness :
  exists buttons,
    snd (Messages.SendQuickReplyButtons unit unit (fun _ => Ok tt)
           "5491100000000" "Continue?" ["Yes"; "No"])
    = [Messages.mkCall "POST" "/api/v1/sendInteractiveButtonMessage"
         (Messages.BodyButtonMessage
            (Messages.mkButtonMessage "5491100000000" None "Continue?" None buttons))] /\
    map (fun b => Messages.ReplyTitle (Messages.Reply b)) buttons = ["Yes"; "No"] /\
    map (fun b => Messages.ReplyID (Messages.Reply b)) buttons
    = firstn (List.length ["Yes"; "No"]) ["btn_1"; "btn_2"; "btn_3"] /\
    Forall (fun b => Messages.ButtonType b = "reply") buttons.
Proof.
  apply (SendQuickReplyButtons_sends_iff_ok unit unit (fun _ => Ok tt)
           "5491100000000" "Continue?" ["Yes"; "No"]).
  unfold Messages.quick_reply_ok. simpl.
  repeat split; try discriminate; try lia. repeat constructor; discriminate.
Defined.

(** ** Contacts *)

Section ContactFacts.
Import Strconv Contacts.

Lemma Validate_contact_None (c : CreateContactRequest) :
  CreateContactRequest_Validate c = None <-> acceptable c.
Proof.
  unfold CreateContactRequest_Validate, acceptable.
  destruct (String.eqb_spec (FirstName c) "") as [Hf | Hf];
    [split; [discriminate | tauto] |].
  destruct (String.eqb_spec (Phone c) "") as [Hp | Hp].
  { split; [discriminate |]. intros (_ & H). rewrite Hp in H. cbn in H. lia. }
  destruct (Nat.ltb_spec (String.length (Phone c)) 10) as [Hl | Hl].
  - split; [discriminate |]. intros (_ & H). lia.
  - split; [intros _; split; assumption | reflexivity].
Qed.

Lemma validate_contacts_None (contacts : list CreateContactRequest) (i : Z) :
  validate_contacts i contacts = None <-> Forall acceptable contacts.
Proof.
  revert i. induction contacts as [| c rest IH]; intros i; cbn [validate_contacts].
  - split; [constructor | reflexivity].
  - destruct (CreateContactRequest_Validate c) as [err |] eqn:Hv.
    + split; [discriminate |]. intros H. inversion H as [| ? ? Hc _]; subst.
      apply Validate_contact_None in Hc. congruence.
    + apply Validate_contact_None in Hv. rewrite IH. split.
      * intros H. constructor; assumption.
      * intros H. inversion H; assumption.
Qed.

Lemma validate_contacts_first (pre post : list CreateContactRequest)
    (bad : CreateContactRequest) (i : Z) :
  Forall acceptable pre -> ~ acceptable bad ->
  exists msg,
    CreateContactRequest_Validate bad = Some msg /\
    validate_contacts i (pre ++ bad :: post) = Some (i + Z.of_nat (List.length pre), msg).
Proof.
  intros Hpre Hbad. revert i.
  induction Hpre as [| c pre Hc _ IH]; intros i; cbn [app validate_contacts List.length].
  - destruct (CreateContactRequest_Validate bad) as [msg |] eqn:Hv.
    + exists msg. rewrite Z.add_0_r. split; reflexivity.
    + apply Validate_contact_None in Hv. contradiction.
  - apply Validate_contact_None in Hc. rewrite Hc.
    destruct (IH (i + 1)) as (msg & Hm & ->). exists msg. split; [exact Hm |].
    do 2 f_equal. lia.
Qed.

Variables Contact ClientError : Type.
Variable visit : list (string * string) -> list (string * string).
Variable DoRequest : string -> string -> Result (ContactsResponse Contact) ClientError.

Lemma GetContactsByPage_endpoint (page : Z) :
  1 <= page ->
  GetContactsByPage Contact ClientError visit DoRequest page 50
  = match DoRequest "GET" (page_endpoint visit page) with
    | Failed e => (Failed (ErrGettingContacts e), [page_endpoint visit page])
    | Ok response => (Ok response, [page_endpoint visit page])
    end.
Proof.
  intros Hp. unfold GetContactsByPage, GetContacts, page_endpoint, SetDefaults, ToMap.
  cbn [PageSize PageNumber Name Attribute CreatedDate].
  change (50 <=? 0) with false. cbv iota.
  destruct (Z.leb_spec page 0) as [H | _]; [lia |].
  change (0 <? 50) with true. cbv iota.
  destruct (Z.ltb_spec 0 page) as [_ | H]; [| lia].
  cbn [String.eqb negb app]. reflexivity.
Qed.

Lemma pages_snoc (a : Z) (cnt : nat) :
  pages a (S cnt) = pages a cnt ++ [a + Z.of_nat cnt].
Proof.
  revert a. induction cnt as [| c IH]; intros a.
  - cbn. f_equal. lia.
  - change (pages a (S (S c))) with (a :: pages (a + 1) (S c)).
    rewrite IH. cbn [pages app]. do 3 f_equal. lia.
Qed.

(** The loop from page [a] over [cnt] pages, the last of which stops
    it. *)
Lemma all_contacts_loop_pages (resp : Z -> ContactsResponse Contact) (cnt : nat) :
  forall (a : Z) (acc : list Contact) (fuel : nat),
    1 <= a ->
    (1 <= cnt)%nat ->
    (forall j, a <= j < a + Z.of_nat cnt ->
               DoRequest "GET" (page_endpoint visit j) = Ok (resp j)) ->
    (forall j, a <= j < a + Z.of_nat cnt - 1 ->
               j < TotalPages (resp j) /\ Contacts (resp j) <> []) ->
    (a + Z.of_nat cnt - 1 >= TotalPages (resp (a + Z.of_nat cnt - 1))
     \/ Contacts (resp (a + Z.of_nat cnt - 1)) = []) ->
    (cnt <= fuel)%nat ->
    all_contacts_loop Contact ClientError visit DoRequest fuel a acc
    = (Some (Ok (acc ++ flat_map (fun j => Contacts (resp j)) (pages a cnt))),
       map (page_endpoint visit) (pages a cnt)).
Proof.
  induction cnt as [| c IH]; intros a acc fuel Ha Hc Hdo Hmore Hlast Hfuel; [lia |].
  destruct fuel as [| fuel]; [lia |].
  cbn [all_contacts_loop]. rewrite GetContactsByPage_endpoint by lia.
  rewrite (Hdo a) by lia.
  destruct c as [| c].
  - cbn [pages flat_map map]. rewrite app_nil_r.
    replace (a + Z.of_nat 1 - 1) with a in Hlast by lia.
    destruct Hlast as [Hl | Hl].
    + destruct (Z.geb_spec a (TotalPages (resp a))) as [_ | H]; [| lia]. reflexivity.
    + rewrite Hl. cbn [List.length Nat.eqb]. rewrite orb_true_r. reflexivity.
  - destruct (Hmore a ltac:(lia)) as (Hlt & Hne).
    destruct (Z.geb_spec a (TotalPages (resp a))) as [H | _]; [lia |].
    destruct (Contacts (resp a)) as [| c0 cs] eqn:Hcs; [contradiction |].
    cbn [List.length Nat.eqb orb].
    rewrite (IH (a + 1) (acc ++ c0 :: cs) fuel); try lia.
    + change (pages a (S (S c))) with (a :: pages (a + 1) (S c)).
      cbn [flat_map map app]. rewrite Hcs, <- app_assoc. reflexivity.
    + intros j Hj. apply Hdo. lia.
    + intros j Hj. apply Hmore. lia.
    + replace (a + 1 + Z.of_nat (S c) - 1) with (a + Z.of_nat (S (S c)) - 1) by lia.
      exact Hlast.
Qed.

(** The loop while every page has contacts and reports more pages. *)
Lemma all_contacts_loop_goes_on (fuel : nat) :
  forall (a : Z) (acc : list Contact),
    1 <= a ->
    (forall j, a <= j < a + Z.of_nat fuel ->
               exists r, DoRequest "GET" (page_endpoint visit j) = Ok r /\
                         j < TotalPages r /\ Contacts r <> []) ->
    all_contacts_loop Contact ClientError visit DoRequest fuel a acc
    = (None, map (page_endpoint visit) (pages a fuel)).
Proof.
  induction fuel as [| fuel IH]; intros a acc Ha Hdo; [reflexivity |].
  cbn [all_contacts_loop]. rewrite GetContactsByPage_endpoint by lia.
  destruct (Hdo a ltac:(lia)) as (r & -> & Hlt & Hne).
  destruct (Z.geb_spec a (TotalPages r)) as [H | _]; [lia |].
  destruct (Contacts r) as [| c0 cs] eqn:Hcs; [contradiction |].
  cbn [List.length Nat.eqb orb].
  rewrite IH; [reflexivity | lia |].
  intros j Hj. apply Hdo. lia.
Qed.

End ContactFacts.

(** X19: adding contacts in bulk: between 1 and 100 contacts that all have
    a first name and a phone of at least 10 characters are posted
    once, as given; a contact that fails validation is reported with
    its index from zero before the count is looked at, so also for
    more than 100 contacts; and more than 100 valid contacts are
    refused without a request. *)
Theorem AddContacts_validates_then_counts
    (BulkContactResponse ClientError : Type)
    (DoRequest : string -> string -> list Contacts.CreateContactRequest ->
                 Result BulkContactResponse ClientError)
    (contacts : list Contacts.CreateContactRequest) :
  ((1 <= List.length contacts <= 100)%nat -> Forall Contacts.acceptable contacts ->
   snd (Contacts.AddContacts BulkContactResponse ClientError DoRequest contacts)
   = [contacts]) /\
  (forall pre bad post,
      contacts = pre ++ bad :: post ->
      Forall Contacts.acceptable pre -> ~ Contacts.acceptable bad ->
      exists msg,
        Contacts.CreateContactRequest_Validate bad = Some msg /\
        Contacts.AddContacts BulkContactResponse ClientError DoRequest contacts
        = (Failed (Contacts.ErrContactValidation (Z.of_nat (List.length pre)) msg), [])) /\
  ((100 < List.length contacts)%nat -> Forall Contacts.acceptable contacts ->
   Contacts.AddContacts BulkContactResponse ClientError DoRequest contacts
   = (Failed (Contacts.ErrTooManyContacts (Z.of_nat (List.length contacts))), [])).
Proof.
  unfold Contacts.AddContacts. split; [| split].
  - intros Hn Hall. apply (validate_contacts_None contacts 0) in Hall. rewrite Hall.
    destruct (Nat.eqb_spec (List.length contacts) 0); [lia |].
    destruct (Nat.ltb_spec 100 (List.length contacts)); [lia |].
    destruct (DoRequest _ _ _); reflexivity.
  - intros pre bad post -> Hpre Hbad.
    destruct (validate_contacts_first pre post bad 0 Hpre Hbad) as (msg & Hm & Hv).
    exists msg. split; [exact Hm |]. rewrite Hv.
    destruct (Nat.eqb_spec (List.length (pre ++ bad :: post)) 0) as [H0 | _].
    { rewrite length_app in H0. cbn in H0. lia. }
    reflexivity.
  - intros Hn Hall. apply (validate_contacts_None contacts 0) in Hall. rewrite Hall.
    destruct (Nat.eqb_spec (List.length contacts) 0); [lia |].
    destruct (Nat.ltb_spec 100 (List.length contacts)); [reflexivity | lia].
Qed.

Lemma AddContacts_validates_then_counts_witness :
  snd (Contacts.AddContacts unit unit (fun _ _ _ => Ok tt)
         [Contacts.mkCreateContact "Ana" "" "5491100000000" "" [] [] true false])
  = [[Contacts.mkCreateContact "Ana" "" "5491100000000" "" [] [] true false]].
Proof.
  apply (AddContacts_validates_then_counts unit unit (fun _ _ _ => Ok tt)
           [Contacts.mkCreateContact "Ana" "" "5491100000000" "" [] [] true false]).
  - simpl. lia.
  - repeat constructor; simpl; try discriminate; lia.
Defined.

(** X20: fetching all contacts: when the server answers pages 1 to [n] of
    fifty, each page before the last with contacts and a total above
    its number, and the last one empty or with a total not above [n],
    the call requests exactly the pages 1, 2, ..., [n], each once and
    in order, and returns their contacts concatenated in that
    order. *)
Theorem GetAllContacts_collects_pages
    (Contact ClientError : Type)
    (visit : list (string * string) -> list (string * string))
    (DoRequest : string -> string ->
                 Result (Contacts.ContactsResponse Contact) ClientError)
    (resp : Z -> Contacts.ContactsResponse Contact) (n fuel : nat) :
  (1 <= n)%nat ->
  (forall j, 1 <= j <= Z.of_nat n ->
             DoRequest "GET" (Contacts.page_endpoint visit j) = Ok (resp j)) ->
  (forall j, 1 <= j < Z.of_nat n ->
             j < Contacts.TotalPages (resp j) /\ Contacts.Contacts (resp j) <> []) ->
  (Z.of_nat n >= Contacts.TotalPages (resp (Z.of_nat n))
   \/ Contacts.Contacts (resp (Z.of_nat n)) = []) ->
  (n <= fuel)%nat ->
  Contacts.GetAllContacts Contact ClientError visit DoRequest fuel
  = (Some (Ok (flat_map (fun j => Contacts.Contacts (resp j)) (Contacts.pages 1 n))),
     map (Contacts.page_endpoint visit) (Contacts.pages 1 n)).
Proof.
  intros Hn Hdo Hmore Hlast Hfuel. unfold Contacts.GetAllContacts.
  rewrite (all_contacts_loop_pages Contact ClientError visit DoRequest resp n 1 [] fuel);
    try lia; try reflexivity.
  - intros j Hj. apply Hdo. lia.
  - intros j Hj. apply Hmore. lia.
  - replace (1 + Z.of_nat n - 1) with (Z.of_nat n) by lia. exact Hlast.
Qed.

Lemma GetAllContacts_collects_pages_witness :
  Contacts.GetAllContacts string unit (fun l => l)
    (fun _ endpoint =>
       if String.eqb endpoint "/api/v1/getContacts?pageSize=50&pageNumber=1"
       then Ok (Contacts.mkContactsResponse (Contacts.mkBaseResponse true "" "")
                  1 50 2 3 ["ana"; "bea"])
       else Ok (Contacts.mkContactsResponse (Contacts.mkBaseResponse true "" "")
                  2 50 2 3 ["cleo"]))
    5
  = (Some (Ok (flat_map
                 (fun j => Contacts.Contacts
                             (if j =? 1
                              then Contacts.mkContactsResponse
                                     (Contacts.mkBaseResponse true "" "") 1 50 2 3
                                     ["ana"; "bea"]
                              else Contacts.mkContactsResponse
                                     (Contacts.mkBaseResponse true "" "") 2 50 2 3
                                     ["cleo"]))
                 (Contacts.pages 1 2))),
     map (Contacts.page_endpoint (fun l => l)) (Contacts.pages 1 2)).
Proof.
  apply (GetAllContacts_collects_pages string unit (fun l => l)
           (fun _ endpoint =>
              if String.eqb endpoint "/api/v1/getContacts?pageSize=50&pageNumber=1"
              then Ok (Contacts.mkContactsResponse (Contacts.mkBaseResponse true "" "")
                         1 50 2 3 ["ana"; "bea"])
              else Ok (Contacts.mkContactsResponse (Contacts.mkBaseResponse true "" "")
                         2 50 2 3 ["cleo"]))
           (fun j => if j =? 1
                     then Contacts.mkContactsResponse
                            (Contacts.mkBaseResponse true "" "") 1 50 2 3 ["ana"; "bea"]
                     else Contacts.mkContactsResponse
                            (Contacts.mkBaseResponse true "" "") 2 50 2 3 ["cleo"])
           2 5).
  - lia.
  - intros j Hj. assert (Hc : j = 1 \/ j = 2) by lia.
    destruct Hc as [-> | ->]; reflexivity.
  - intros j Hj. assert (Hc : j = 1) by lia. subst j. simpl. split; [lia | discriminate].
  - left. simpl. lia.
  - lia.
Defined.

(** X21: the loop has no bound of its own: as long as every page requested
    has contacts and reports a total above its number, the call keeps
    asking for the next page; after any number of pages it has not
    returned. *)
Theorem GetAllContacts_has_no_page_limit
    (Contact ClientError : Type)
    (visit : list (string * string) -> list (string * string))
    (DoRequest : string -> string ->
                 Result (Contacts.ContactsResponse Contact) ClientError)
    (k : nat) :
  (forall j, 1 <= j <= Z.of_nat k ->
             exists r, DoRequest "GET" (Contacts.page_endpoint visit j) = Ok r /\
                       j < Contacts.TotalPages r /\ Contacts.Contacts r <> []) ->
  Contacts.GetAllContacts Contact ClientError visit DoRequest k
  = (None, map (Contacts.page_endpoint visit) (Contacts.pages 1 k)).
Proof.
  intros Hdo. unfold Contacts.GetAllContacts.
  apply all_contacts_loop_goes_on; [lia |].
  intros j Hj. apply Hdo. lia.
Qed.

Lemma GetAllContacts_has_no_page_limit_witness :
  Contacts.GetAllContacts string unit (fun l => l)
    (fun _ _ => Ok (Contacts.mkContactsResponse (Contacts.mkBaseResponse true "" "")
                      0 50 1000000 0 ["ana"]))
    3
  = (None, map (Contacts.page_endpoint (fun l => l)) (Contacts.pages 1 3)).
Proof.
  apply (GetAllContacts_has_no_page_limit string unit (fun l => l)
           (fun _ _ => Ok (Contacts.mkContactsResponse (Contacts.mkBaseResponse true "" "")
                             0 50 1000000 0 ["ana"]))
           3).
  intros j Hj. eexists. split; [reflexivity |]. simpl. split; [lia | discriminate].
Defined.

(** ** Media files *)

Section MediaFacts.
Import Strconv Media.

Lemma holds_In (types : list string) (mimeType : string) :
  existsb (fun supportedType => String.eqb supportedType mimeType) types = true
  <-> In mimeType types.
Proof.
  rewrite existsb_exists. split.
  - intros (x & Hin & Heq). apply String.eqb_eq in Heq. subst. exact Hin.
  - intros Hin. exists mimeType. split; [exact Hin | apply String.eqb_refl].
Qed.

Lemma first_holder_Some (visited : list (MediaType * list string)) (mimeType : string)
    (mediaType : MediaType) :
  first_holder visited mimeType = Some mediaType ->
  exists types, In (mediaType, types) visited /\ In mimeType types.
Proof.
  induction visited as [| [mt types] rest IH]; cbn [first_holder]; [discriminate |].
  destruct (existsb _ types) eqn:He.
  - intros H. injection H as <-. exists types. split; [left; reflexivity |].
    apply holds_In. exact He.
  - intros H. destruct (IH H) as (types' & Hin & Hm).
    exists types'. split; [right; exact Hin | exact Hm].
Qed.

Lemma first_holder_None (visited : list (MediaType * list string)) (mimeType : string) :
  first_holder visited mimeType = None ->
  forall mediaType types, In (mediaType, types) visited -> ~ In mimeType types.
Proof.
  induction visited as [| [mt types] rest IH]; cbn [first_holder]; [intros _ ? ? [] |].
  destruct (existsb _ types) eqn:He; [discriminate |].
  intros H mediaType types' [Heq | Hin].
  - injection Heq as <- <-. intros Hm. apply holds_In in Hm. congruence.
  - apply (IH H mediaType types' Hin).
Qed.

(** Every MIME type of the table is found under its own media type:
    no MIME type is listed twice. *)
Lemma table_unambiguous :
  forallb (fun entry =>
             forallb (fun mimeType =>
                        match first_holder SupportedMimeTypes mimeType with
                        | Some mediaType => String.eqb mediaType (fst entry)
                        | None => false
                        end) (snd entry))
          SupportedMimeTypes = true.
Proof. vm_compute. reflexivity. Qed.

Lemma listed_first_holder (mediaType : MediaType) (types : list string)
    (mimeType : string) :
  In (mediaType, types) SupportedMimeTypes -> In mimeType types ->
  first_holder SupportedMimeTypes mimeType = Some mediaType.
Proof.
  intros Hin Hm. pose proof table_unambiguous as H.
  rewrite forallb_forall in H. specialize (H _ Hin). cbn [fst snd] in H.
  rewrite forallb_forall in H. specialize (H _ Hm).
  destruct (first_holder SupportedMimeTypes mimeType) as [mt |]; [| discriminate].
  apply String.eqb_eq in H. subst. reflexivity.
Qed.

Lemma first_holder_permuted (visited : list (MediaType * list string))
    (mimeType : string) :
  Permutation visited SupportedMimeTypes ->
  first_holder visited mimeType = first_holder SupportedMimeTypes mimeType.
Proof.
  intros Hp. destruct (first_holder visited mimeType) as [mt |] eqn:Hv.
  - destruct (first_holder_Some _ _ _ Hv) as (types & Hin & Hm).
    symmetry. apply (listed_first_holder mt types); [| exact Hm].
    apply (Permutation_in _ Hp). exact Hin.
  - destruct (first_holder SupportedMimeTypes mimeType) as [mt |] eqn:Hs; [| reflexivity].
    destruct (first_holder_Some _ _ _ Hs) as (types & Hin & Hm).
    exfalso. apply (first_holder_None _ _ Hv mt types); [| exact Hm].
    apply (Permutation_in _ (Permutation_sym Hp)). exact Hin.
Qed.

Lemma supported_keys_distinct : NoDup (map fst SupportedMimeTypes).
Proof.
  cbn. repeat constructor; cbn; intros H; repeat destruct H as [H | H];
    try discriminate H; exact H.
Qed.

Lemma IsSupportedMimeType_iff (mediaType : MediaType) (mimeType : string) :
  IsSupportedMimeType mediaType mimeType = true
  <-> exists types, In (mediaType, types) SupportedMimeTypes /\ In mimeType types.
Proof.
  unfold IsSupportedMimeType. split.
  - destruct (Json.assoc mediaType SupportedMimeTypes) as [types |] eqn:Ha;
      [| discriminate].
    intros H. exists types. split.
    + apply (assoc_In _ _ _ supported_keys_distinct). exact Ha.
    + apply holds_In. exact H.
  - intros (types & Hin & Hm).
    apply (assoc_In _ _ _ supported_keys_distinct) in Hin. rewrite Hin.
    apply holds_In. exact Hm.
Qed.

Variable ClientError : Type.
Variable GetMediaInfo : Z -> Result MediaFile ClientError.
Variable ctxDone : Z -> bool.
Variable ctxErr : string.

Lemma wait_loop_facts (remaining : nat) :
  forall i : Z,
    polls (snd (wait_loop ClientError GetMediaInfo ctxDone ctxErr remaining i))
    <= Z.of_nat remaining /\
    match fst (wait_loop ClientError GetMediaInfo ctxDone ctxErr remaining i) with
    | Ok media =>
        IsReady media = true /\
        seconds (snd (wait_loop ClientError GetMediaInfo ctxDone ctxErr remaining i))
        = polls (snd (wait_loop ClientError GetMediaInfo ctxDone ctxErr remaining i)) - 1
    | Failed ErrTimeout =>
        polls (snd (wait_loop ClientError GetMediaInfo ctxDone ctxErr remaining i))
        = Z.of_nat remaining /\
        seconds (snd (wait_loop ClientError GetMediaInfo ctxDone ctxErr remaining i))
        = Z.of_nat remaining
    | Failed _ =>
        seconds (snd (wait_loop ClientError GetMediaInfo ctxDone ctxErr remaining i))
        = polls (snd (wait_loop ClientError GetMediaInfo ctxDone ctxErr remaining i)) - 1
    end.
Proof.
  induction remaining as [| remaining IH]; intros i.
  - cbn. split; [lia | split; reflexivity].
  - cbn [wait_loop].
    destruct (GetMediaInfo i) as [media | e]; [| cbn; split; [lia | reflexivity]].
    destruct (IsReady media) eqn:Hr;
      [cbn; split; [lia | split; [exact Hr | reflexivity]] |].
    destruct (String.eqb (Status media) MediaStatusFailed);
      [cbn; split; [lia | reflexivity] |].
    destruct (ctxDone i); [cbn; split; [lia | reflexivity] |].
    specialize (IH (i + 1)).
    destruct (wait_loop ClientError GetMediaInfo ctxDone ctxErr remaining (i + 1))
      as [res tr].
    cbn [fst snd polls seconds] in IH |- *. destruct IH as (Hp & Hres).
    split; [lia |].
    destruct res as [m | [e | | e |]]; try lia.
    destruct Hres as (Hm & Hs). split; [exact Hm | lia].
Qed.

End MediaFacts.

(** X22: the media type of a MIME type does not depend on the order in
    which the table is visited: every MIME type of the table is
    listed under one media type only, so whatever the order the
    result is that media type, and for a MIME type outside the table
    it is the default, document. *)
Theorem GetMediaTypeFromMimeType_any_order
    (visited : list (Media.MediaType * list string)) (mimeType : string) :
  Permutation visited Media.SupportedMimeTypes ->
  Media.GetMediaTypeFromMimeType visited mimeType
  = Media.GetMediaTypeFromMimeType Media.SupportedMimeTypes mimeType /\
  (forall mediaType types,
      In (mediaType, types) Media.SupportedMimeTypes -> In mimeType types ->
      Media.GetMediaTypeFromMimeType visited mimeType = mediaType) /\
  ((forall mediaType types,
       In (mediaType, types) Media.SupportedMimeTypes -> ~ In mimeType types) ->
   Media.GetMediaTypeFromMimeType visited mimeType = Media.MediaTypeDocument).
Proof.
  intros Hp. unfold Media.GetMediaTypeFromMimeType.
  rewrite (first_holder_permuted visited mimeType Hp).
  split; [reflexivity |]. split.
  - intros mediaType types Hin Hm. rewrite (listed_first_holder _ _ _ Hin Hm). reflexivity.
  - intros Hnone.
    destruct (Media.first_holder Media.SupportedMimeTypes mimeType) as [mt |] eqn:Hs;
      [| reflexivity].
    destruct (first_holder_Some _ _ _ Hs) as (types & Hin & Hm).
    exfalso. exact (Hnone mt types Hin Hm).
Qed.

Lemma GetMediaTypeFromMimeType_any_order_witness :
  Media.GetMediaTypeFromMimeType (rev Media.SupportedMimeTypes) "audio/ogg"
  = Media.GetMediaTypeFromMimeType Media.SupportedMimeTypes "audio/ogg".
Proof.
  apply (GetMediaTypeFromMimeType_any_order (rev Media.SupportedMimeTypes) "audio/ogg").
  apply Permutation_sym, Permutation_rev.
Defined.

(** X23: a file passes the upload check exactly when it has a name, its
    MIME type is listed under some media type of the table, and its
    size does not exceed the maximum of that media type; this holds
    in whatever order the table is visited. *)
Theorem ValidateUpload_accepts_iff
    (visited : list (Media.MediaType * list string))
    (fileName : string) (size : Z) (mimeType : string) :
  Permutation visited Media.SupportedMimeTypes ->
  (Media.ValidateUpload visited fileName size mimeType = None
   <-> fileName <> "" /\
       exists mediaType types,
         In (mediaType, types) Media.SupportedMimeTypes /\ In mimeType types /\
         size <= Media.GetMaxFileSize mediaType).
Proof.
  intros Hp. unfold Media.ValidateUpload.
  destruct (String.eqb_spec fileName "") as [Hf | Hf].
  { split; [discriminate | intros (H & _); contradiction]. }
  unfold Media.GetMediaTypeFromMimeType.
  rewrite (first_holder_permuted visited mimeType Hp).
  destruct (Media.first_holder Media.SupportedMimeTypes mimeType) as [mt |] eqn:Hs.
  - destruct (first_holder_Some _ _ _ Hs) as (types & Hin & Hm).
    assert (Hsup : Media.IsSupportedMimeType mt mimeType = true)
      by (apply IsSupportedMimeType_iff; exists types; split; assumption).
    rewrite Hsup. cbn [negb]. unfold Media.ValidateFileSize.
    destruct (Z.ltb_spec (Media.GetMaxFileSize mt) size) as [Hl | Hl].
    + split; [discriminate |]. intros (_ & mt' & types' & Hin' & Hm' & Hsz).
      rewrite (listed_first_holder _ _ _ Hin' Hm') in Hs. injection Hs as ->. lia.
    + split; [| reflexivity]. intros _. split; [exact Hf |].
      exists mt, types. repeat split; assumption.
  - destruct (Media.IsSupportedMimeType Media.MediaTypeDocument mimeType) eqn:Hsup.
    + apply IsSupportedMimeType_iff in Hsup. destruct Hsup as (types & Hin & Hm).
      rewrite (listed_first_holder _ _ _ Hin Hm) in Hs. discriminate.
    + cbn [negb]. split; [discriminate |].
      intros (_ & mt' & types' & Hin' & Hm' & _).
      rewrite (listed_first_holder _ _ _ Hin' Hm') in Hs. discriminate.
Qed.

Lemma ValidateUpload_accepts_iff_witness :
  Media.ValidateUpload (rev Media.SupportedMimeTypes) "photo.png" 1024 "image/png" = None
  <-> "photo.png" <> "" /\
      exists mediaType types,
        In (mediaType, types) Media.SupportedMimeTypes /\ In "image/png" types /\
        1024 <= Media.GetMaxFileSize mediaType.
Proof.
  apply (ValidateUpload_accepts_iff (rev Media.SupportedMimeTypes) "photo.png" 1024
           "image/png").
  apply Permutation_sym, Permutation_rev.
Defined.

Section ExtensionFacts.
Import Media.

Lemma assoc_Some_In {A : Type} (k : string) (v : A) (m : list (string * A)) :
  Json.assoc k m = Some v -> In (k, v) m.
Proof.
  induction m as [| [k' v'] m IH]; cbn [Json.assoc]; [discriminate |].
  destruct (String.eqb_spec k k') as [<- | _].
  - intros H. injection H as <-. left. reflexivity.
  - intros H. right. apply IH. exact H.
Qed.

Lemma guessed_in_table (k mimeType : string) :
  In (k, mimeType) mimeTypes ->
  exists mediaType, first_holder SupportedMimeTypes mimeType = Some mediaType.
Proof.
  intros H. cbv [mimeTypes In] in H.
  repeat (destruct H as [H | H]; [injection H as <- <-; eexists; reflexivity |]).
  contradiction.
Qed.

End ExtensionFacts.

(** X24: the MIME type guessed from a file extension is either the
    fallback application/octet-stream or a MIME type of the table of
    supported types, found under its media type in whatever order the
    table is visited; the fallback itself never passes the upload
    check. *)
Theorem guessed_mime_type_is_supported_or_fallback
    (ToLower : string -> string) (visited : list (Media.MediaType * list string))
    (extension fileName : string) (size : Z) :
  Permutation visited Media.SupportedMimeTypes ->
  (Media.GetMimeTypeFromExtension ToLower extension = "application/octet-stream"
   \/ Media.IsSupportedMimeType
        (Media.GetMediaTypeFromMimeType visited
           (Media.GetMimeTypeFromExtension ToLower extension))
        (Media.GetMimeTypeFromExtension ToLower extension) = true) /\
  Media.ValidateUpload visited fileName size "application/octet-stream" <> None.
Proof.
  intros Hp. split.
  - unfold Media.GetMimeTypeFromExtension.
    destruct (Json.assoc (ToLower extension) Media.mimeTypes) as [m |] eqn:Ha;
      [| left; reflexivity].
    right. apply assoc_Some_In in Ha.
    destruct (guessed_in_table _ _ Ha) as (mt & Hs).
    unfold Media.GetMediaTypeFromMimeType.
    rewrite (first_holder_permuted visited m Hp), Hs.
    destruct (first_holder_Some _ _ _ Hs) as (types & Hin & Hm).
    apply IsSupportedMimeType_iff. exists types. split; assumption.
  - unfold Media.ValidateUpload, Media.GetMediaTypeFromMimeType.
    rewrite (first_holder_permuted visited "application/octet-stream" Hp).
    destruct (String.eqb fileName ""); [discriminate |].
    change (Media.first_holder Media.SupportedMimeTypes "application/octet-stream")
      with (@None Media.MediaType).
    change (Media.IsSupportedMimeType Media.MediaTypeDocument "application/octet-stream")
      with false.
    discriminate.
Qed.

Lemma guessed_mime_type_is_supported_or_fallback_witness :
  (Media.GetMimeTypeFromExtension (fun s => s) ".mp3" = "application/octet-stream"
   \/ Media.IsSupportedMimeType
        (Media.GetMediaTypeFromMimeType (rev Media.SupportedMimeTypes)
           (Media.GetMimeTypeFromExtension (fun s => s) ".mp3"))
        (Media.GetMimeTypeFromExtension (fun s => s) ".mp3") = true) /\
  Media.ValidateUpload (rev Media.SupportedMimeTypes) "notes.bin" 10
    "application/octet-stream" <> None.
Proof.
  apply (guessed_mime_type_is_supported_or_fallback (fun s => s)
           (rev Media.SupportedMimeTypes) ".mp3" "notes.bin" 10).
  apply Permutation_sym, Permutation_rev.
Defined.

(** X25: waiting for a file: the call asks for the file at most
    [maxWaitSeconds] times, not at all when that number is zero or
    negative; it returns a file only if that file is ready; it gives
    up with the timeout exactly after [maxWaitSeconds] polls, each
    followed by a wait of one second; and when it ends otherwise it
    has waited one second between consecutive polls and none after
    the last. *)
Theorem WaitForMediaReady_bounded
    (ClientError : Type) (GetMediaInfo : Z -> Result Media.MediaFile ClientError)
    (ctxDone : Z -> bool) (ctxErr : string) (maxWaitSeconds : Z) :
  Media.polls
    (snd (Media.WaitForMediaReady ClientError GetMediaInfo ctxDone ctxErr maxWaitSeconds))
  <= Z.max 0 maxWaitSeconds /\
  match fst (Media.WaitForMediaReady ClientError GetMediaInfo ctxDone ctxErr
               maxWaitSeconds) with
  | Ok media =>
      Media.IsReady media = true /\
      Media.seconds
        (snd (Media.WaitForMediaReady ClientError GetMediaInfo ctxDone ctxErr
                maxWaitSeconds))
      = Media.polls
          (snd (Media.WaitForMediaReady ClientError GetMediaInfo ctxDone ctxErr
                  maxWaitSeconds)) - 1
  | Failed Media.ErrTimeout =>
      Media.polls
        (snd (Media.WaitForMediaReady ClientError GetMediaInfo ctxDone ctxErr
                maxWaitSeconds))
      = Z.max 0 maxWaitSeconds /\
      Media.seconds
        (snd (Media.WaitForMediaReady ClientError GetMediaInfo ctxDone ctxErr
                maxWaitSeconds))
      = Z.max 0 maxWaitSeconds
  | Failed _ =>
      Media.seconds
        (snd (Media.WaitForMediaReady ClientError GetMediaInfo ctxDone ctxErr
                maxWaitSeconds))
      = Media.polls
          (snd (Media.WaitForMediaReady ClientError GetMediaInfo ctxDone ctxErr
                  maxWaitSeconds)) - 1
  end.
Proof.
  unfold Media.WaitForMediaReady.
  pose proof (wait_loop_facts ClientError GetMediaInfo ctxDone ctxErr
                (Z.to_nat maxWaitSeconds) 0) as H.
  replace (Z.of_nat (Z.to_nat maxWaitSeconds)) with (Z.max 0 maxWaitSeconds) in H by lia.
  exact H.
Qed.

(** X26: an upload request passes validation exactly when it has a file, a
    file name and one of the media types image, video, audio and
    document; a sticker is refused, though a maximum size of 500 KB
    is declared for stickers. *)
Theorem UploadRequest_accepts_four_types (r : Media.UploadRequest) :
  (Media.UploadRequest_Validate r = None
   <-> Media.File r <> None /\ Media.FileName r <> "" /\
       In (Media.UploadMediaType r)
          [Media.MediaTypeImage; Media.MediaTypeVideo; Media.MediaTypeAudio;
           Media.MediaTypeDocument]) /\
  (Media.UploadMediaType r = Media.MediaTypeSticker ->
   Media.UploadRequest_Validate r <> None) /\
  Media.GetMaxFileSize Media.MediaTypeSticker = 500 * 1024.
Proof.
  assert (Hiff : Media.UploadRequest_Validate r = None
                 <-> Media.File r <> None /\ Media.FileName r <> "" /\
                     In (Media.UploadMediaType r)
                        [Media.MediaTypeImage; Media.MediaTypeVideo;
                         Media.MediaTypeAudio; Media.MediaTypeDocument]).
  { unfold Media.UploadRequest_Validate.
    destruct (Media.File r) as [f |]; [| split; [discriminate | intros (H & _); congruence]].
    destruct (String.eqb_spec (Media.FileName r) "") as [Hf | Hf];
      [split; [discriminate | intros (_ & H & _); contradiction] |].
    destruct (String.eqb_spec (Media.UploadMediaType r) "") as [Hm | Hm].
    { split; [discriminate |]. intros (_ & _ & H). rewrite Hm in H.
      cbv [In] in H. repeat (destruct H as [H | H]; [discriminate H |]). contradiction. }
    unfold Media.IsValidMediaType.
    destruct (Json.assoc (Media.UploadMediaType r) Media.SupportedMimeTypes) as [types |]
      eqn:Ha; cbn [negb].
    - split; [| reflexivity]. intros _.
      split; [discriminate |]. split; [exact Hf |].
      apply assoc_Some_In in Ha. cbv [Media.SupportedMimeTypes In] in Ha.
      cbv [In].
      repeat (destruct Ha as [Ha | Ha]; [injection Ha as <- _; tauto |]). contradiction.
    - split; [discriminate |]. intros (_ & _ & H). exfalso.
      cbv [In] in H.
      repeat (destruct H as [H | H]; [rewrite <- H in Ha; discriminate Ha |]).
      contradiction. }
  split; [exact Hiff |]. split; [| reflexivity].
  intros Hs Hv. apply Hiff in Hv. destruct Hv as (_ & _ & H). rewrite Hs in H.
  cbv [In] in H. repeat (destruct H as [H | H]; [discriminate H |]). contradiction.
Qed.

(** ** Keywords of a chatbot *)

Section KeywordFacts.
Import Chatbots.

Lemma HasKeyword_In (Keywords : list string) (keyword : string) :
  HasKeyword Keywords keyword = true <-> In keyword Keywords.
Proof.
  induction Keywords as [| k rest IH]; cbn [HasKeyword In].
  - split; [discriminate | tauto].
  - destruct (String.eqb_spec k keyword) as [-> | Hk].
    + split; [intros _; left; reflexivity | reflexivity].
    + rewrite IH. split; [intros H; right; exact H | intros [H | H]; [contradiction | exact H]].
Qed.

Lemma HasKeyword_app (l1 l2 : list string) (keyword : string) :
  HasKeyword (l1 ++ l2) keyword = HasKeyword l1 keyword || HasKeyword l2 keyword.
Proof.
  induction l1 as [| k rest IH]; cbn [app HasKeyword orb]; [reflexivity |].
  destruct (String.eqb k keyword); [reflexivity | exact IH].
Qed.

Lemma RemoveKeyword_In (Keywords : list string) (keyword x : string) :
  In x (RemoveKeyword Keywords keyword) -> In x Keywords.
Proof.
  induction Keywords as [| k rest IH]; cbn [RemoveKeyword]; [tauto |].
  destruct (String.eqb k keyword).
  - intros H. right. exact H.
  - intros [H | H]; [left; exact H | right; apply IH; exact H].
Qed.

Lemma RemoveKeyword_NoDup (Keywords : list string) (keyword : string) :
  NoDup Keywords -> NoDup (RemoveKeyword Keywords keyword).
Proof.
  intros H. induction H as [| k rest Hk Hn IH]; cbn [RemoveKeyword]; [constructor |].
  destruct (String.eqb k keyword); [exact Hn |].
  constructor; [| exact IH]. intros Hin. apply Hk. apply RemoveKeyword_In in Hin. exact Hin.
Qed.

Lemma RemoveKeyword_has (Keywords : list string) (keyword other : string) :
  NoDup Keywords ->
  HasKeyword (RemoveKeyword Keywords keyword) other
  = HasKeyword Keywords other && negb (String.eqb other keyword).
Proof.
  intros H. induction H as [| k rest Hk Hn IH]; cbn [RemoveKeyword HasKeyword];
    [reflexivity |].
  destruct (String.eqb_spec k keyword) as [-> | Hne].
  - destruct (String.eqb_spec keyword other) as [<- | Ho].
    + rewrite String.eqb_refl. cbn [negb andb].
      destruct (HasKeyword rest keyword) eqn:Hh; [| reflexivity].
      apply HasKeyword_In in Hh. contradiction.
    + destruct (String.eqb_spec other keyword) as [-> | _]; [contradiction |].
      cbn [negb]. rewrite andb_true_r. reflexivity.
  - cbn [HasKeyword]. destruct (String.eqb_spec k other) as [<- | Ho].
    + destruct (String.eqb_spec k keyword); [contradiction | reflexivity].
    + exact IH.
Qed.

Lemma RemoveKeyword_last (Keywords : list string) (keyword : string) :
  HasKeyword Keywords keyword = false ->
  RemoveKeyword (Keywords ++ [keyword]) keyword = Keywords.
Proof.
  induction Keywords as [| k rest IH]; cbn [app RemoveKeyword HasKeyword].
  - intros _. rewrite String.eqb_refl. reflexivity.
  - destruct (String.eqb k keyword); [discriminate |].
    intros H. rewrite (IH H). reflexivity.
Qed.

End KeywordFacts.

(** X27: the keyword list of a chatbot behaves as a set when it holds no
    duplicate: adding and removing a keyword keep it free of
    duplicates; after AddKeyword the chatbot has that keyword and the
    ones it had; after RemoveKeyword it has the ones it had but that
    one; and removing a keyword just added to a chatbot without it
    gives back the list as it was. *)
Theorem keywords_behave_as_set (Keywords : list string) (keyword other : string) :
  NoDup Keywords ->
  NoDup (Chatbots.AddKeyword Keywords keyword) /\
  NoDup (Chatbots.RemoveKeyword Keywords keyword) /\
  Chatbots.HasKeyword (Chatbots.AddKeyword Keywords keyword) other
  = Chatbots.HasKeyword Keywords other || String.eqb other keyword /\
  Chatbots.HasKeyword (Chatbots.RemoveKeyword Keywords keyword) other
  = Chatbots.HasKeyword Keywords other && negb (String.eqb other keyword) /\
  (Chatbots.HasKeyword Keywords keyword = false ->
   Chatbots.RemoveKeyword (Chatbots.AddKeyword Keywords keyword) keyword = Keywords).
Proof.
  intros Hn. unfold Chatbots.AddKeyword.
  split; [| split; [| split; [| split]]].
  - destruct (Chatbots.HasKeyword Keywords keyword) eqn:Hh; cbn [negb]; [exact Hn |].
    apply NoDup_app; [exact Hn | repeat constructor; intros [] |].
    intros x Hx [<- | []]. apply HasKeyword_In in Hx. congruence.
  - apply RemoveKeyword_NoDup. exact Hn.
  - destruct (Chatbots.HasKeyword Keywords keyword) eqn:Hh; cbn [negb].
    + destruct (String.eqb_spec other keyword) as [-> | _];
        [rewrite Hh; reflexivity | rewrite orb_false_r; reflexivity].
    + rewrite HasKeyword_app. cbn [Chatbots.HasKeyword].
      rewrite (String.eqb_sym keyword other).
      destruct (String.eqb other keyword); reflexivity.
  - apply RemoveKeyword_has. exact Hn.
  - intros Hh. rewrite Hh. cbn [negb]. apply RemoveKeyword_last. exact Hh.
Qed.

Lemma keywords_behave_as_set_witness :
  NoDup (Chatbots.AddKeyword ["hola"; "precio"] "horario") /\
  NoDup (Chatbots.RemoveKeyword ["hola"; "precio"] "horario") /\
  Chatbots.HasKeyword (Chatbots.AddKeyword ["hola"; "precio"] "horario") "precio"
  = Chatbots.HasKeyword ["hola"; "precio"] "precio" || String.eqb "precio" "horario" /\
  Chatbots.HasKeyword (Chatbots.RemoveKeyword ["hola"; "precio"] "horario") "precio"
  = Chatbots.HasKeyword ["hola"; "precio"] "precio"
    && negb (String.eqb "precio" "horario") /\
  (Chatbots.HasKeyword ["hola"; "precio"] "horario" = false ->
   Chatbots.RemoveKeyword (Chatbots.AddKeyword ["hola"; "precio"] "horario") "horario"
   = ["hola"; "precio"]).
Proof.
  apply (keywords_behave_as_set ["hola"; "precio"] "horario" "precio").
  repeat constructor; simpl; intuition discriminate.
Defined.

(** ** Registration of a webhook, both ways *)

Section RegistrationBothWays.
Import Webhooks WebhookService.

Lemma first_invalid_first (pre post : list WebhookEventType) (e : WebhookEventType) :
  Forall (fun e => In e knownEvents) pre -> ~ In e knownEvents ->
  first_invalid (pre ++ e :: post) = Some e.
Proof.
  intros Hpre He. induction Hpre as [| x pre Hx _ IH]; cbn [app first_invalid].
  - destruct (validEvents e) eqn:Hv; [| reflexivity].
    apply validEvents_In in Hv. contradiction.
  - apply validEvents_In in Hx. rewrite Hx. cbn [negb]. exact IH.
Qed.

End RegistrationBothWays.

(** X28: a webhook registration is sent to the API exactly when its URL is
    not empty, it names at least one event and every event is one of
    the thirteen known types; then it is posted once, as it is.  When
    the URL is given and some event is unknown, the validation error
    names the first unknown event of the list. *)
Theorem registration_sent_iff_valid
    (ClientError : Type) (DoRequest : WebhookService.Call -> option ClientError)
    (cfg : WebhookService.WebhookRegistration) :
  (snd (WebhookService.RegisterWebhookWithConfig ClientError DoRequest (Some cfg))
   = [WebhookService.mkCall "POST" "/api/v1/webhooks" (Some cfg)]
   <-> WebhookService.URL cfg <> "" /\ WebhookService.Events cfg <> [] /\
       Forall (fun e => In e Webhooks.knownEvents) (WebhookService.Events cfg)) /\
  (forall pre e post,
      WebhookService.URL cfg <> "" ->
      WebhookService.Events cfg = pre ++ e :: post ->
      Forall (fun e => In e Webhooks.knownEvents) pre ->
      ~ In e Webhooks.knownEvents ->
      WebhookService.RegisterWebhookWithConfig ClientError DoRequest (Some cfg)
      = (Some (WebhookService.ErrValidation ClientError
                 (String.append "invalid event type: " e)), [])).
Proof.
  split.
  - rewrite <- Validate_None. unfold WebhookService.RegisterWebhookWithConfig.
    destruct (WebhookService.Validate cfg) as [msg |].
    + split; discriminate.
    + split; [reflexivity |]. intros _. destruct (DoRequest _); reflexivity.
  - intros pre e post Hu He Hpre Hbad.
    unfold WebhookService.RegisterWebhookWithConfig, WebhookService.Validate.
    destruct (String.eqb_spec (WebhookService.URL cfg) ""); [contradiction |].
    rewrite He.
    destruct (Nat.eqb_spec (List.length (pre ++ e :: post)) 0) as [H0 | _].
    { rewrite length_app in H0. cbn in H0. lia. }
    rewrite (first_invalid_first pre post e Hpre Hbad). reflexivity.
Qed.

(** ** Validation errors *)

Section ValidationFacts.
Import Validation.

Lemma collect_from (adds : list (string * string)) (e : MultiValidationError) :
  Errors (fold_left (fun e fm => Add e (fst fm) (snd fm)) adds e)
  = Errors e ++ map (fun fm => mkValidationError (fst fm) (snd fm)) adds.
Proof.
  revert e. induction adds as [| fm adds IH]; intros e; cbn [fold_left map].
  - symmetry. apply app_nil_r.
  - rewrite IH. cbn [Add Errors]. rewrite <- app_assoc. reflexivity.
Qed.

End ValidationFacts.

(** X29: a collection of validation errors keeps the errors in the order
    they were added; it has errors exactly when something was added;
    its message is the message of the error when there is exactly
    one, and otherwise only the count, also for an empty collection,
    which reports "Multiple validation errors: 0 errors". *)
Theorem MultiValidationError_collects (adds : list (string * string)) :
  Validation.Errors (Validation.collect adds)
  = map (fun fm => Validation.mkValidationError (fst fm) (snd fm)) adds /\
  Validation.HasErrors (Validation.collect adds) = negb (Nat.eqb (List.length adds) 0) /\
  match adds with
  | [(field, message)] =>
      Validation.MultiValidationError_Error (Validation.collect adds)
      = String.append "Validation error for field '"
          (String.append field (String.append "': " message))
  | _ =>
      Validation.MultiValidationError_Error (Validation.collect adds)
      = String.append "Multiple validation errors: "
          (String.append (Strconv.Itoa (Z.of_nat (List.length adds))) " errors")
  end /\
  Validation.MultiValidationError_Error (Validation.collect [])
  = "Multiple validation errors: 0 errors".
Proof.
  assert (He : Validation.Errors (Validation.collect adds)
               = map (fun fm => Validation.mkValidationError (fst fm) (snd fm)) adds).
  { unfold Validation.collect. rewrite collect_from. reflexivity. }
  split; [exact He |]. split; [| split; [| reflexivity]].
  - unfold Validation.HasErrors. rewrite He, length_map.
    destruct adds; reflexivity.
  - unfold Validation.MultiValidationError_Error. rewrite He.
    destruct adds as [| [f m] [| fm2 rest]]; cbn [map List.length]; try reflexivity.
    rewrite length_map. reflexivity.
Qed.
